(** * ainspector: diff range model, change correlator, fingerprints, tracker

    A shallow embedding of the Go packages [internal/diff],
    [internal/extractor] and [internal/cache] of ainspector, and the
    properties of them that the design document states; and, beyond the
    document, of what the code around them does: the ignore patterns of
    [internal/config], the detection of the CI environment in
    [internal/ci], the collection loop of [internal/parser], the reading
    of the model's answers in [internal/llm], and the part of [runReview]
    in [cmd] that chooses the functions to review and writes the
    comments.

    Go strings are byte strings and are modelled by [string] (one [ascii]
    per byte).  Go's [int] is modelled by [Z] with the 64-bit two's
    complement wrap-around written out in [GoInt].  The third-party
    packages the code calls (go-diff, tree-sitter, doublestar, the JSON
    decoder, the hosting provider, the model) are interfaces: type classes
    or section variables that the theorems quantify over.  Names are those
    of the source; the fields of a record carry a prefix ([fn], [ec],
    [rc], ...) where two records share a field name. *)

From Stdlib Require Import ZArith Lia List Ascii String Bool Sorted.
From stdpp Require Import base gmap strings list pretty.
Import ListNotations.

Local Open Scope string_scope.
Local Open Scope list_scope.
Local Open Scope Z_scope.

(* ===================================================================== *)
(** ** Go's [int] *)
(* ===================================================================== *)

Module GoInt.

Definition min_int : Z := - 2 ^ 63.
Definition max_int : Z := 2 ^ 63 - 1.

(** Two's complement wrap-around of a mathematical integer. *)
Definition wrap (z : Z) : Z := (z + 2 ^ 63) mod 2 ^ 64 - 2 ^ 63.

Definition add (a b : Z) : Z := wrap (a + b).
Definition sub (a b : Z) : Z := wrap (a - b).

(** [x++] *)
Definition succ (a : Z) : Z := add a 1.

Definition in_range (z : Z) : Prop := min_int <= z <= max_int.

(** The values of an [int32]. *)
Definition int32_range (z : Z) : Prop := - 2 ^ 31 <= z <= 2 ^ 31 - 1.

End GoInt.

(* ===================================================================== *)
(** ** The functions of Go's [strings] package that the code calls *)
(* ===================================================================== *)

Module GoStrings.

Definition nl : ascii := "010"%char.
Definition newline : string := String nl EmptyString.

Definition code (c : ascii) : Z := Z.of_N (N_of_ascii c).

(** [strings.HasPrefix(s, prefix)] *)
Definition HasPrefix (s prefix : string) : bool := String.prefix prefix s.

(** [strings.Split(s, "\n")]: the pieces between the newlines, one more
    than there are newlines. *)
Fixpoint SplitLines (s : string) : list string :=
  match s with
  | EmptyString => [EmptyString]
  | String c r =>
      match SplitLines r with
      | [] => [String c EmptyString]
      | h :: t => if Ascii.eqb c nl then EmptyString :: h :: t
                  else String c h :: t
      end
  end.

(** [strings.Join(parts, sep)] *)
Fixpoint Join (parts : list string) (sep : string) : string :=
  match parts with
  | [] => EmptyString
  | [p] => p
  | p :: rest => p +:+ sep +:+ Join rest sep
  end.

(** What a [strings.Builder] holds once every line of [lines] was
    written to it followed by a newline. *)
Fixpoint written (lines : list string) : string :=
  match lines with
  | [] => EmptyString
  | l :: rest => (l +:+ newline) +:+ written rest
  end.

Fixpoint rev_onto (s acc : string) : string :=
  match s with
  | EmptyString => acc
  | String c r => rev_onto r (String c acc)
  end.

Definition reverse (s : string) : string := rev_onto s EmptyString.

(** The six ASCII bytes of [asciiSpace]: tab, LF, VT, FF, CR, space. *)
Definition asciiSpace (c : ascii) : bool :=
  let n := code c in
  ((9 <=? n) && (n <=? 13)) || (n =? 32).

(** UTF-8 encodings of the white space of [unicode.IsSpace] above
    U+007F.  Two bytes: U+0085 and U+00A0. *)
Definition space2 (a b : ascii) : bool :=
  (code a =? 194) && ((code b =? 133) || (code b =? 160)).

(** Three bytes: U+1680, U+2000..U+200A, U+2028, U+2029, U+202F, U+205F
    and U+3000. *)
Definition space3 (a b c : ascii) : bool :=
  ((code a =? 225) && (code b =? 154) && (code c =? 128))
  || ((code a =? 226) && (code b =? 128)
      && (((128 <=? code c) && (code c <=? 138))
          || (code c =? 168) || (code c =? 169) || (code c =? 175)))
  || ((code a =? 226) && (code b =? 129) && (code c =? 159))
  || ((code a =? 227) && (code b =? 128) && (code c =? 128)).

(** Strip white-space runes from the front.  [p2] and [p3] recognise the
    encodings of two and three bytes in the order the bytes are met. *)
Fixpoint trimFront (p2 : ascii -> ascii -> bool)
    (p3 : ascii -> ascii -> ascii -> bool) (s : string) : string :=
  match s with
  | EmptyString => s
  | String c r =>
      if asciiSpace c then trimFront p2 p3 r
      else
        match r with
        | EmptyString => s
        | String d r2 =>
            if p2 c d then trimFront p2 p3 r2
            else
              match r2 with
              | EmptyString => s
              | String e r3 => if p3 c d e then trimFront p2 p3 r3 else s
              end
        end
  end.

Definition TrimLeftSpace (s : string) : string := trimFront space2 space3 s.

(** From the end the bytes of a rune are met last byte first. *)
Definition TrimRightSpace (s : string) : string :=
  reverse (trimFront (fun a b => space2 b a) (fun a b c => space3 c b a)
             (reverse s)).

(** [strings.TrimSpace(s)] *)
Definition TrimSpace (s : string) : string :=
  TrimRightSpace (TrimLeftSpace s).

End GoStrings.

(* ===================================================================== *)
(** ** Errors *)
(* ===================================================================== *)

(** A Go result [(v, err)]: either the value or the error. *)
Inductive result (E A : Type) : Type :=
| Ok (v : A)
| Err (e : E).
Arguments Ok {E A} v.
Arguments Err {E A} e.

(** The text of an [error]. *)
Definition error : Type := string.

(* ===================================================================== *)
(** ** Package [github.com/sourcegraph/go-diff/diff] (interface) *)
(* ===================================================================== *)

(** [diff.Hunk]; the four numbers are [int32] in Go. *)
Record Hunk : Type := mkHunk {
  OrigStartLine : Z;
  OrigLines : Z;
  NewStartLine : Z;
  NewLines : Z;
  Body : string
}.

(** [diff.FileDiff], the fields the code reads. *)
Record FileDiff : Type := mkFileDiff {
  Hunks : list Hunk
}.

Class DiffLib : Type := {
  ParseMultiFileDiff : string -> result error (list FileDiff)
}.

(* ===================================================================== *)
(** ** Package [internal/diff] *)
(* ===================================================================== *)

Module Diff.
Import GoStrings.

Record ModifiedLines : Type := mkModifiedLines {
  Added : list Z;
  Deleted : list Z
}.

(** The placeholder headers put before a patch that has none. *)
Definition headers : string :=
  "--- a/file" +:+ newline +:+ "+++ b/file" +:+ newline.

Definition withHeaders (patch : string) : string :=
  if HasPrefix patch "---" then patch else headers +:+ patch.

(** The state of the loops of [ParsePatch]: result, [newLine], [oldLine]. *)
Definition parseState : Type := (ModifiedLines * Z * Z)%type.

(** One turn of the loop over the lines of a hunk body. *)
Definition parseLine (st : parseState) (line : string) : parseState :=
  let '(result, newLine, oldLine) := st in
  match line with
  | EmptyString => st
  | String c _ =>
      if Ascii.eqb c "+" then
        (mkModifiedLines (Added result ++ [newLine]) (Deleted result),
         GoInt.succ newLine, oldLine)
      else if Ascii.eqb c "-" then
        (mkModifiedLines (Added result) (Deleted result ++ [oldLine]),
         newLine, GoInt.succ oldLine)
      else if Ascii.eqb c " " then
        (result, GoInt.succ newLine, GoInt.succ oldLine)
      else
        (result, GoInt.succ newLine, GoInt.succ oldLine)
  end.

Definition parseHunk (result : ModifiedLines) (hunk : Hunk) : ModifiedLines :=
  let newLine := NewStartLine hunk in
  let oldLine := OrigStartLine hunk in
  let lines := SplitLines (Body hunk) in
  fst (fst (fold_left parseLine lines (result, newLine, oldLine))).

Definition parseFile (result : ModifiedLines) (fd : FileDiff) : ModifiedLines :=
  fold_left parseHunk (Hunks fd) result.

Definition ParsePatch `{DiffLib} (patch : string) : result error ModifiedLines :=
  if String.eqb patch "" then Ok (mkModifiedLines [] [])
  else
    match ParseMultiFileDiff (withHeaders patch) with
    | Err err => Err err
    | Ok fileDiffs => Ok (fold_left parseFile fileDiffs (mkModifiedLines [] []))
    end.

Definition HasModifiedLineInRange (m : ModifiedLines) (startLine endLine : Z) : bool :=
  existsb (fun line => (line >=? startLine) && (line <=? endLine)) (Added m).

(** The state of the loops of [ExtractDiffForRange]: the text written to
    the builder so far, and [newLine]. *)
Definition extractState : Type := (string * Z)%type.

Definition extractLine (startLine endLine : Z) (st : extractState)
    (line : string) : extractState :=
  let '(out, newLine) := st in
  match line with
  | EmptyString => st
  | String c _ =>
      let inRange := (newLine >=? startLine) && (newLine <=? endLine) in
      if Ascii.eqb c "+" then
        ((if inRange then out +:+ (line +:+ newline) else out),
         GoInt.succ newLine)
      else if Ascii.eqb c "-" then
        ((if inRange
             || ((newLine >=? startLine) && (newLine <=? GoInt.add endLine 1))
          then out +:+ (line +:+ newline) else out),
         newLine)
      else if Ascii.eqb c " " then (out, GoInt.succ newLine)
      else (out, GoInt.succ newLine)
  end.

Definition extractHunk (startLine endLine : Z) (out : string) (hunk : Hunk) : string :=
  let hunkStart := NewStartLine hunk in
  let hunkEnd := GoInt.sub (GoInt.add hunkStart (NewLines hunk)) 1 in
  if (hunkEnd >=? startLine) && (hunkStart <=? endLine) then
    let lines := SplitLines (Body hunk) in
    let newLine := NewStartLine hunk in
    fst (fold_left (extractLine startLine endLine) lines (out, newLine))
  else out.

Definition extractFile (startLine endLine : Z) (out : string) (fd : FileDiff) : string :=
  fold_left (extractHunk startLine endLine) (Hunks fd) out.

Definition ExtractDiffForRange `{DiffLib} (patch : string)
    (startLine endLine : Z) : string :=
  if String.eqb patch "" then ""
  else
    match ParseMultiFileDiff (withHeaders patch) with
    | Err _ => ""
    | Ok fileDiffs =>
        TrimSpace (fold_left (extractFile startLine endLine) fileDiffs "")
    end.

End Diff.

(* ===================================================================== *)
(** ** A reader of plain unified diffs *)
(* ===================================================================== *)

(** An instance of [DiffLib] for the examples: one file, the two header
    lines, then hunks headed by [@@ -a,b +c,d @@] (a missing count is 1).
    As go-diff does, it keeps in [Body] every line of the hunk followed by
    a newline.  Anything else is a parse error. *)
Module PlainDiff.
Import GoStrings.

Definition digit (c : ascii) : option Z :=
  let n := code c in
  if (48 <=? n) && (n <=? 57) then Some (n - 48) else None.

Fixpoint digits (acc : Z) (s : string) : Z * string :=
  match s with
  | EmptyString => (acc, s)
  | String c r =>
      match digit c with
      | Some d => digits (10 * acc + d) r
      | None => (acc, s)
      end
  end.

Definition number (s : string) : option (Z * string) :=
  match s with
  | EmptyString => None
  | String c _ =>
      match digit c with
      | Some _ => Some (digits 0 s)
      | None => None
      end
  end.

Fixpoint stripPrefix (p s : string) : option string :=
  match p, s with
  | EmptyString, _ => Some s
  | String a p', String b s' =>
      if Ascii.eqb a b then stripPrefix p' s' else None
  | String _ _, EmptyString => None
  end.

(** [a] or [a,b] *)
Definition range (s : string) : option (Z * Z * string) :=
  match number s with
  | None => None
  | Some (a, r) =>
      match stripPrefix "," r with
      | None => Some (a, 1, r)
      | Some r' =>
          match number r' with
          | None => None
          | Some (b, r'') => Some (a, b, r'')
          end
      end
  end.

Definition hunkHeader (line : string) : option Hunk :=
  match stripPrefix "@@ -" line with
  | None => None
  | Some r1 =>
      match range r1 with
      | None => None
      | Some (a, b, r2) =>
          match stripPrefix " +" r2 with
          | None => None
          | Some r3 =>
              match range r3 with
              | None => None
              | Some (c, d, r4) =>
                  match stripPrefix " @@" r4 with
                  | None => None
                  | Some _ => Some (mkHunk a b c d "")
                  end
              end
          end
      end
  end.

Definition linePrefix (c : ascii) : bool :=
  Ascii.eqb c " " || Ascii.eqb c "-" || Ascii.eqb c "+" || Ascii.eqb c "\".

Definition bodyLine (line : string) : bool :=
  match line with
  | EmptyString => true
  | String c _ => linePrefix c
  end.

Definition flush (cur : option Hunk) (done : list Hunk) : list Hunk :=
  match cur with
  | Some h => done ++ [h]
  | None => done
  end.

Fixpoint readHunks (lines : list string) (cur : option Hunk)
    (done : list Hunk) : result error (list Hunk) :=
  match lines with
  | [] => Ok (flush cur done)
  | line :: rest =>
      if HasPrefix line "@@" then
        match hunkHeader line with
        | None => Err "bad hunk header"
        | Some h => readHunks rest (Some h) (flush cur done)
        end
      else
        match cur with
        | None => Err "no hunk header"
        | Some h =>
            if bodyLine line then
              readHunks rest
                (Some (mkHunk (OrigStartLine h) (OrigLines h)
                         (NewStartLine h) (NewLines h)
                         (Body h +:+ line +:+ newline)))
                done
            else Err "bad hunk line"
        end
  end.

(** The lines of a text; a final newline ends the last line. *)
Definition textLines (s : string) : list string :=
  let parts := SplitLines s in
  match List.rev parts with
  | EmptyString :: front => List.rev front
  | _ => parts
  end.

Definition parse (text : string) : result error (list FileDiff) :=
  match textLines text with
  | l1 :: l2 :: rest =>
      if HasPrefix l1 "--- " && HasPrefix l2 "+++ " then
        match readHunks rest None [] with
        | Ok hs => Ok [mkFileDiff hs]
        | Err e => Err e
        end
      else Err "no file header"
  | _ => Err "no file header"
  end.

Definition lib : DiffLib := {| ParseMultiFileDiff := parse |}.

End PlainDiff.

(* ===================================================================== *)
(** ** Package [crypto/sha256] and [encoding/hex] *)
(* ===================================================================== *)

(** SHA-256 as FIPS 180-4 defines it, on bytes and 32-bit words held in
    [Z]. *)
Module SHA256.

Definition word (x : Z) : Z := x mod 2 ^ 32.
Definition plus (x y : Z) : Z := word (x + y).

Definition rotr (n x : Z) : Z :=
  Z.lor (Z.shiftr x n) (word (Z.shiftl x (32 - n))).
Definition shr (n x : Z) : Z := Z.shiftr x n.

Definition Ch (x y z : Z) : Z :=
  Z.lxor (Z.land x y) (Z.land (Z.lnot x) z).
Definition Maj (x y z : Z) : Z :=
  Z.lxor (Z.lxor (Z.land x y) (Z.land x z)) (Z.land y z).
Definition Sigma0 (x : Z) : Z :=
  Z.lxor (Z.lxor (rotr 2 x) (rotr 13 x)) (rotr 22 x).
Definition Sigma1 (x : Z) : Z :=
  Z.lxor (Z.lxor (rotr 6 x) (rotr 11 x)) (rotr 25 x).
Definition sigma0 (x : Z) : Z :=
  Z.lxor (Z.lxor (rotr 7 x) (rotr 18 x)) (shr 3 x).
Definition sigma1 (x : Z) : Z :=
  Z.lxor (Z.lxor (rotr 17 x) (rotr 19 x)) (shr 10 x).

(** The first sixty-four primes. *)
Definition primes : list Z := [
  2; 3; 5; 7; 11; 13; 17; 19; 23; 29; 31; 37; 41; 43; 47; 53;
  59; 61; 67; 71; 73; 79; 83; 89; 97; 101; 103; 107; 109; 113; 127; 131;
  137; 139; 149; 151; 157; 163; 167; 173; 179; 181; 191; 193; 197; 199;
  211; 223; 227; 229; 233; 239; 241; 251; 257; 263; 269; 271; 277; 281;
  283; 293; 307; 311 ].

(** The largest [r] below [2 ^ n] with [r ^ 3 <= x], bit after bit. *)
Fixpoint cubeRoot (n : nat) (x r : Z) : Z :=
  match n with
  | O => r
  | S k =>
      let c := r + 2 ^ Z.of_nat k in
      if c * c * c <=? x then cubeRoot k x c else cubeRoot k x r
  end.

(** The first thirty-two bits of the fractional part of a cube root and
    of a square root. *)
Definition fracCubeRoot (p : Z) : Z := word (cubeRoot 36 (p * 2 ^ 96) 0).
Definition fracSquareRoot (p : Z) : Z := word (Z.sqrt (p * 2 ^ 64)).

(** The round constants: from the cube roots of the sixty-four primes. *)
Definition K : list Z := Eval vm_compute in map fracCubeRoot primes.

(** The eight working variables, and the hash value between blocks. *)
Record state : Type := mkState {
  sa : Z; sb : Z; sc : Z; sd : Z; se : Z; sf : Z; sg : Z; sh : Z
}.

(** The initial hash value: from the square roots of the first eight
    primes. *)
Definition H0 : state :=
  Eval vm_compute in
    mkState (fracSquareRoot 2) (fracSquareRoot 3) (fracSquareRoot 5)
            (fracSquareRoot 7) (fracSquareRoot 11) (fracSquareRoot 13)
            (fracSquareRoot 17) (fracSquareRoot 19).

(** Padding: the byte 0x80, zero bytes up to 56 modulo 64, and the
    length in bits as eight big-endian bytes. *)
Definition bigEndian (n : nat) (x : Z) : list Z :=
  map (fun i => (x / 2 ^ (8 * Z.of_nat i)) mod 256) (List.rev (seq 0 n)).

Definition pad (msg : list Z) : list Z :=
  let len := Z.of_nat (length msg) in
  let zeros := Z.to_nat ((55 - len) mod 64) in
  msg ++ [128] ++ repeat 0 zeros ++ bigEndian 8 (8 * len).

Fixpoint words (fuel : nat) (bs : list Z) : list Z :=
  match fuel, bs with
  | S n, b0 :: b1 :: b2 :: b3 :: rest =>
      (b0 * 2 ^ 24 + b1 * 2 ^ 16 + b2 * 2 ^ 8 + b3) :: words n rest
  | _, _ => []
  end.

(** The message schedule, newest word first: [W_t] from the sixteen
    before it. *)
Definition nextW (ws : list Z) : Z :=
  plus (plus (plus (sigma1 (nth 1 ws 0)) (nth 6 ws 0))
             (sigma0 (nth 14 ws 0)))
       (nth 15 ws 0).

Fixpoint extend (n : nat) (ws : list Z) : list Z :=
  match n with
  | O => ws
  | S n' => extend n' (nextW ws :: ws)
  end.

Definition schedule (block : list Z) : list Z :=
  List.rev (extend 48 (List.rev block)).

Definition round (s : state) (kw : Z * Z) : state :=
  let '(k, w) := kw in
  let T1 := plus (plus (plus (plus (sh s) (Sigma1 (se s)))
                             (Ch (se s) (sf s) (sg s))) k) w in
  let T2 := plus (Sigma0 (sa s)) (Maj (sa s) (sb s) (sc s)) in
  mkState (plus T1 T2) (sa s) (sb s) (sc s)
          (plus (sd s) T1) (se s) (sf s) (sg s).

Definition compress (h : state) (block : list Z) : state :=
  let s := fold_left round (combine K (schedule block)) h in
  mkState (plus (sa h) (sa s)) (plus (sb h) (sb s))
          (plus (sc h) (sc s)) (plus (sd h) (sd s))
          (plus (se h) (se s)) (plus (sf h) (sf s))
          (plus (sg h) (sg s)) (plus (sh h) (sh s)).

Fixpoint blocks (fuel : nat) (ws : list Z) (h : state) : state :=
  match fuel with
  | O => h
  | S n =>
      match ws with
      | [] => h
      | _ => blocks n (skipn 16 ws) (compress h (firstn 16 ws))
      end
  end.

Definition digest (h : state) : list Z :=
  flat_map (bigEndian 4)
    [sa h; sb h; sc h; sd h; se h; sf h; sg h; sh h].

(** [sha256.Sum256(data)]: the 32 bytes of the digest. *)
Definition Sum256 (data : list Z) : list Z :=
  let ws := words (length (pad data)) (pad data) in
  digest (blocks (length ws) ws H0).

End SHA256.

Module Hex.
Import GoStrings.

Definition hextable : string := "0123456789abcdef".

Definition hexDigit (n : Z) : ascii :=
  match String.get (Z.to_nat (n mod 16)) hextable with
  | Some c => c
  | None => "0"%char
  end.

(** [hex.EncodeToString(src)] *)
Fixpoint EncodeToString (src : list Z) : string :=
  match src with
  | [] => EmptyString
  | b :: rest =>
      String (hexDigit (b / 16)) (String (hexDigit b) (EncodeToString rest))
  end.

(** [[]byte(s)] *)
Fixpoint bytes (s : string) : list Z :=
  match s with
  | EmptyString => []
  | String c r => code c :: bytes r
  end.

End Hex.

(* ===================================================================== *)
(** ** Packages [internal/provider], [internal/parser], [internal/config]
       (interfaces) *)
(* ===================================================================== *)

(** [provider.ModifiedFile] *)
Record ModifiedFile : Type := mkModifiedFile {
  Path : string;
  OldPath : string;
  Status : string;
  Patch : string;
  RawContent : string
}.

(** [provider.ExistingComment] *)
Record ExistingComment : Type := mkExistingComment {
  ecPath : string;
  ecLine : Z;
  ecBody : string
}.

(** [provider.Provider], the method the extractor calls. *)
Class Provider : Type := {
  GetFileContent : string -> result error string
}.

(** [parser.Function] *)
Record Function : Type := mkFunction {
  fnName : string;
  fnStartLine : Z;
  fnEndLine : Z;
  fnContent : string
}.

(** [parser.IsSupported] and the method [Parse] of [Parser], which run tree-sitter;
    [Parse] returns the functions and the language name. *)
Class SourceParser : Type := {
  IsSupported : string -> bool;
  Parse : string -> string -> result error (list Function * string)
}.

(** The method [ShouldIgnore] of [config.Config], which matches glob patterns. *)
Class Config : Type := {
  ShouldIgnore : string -> bool
}.

(* ===================================================================== *)
(** ** Package [internal/extractor] *)
(* ===================================================================== *)

Module Extractor.

Record ExtractedFunction : Type := mkExtractedFunction {
  Name : string;
  StartLine : Z;
  EndLine : Z;
  Content : string;
  Diff : string;
  FilePath : string;
  Language : string;
  ChangeType : string
}.

Section WithCollaborators.
Context `{DiffLib} `{Provider} `{SourceParser}.

(** The [config] field of [Extractor]; [None] is the nil pointer. *)
Variable config : option Config.

(** One turn of the loop over the functions of a file. *)
Definition extractFunction (file : ModifiedFile)
    (modifiedLines : Diff.ModifiedLines) (language : string)
    (result : list ExtractedFunction) (fn : Function)
    : list ExtractedFunction :=
  if Diff.HasModifiedLineInRange modifiedLines (fnStartLine fn) (fnEndLine fn)
  then
    let changeType :=
      if String.eqb (Status file) "added" then "added" else "modified" in
    let fnDiff :=
      Diff.ExtractDiffForRange (Patch file) (fnStartLine fn) (fnEndLine fn) in
    result ++ [mkExtractedFunction (fnName fn) (fnStartLine fn)
                 (fnEndLine fn) (fnContent fn) fnDiff (Path file)
                 language changeType]
  else result.

Definition extractFromFile (file : ModifiedFile)
    : result error (list ExtractedFunction) :=
  match GetFileContent (Path file) with
  | Err err => Err ("failed to get file content: " +:+ err)
  | Ok content =>
      match Diff.ParsePatch (Patch file) with
      | Err err => Err ("failed to parse patch: " +:+ err)
      | Ok modifiedLines =>
          match Parse (Path file) content with
          | Err err => Err ("failed to parse file: " +:+ err)
          | Ok (functions, language) =>
              Ok (fold_left (extractFunction file modifiedLines language)
                    functions [])
          end
      end
  end.

(** One turn of the loop over the files.  The messages the loop prints
    are not part of the model. *)
Definition extractStep (result : list ExtractedFunction)
    (file : ModifiedFile) : list ExtractedFunction :=
  if String.eqb (Status file) "deleted" then result
  else if match config with
          | Some cfg => @ShouldIgnore cfg (Path file)
          | None => false
          end then result
  else if negb (IsSupported (Path file)) then result
  else
    match extractFromFile file with
    | Err _ => result
    | Ok functions => result ++ functions
    end.

Definition ExtractModifiedFunctions (files : list ModifiedFile)
    : result error (list ExtractedFunction) :=
  Ok (fold_left extractStep files []).

End WithCollaborators.

End Extractor.

(* ===================================================================== *)
(** ** Package [internal/cache] *)
(* ===================================================================== *)

Module Cache.
Import GoStrings Extractor.

Definition HashPrefix : string := "<!-- ainspector:fn:".
Definition HashSuffix : string := " -->".
Definition HashLength : nat := 12.

(** The string that [FunctionHash] hashes. *)
Definition hashData (fn : ExtractedFunction) : string :=
  FilePath fn +:+ ":" +:+ Name fn +:+ ":" +:+ Content fn +:+ ":" +:+ Diff fn.

Definition FunctionHash (fn : ExtractedFunction) : string :=
  let data := hashData fn in
  let hash := SHA256.Sum256 (Hex.bytes data) in
  String.substring 0 HashLength (Hex.EncodeToString hash).

Definition FormatHashMarker (hash : string) : string :=
  HashPrefix +:+ hash +:+ HashSuffix.

(** *** [hashRegex]

    The expression [<!-- ainspector:fn:([a-f0-9]{12}) -->] is a literal,
    twelve characters of one class, and a literal: a match at a position
    is decided by reading the text once from there, and the leftmost
    match is the match at the first position that has one. *)

(** The class [[a-f0-9]]. *)
Definition hashChar (c : ascii) : bool :=
  let n := code c in
  ((97 <=? n) && (n <=? 102)) || ((48 <=? n) && (n <=? 57)).

(** The literal [lit] at the front of [s]; what follows it. *)
Fixpoint matchLiteral (lit s : string) : option string :=
  match lit with
  | EmptyString => Some s
  | String a lit' =>
      match s with
      | EmptyString => None
      | String b s' => if Ascii.eqb a b then matchLiteral lit' s' else None
      end
  end.

(** [n] characters of the class at the front of [s]; they, and what
    follows them. *)
Fixpoint matchClass (n : nat) (s : string) : option (string * string) :=
  match n with
  | O => Some (EmptyString, s)
  | S n' =>
      match s with
      | EmptyString => None
      | String c s' =>
          if hashChar c then
            match matchClass n' s' with
            | Some (g, rest) => Some (String c g, rest)
            | None => None
            end
          else None
      end
  end.

(** A match of the whole expression at the front of [s]: the group. *)
Definition matchHere (s : string) : option string :=
  match matchLiteral HashPrefix s with
  | None => None
  | Some s1 =>
      match matchClass 12 s1 with
      | None => None
      | Some (g, s2) =>
          match matchLiteral HashSuffix s2 with
          | None => None
          | Some _ => Some g
          end
      end
  end.

(** [hashRegex.FindStringSubmatch(s)]: the leftmost match and its group,
    or [None] for Go's nil slice. *)
Fixpoint FindStringSubmatch (s : string) : option (list string) :=
  match matchHere s with
  | Some g => Some [FormatHashMarker g; g]
  | None =>
      match s with
      | EmptyString => None
      | String _ s' => FindStringSubmatch s'
      end
  end.

Definition ExtractHash (commentBody : string) : string :=
  match FindStringSubmatch commentBody with
  | None => ""
  | Some matches =>
      if (length matches <? 2)%nat then "" else nth 1 matches ""
  end.

(** *** The tracker *)

Record ReviewedComment : Type := mkReviewedComment {
  rcPath : string;
  rcLine : Z;
  rcHash : string;
  rcBody : string
}.

Record Tracker : Type := mkTracker {
  reviewed : gmap string bool
}.

Definition NewTracker : Tracker := mkTracker ∅.

Definition loadComment (t : Tracker) (c : ReviewedComment) : Tracker :=
  if negb (String.eqb (rcHash c) "") then
    mkTracker (<[rcHash c := true]> (reviewed t))
  else t.

Definition LoadFromComments (t : Tracker) (comments : list ReviewedComment)
    : Tracker :=
  fold_left loadComment comments t.

(** Reading a Go map at a missing key gives the zero value [false]. *)
Definition IsReviewed (t : Tracker) (fn : ExtractedFunction) : bool :=
  let hash := FunctionHash fn in
  match reviewed t !! hash with
  | Some b => b
  | None => false
  end.

Definition filterStep (t : Tracker) (result : list ExtractedFunction)
    (fn : ExtractedFunction) : list ExtractedFunction :=
  if negb (IsReviewed t fn) then result ++ [fn] else result.

Definition FilterUnreviewed (t : Tracker)
    (functions : list ExtractedFunction) : list ExtractedFunction :=
  fold_left (filterStep t) functions [].

Definition ReviewedCount (t : Tracker) : Z := Z.of_nat (size (reviewed t)).

End Cache.

(* ===================================================================== *)
(** ** Package [cmd]: how [runReview] builds the tracker *)
(* ===================================================================== *)

Module Cmd.
Import Cache.

Definition toReviewed (c : ExistingComment) : ReviewedComment :=
  mkReviewedComment (ecPath c) (ecLine c) (ExtractHash (ecBody c)) (ecBody c).

Definition reviewedComments (existingComments : list ExistingComment)
    : list ReviewedComment :=
  fold_left (fun acc c => acc ++ [toReviewed c]) existingComments [].

Definition buildTracker (existingComments : list ExistingComment) : Tracker :=
  LoadFromComments NewTracker (reviewedComments existingComments).

End Cmd.

(* ===================================================================== *)
(** ** What the design document says of the diff range model *)
(* ===================================================================== *)

(** The document speaks of the lines of a hunk body, of the position each
    has in the new and in the old file, and of the lines a range selects.
    These definitions follow its words; the theorems below compare them
    with the loops of [Diff]. *)
Module DiffSpec.
Import GoStrings.

Definition isAdded (line : string) : bool :=
  match line with
  | String c _ => Ascii.eqb c "+"
  | EmptyString => false
  end.

Definition isDeleted (line : string) : bool :=
  match line with
  | String c _ => Ascii.eqb c "-"
  | EmptyString => false
  end.

(** Any other line that is not empty: unchanged context. *)
Definition isContext (line : string) : bool :=
  match line with
  | String c _ => negb (Ascii.eqb c "+") && negb (Ascii.eqb c "-")
  | EmptyString => false
  end.

Definition countIf (p : string -> bool) (ls : list string) : Z :=
  Z.of_nat (length (List.filter p ls)).

(** The new-line counter of hunk [h] once the lines [pre] of its body
    are behind: added and context lines advance it. *)
Definition newCounter (h : Hunk) (pre : list string) : Z :=
  NewStartLine h + countIf (fun l => isAdded l || isContext l) pre.

(** The old-line counter: deleted and context lines advance it. *)
Definition oldCounter (h : Hunk) (pre : list string) : Z :=
  OrigStartLine h + countIf (fun l => isDeleted l || isContext l) pre.

(** Every line of a list with the lines before it. *)
Fixpoint withHistory (pre ls : list string) : list (list string * string) :=
  match ls with
  | [] => []
  | l :: rest => (pre, l) :: withHistory (pre ++ [l]) rest
  end.

Definition bodyLines (h : Hunk) : list (list string * string) :=
  withHistory [] (SplitLines (Body h)).

Definition allHunks (fds : list FileDiff) : list Hunk := flat_map Hunks fds.

(** The numbers a hunk records: for each added line the new-line
    counter, for each deleted line the old-line counter. *)
Definition addedOf (h : Hunk) : list Z :=
  map (fun pl => newCounter h (fst pl))
      (List.filter (fun pl => isAdded (snd pl)) (bodyLines h)).

Definition deletedOf (h : Hunk) : list Z :=
  map (fun pl => oldCounter h (fst pl))
      (List.filter (fun pl => isDeleted (snd pl)) (bodyLines h)).

(** The naive tally of the lines with a given prefix. *)
Definition tally (p : string -> bool) (fds : list FileDiff) : nat :=
  length (List.filter p (flat_map (fun h => SplitLines (Body h)) (allHunks fds))).

Definition within (lo hi n : Z) : bool := (lo <=? n) && (n <=? hi).

(** The span [[hunkStart, hunkStart + count - 1]] of a hunk in the new
    file meets [[startLine, endLine]]. *)
Definition overlaps (startLine endLine : Z) (h : Hunk) : bool :=
  (startLine <=? NewStartLine h + NewLines h - 1)
  && (NewStartLine h <=? endLine).

(** Whether a line of a hunk body is emitted for a range. *)
Definition emits (startLine endLine : Z) (h : Hunk)
    (pl : list string * string) : bool :=
  let n := newCounter h (fst pl) in
  (isAdded (snd pl) && within startLine endLine n)
  || (isDeleted (snd pl)
      && (within startLine endLine n || within startLine (endLine + 1) n)).

Definition emittedOf (startLine endLine : Z) (h : Hunk) : list string :=
  if overlaps startLine endLine h
  then map snd (List.filter (emits startLine endLine h) (bodyLines h))
  else [].

Definition scopedLines (startLine endLine : Z) (fds : list FileDiff)
    : list string :=
  flat_map (emittedOf startLine endLine) (allHunks fds).

(** What Go's types say of a hunk: four [int32], and a body short enough
    that a line count added to an [int32] is still an [int]. *)
Definition wellTyped (h : Hunk) : Prop :=
  GoInt.int32_range (OrigStartLine h) /\ GoInt.int32_range (OrigLines h)
  /\ GoInt.int32_range (NewStartLine h) /\ GoInt.int32_range (NewLines h)
  /\ Z.of_nat (String.length (Body h)) <= GoInt.max_int - 2 ^ 31.

(** The counters stay inside [int] while the body is being walked. *)
Definition roomFor (h : Hunk) (pre ls : list string) : Prop :=
  GoInt.min_int <= NewStartLine h
  /\ NewStartLine h + Z.of_nat (length pre) + Z.of_nat (length ls) <= GoInt.max_int
  /\ GoInt.min_int <= OrigStartLine h
  /\ OrigStartLine h + Z.of_nat (length pre) + Z.of_nat (length ls) <= GoInt.max_int.

(** The patch is parsed into the hunks of [fds]. *)
Definition parsesTo `{DiffLib} (patch : string) (fds : list FileDiff) : Prop :=
  patch <> "" /\ ParseMultiFileDiff (Diff.withHeaders patch) = Ok fds
  /\ Forall wellTyped (allHunks fds).

(** The patch cannot be parsed into hunks at all: the parser reports an
    error, or finds no hunk. *)
Definition unparseable `{DiffLib} (patch : string) : Prop :=
  (exists err, ParseMultiFileDiff (Diff.withHeaders patch) = Err err)
  \/ (exists fds, ParseMultiFileDiff (Diff.withHeaders patch) = Ok fds
                  /\ allHunks fds = []).

Definition scenarioA : string :=
  "@@ -1,3 +1,5 @@" +:+ newline +:+ " line1" +:+ newline
  +:+ "+added1" +:+ newline +:+ "+added2" +:+ newline
  +:+ " line2" +:+ newline +:+ " line3".

Definition scenarioB : string :=
  "@@ -1,4 +1,4 @@" +:+ newline +:+ " line1" +:+ newline
  +:+ "-old_line" +:+ newline +:+ "+new_line" +:+ newline
  +:+ " line3" +:+ newline +:+ " line4".

(** The hunks go-diff reads from the two scenarios. *)
Definition hunkA : Hunk :=
  mkHunk 1 3 1 5
    (" line1" +:+ newline +:+ "+added1" +:+ newline +:+ "+added2" +:+ newline
     +:+ " line2" +:+ newline +:+ " line3" +:+ newline).

Definition hunkB : Hunk :=
  mkHunk 1 4 1 4
    (" line1" +:+ newline +:+ "-old_line" +:+ newline +:+ "+new_line"
     +:+ newline +:+ " line3" +:+ newline +:+ " line4" +:+ newline).

(** The span of a hunk in the new file and the range have a line in
    common. *)
Definition sharesLine (startLine endLine : Z) (h : Hunk) : Prop :=
  exists n,
    NewStartLine h <= n <= NewStartLine h + NewLines h - 1
    /\ startLine <= n <= endLine.

(** A patch that only removes two lines, and the hunk go-diff reads from
    it: the hunk declares no line of the new file. *)
Definition removalOnly : string :=
  "@@ -10,2 +9,0 @@" +:+ newline +:+ "-a" +:+ newline +:+ "-b".

Definition hunkZ : Hunk :=
  mkHunk 10 2 9 0 ("-a" +:+ newline +:+ "-b" +:+ newline).

End DiffSpec.

(* ===================================================================== *)
(** ** What the design document says of fingerprints and markers *)
(* ===================================================================== *)

Module CacheSpec.
Import GoStrings Extractor Cache.

Fixpoint allChars (p : ascii -> bool) (s : string) : bool :=
  match s with
  | EmptyString => true
  | String c r => p c && allChars p r
  end.

(** Twelve characters, each a lowercase hexadecimal digit. *)
Definition validHash (h : string) : bool :=
  (String.length h =? 12)%nat && allChars hashChar h.

Definition isByte (b : Z) : Prop := 0 <= b < 256.

(** The value of a hexadecimal digit. *)
Definition unhex (c : ascii) : Z :=
  let n := code c in if n <=? 57 then n - 48 else n - 87.

(** The first forty-eight bits of the SHA-256 digest of what
    [FunctionHash] hashes. *)
Definition digest48 (fn : ExtractedFunction) : list Z :=
  firstn 6 (SHA256.Sum256 (Hex.bytes (hashData fn))).

(** The text from position [i] on. *)
Fixpoint skip (i : nat) (s : string) : string :=
  match i, s with
  | O, _ => s
  | S i', String _ r => skip i' r
  | S _, EmptyString => EmptyString
  end.

(** No character of the text is [<], with which a marker opens. *)
Definition noOpening (s : string) : bool :=
  allChars (fun c => negb (Ascii.eqb c "<")) s.

(** [out] holds nothing that [inp] does not hold, and lacks something
    that [inp] holds. *)
Definition strictSubset {A : Type} (out inp : list A) : Prop :=
  (forall x, In x out -> In x inp) /\ exists x, In x inp /\ ~ In x out.

(** Two functions that differ in their content alone. *)
Definition collideA : ExtractedFunction :=
  mkExtractedFunction "Func" 1 1 "func Func() { return 0x0c5fad8abcfd }"
    "" "main.go" "go" "modified".

Definition collideB : ExtractedFunction :=
  mkExtractedFunction "Func" 1 1 "func Func() { return 0x28080290daa6 }"
    "" "main.go" "go" "modified".

(** Two functions whose path and name share a colon differently. *)
Definition colonA : ExtractedFunction :=
  mkExtractedFunction "c" 1 1 "x" "" "a:b" "go" "modified".

Definition colonB : ExtractedFunction :=
  mkExtractedFunction "b:c" 1 1 "x" "" "a" "go" "modified".

(** The non-empty [Hash] fields of a list of comments. *)
Definition hashesOf (comments : list ReviewedComment) : list string :=
  List.filter (fun h => negb (String.eqb h "")) (map rcHash comments).

(** Whether [h] is one of the strings of [hs]. *)
Definition member (h : string) (hs : list string) : bool :=
  existsb (String.eqb h) hs.

(** A comment that carries the marker of some other function. *)
Definition otherComment : ReviewedComment :=
  mkReviewedComment "main.go" 10 "abc123def456" "Review 1".

(** A comment whose [Hash] field is no fingerprint at all. *)
Definition oddComment : ReviewedComment :=
  mkReviewedComment "main.go" 10 "not a fingerprint" "Review 1".

End CacheSpec.

(* ===================================================================== *)
(** ** What the design document says of the change correlator *)
(* ===================================================================== *)

Module ExtractorSpec.
Import GoStrings Extractor.

(** The change type the document gives to the functions of a file. *)
Definition changeTypeOf (file : ModifiedFile) : string :=
  if String.eqb (Status file) "added" then "added" else "modified".

(** What every function extracted from [file] has. *)
Definition ofFile (file : ModifiedFile) (fn : ExtractedFunction) : Prop :=
  FilePath fn = Path file /\ ChangeType fn = changeTypeOf file.

(** Scenario C: a new file, one function over all of it, and a patch that
    touches two of its lines. *)
Definition newFileContent : string :=
  "line1" +:+ newline +:+ "added1" +:+ newline +:+ "added2" +:+ newline
  +:+ "line2" +:+ newline +:+ "line3".

Definition newFile : ModifiedFile :=
  mkModifiedFile "new.go" "" "added" DiffSpec.scenarioA "".

Definition deletedFile : ModifiedFile :=
  mkModifiedFile "deleted.go" "" "deleted" DiffSpec.scenarioA "".

Definition oneProvider : Provider :=
  {| GetFileContent := fun _ => Ok newFileContent |}.

Definition oneParser : SourceParser :=
  {| IsSupported := fun _ => true;
     Parse := fun _ content => Ok ([mkFunction "whole" 1 5 content], "go") |}.

Definition wholeFunction : ExtractedFunction :=
  mkExtractedFunction "whole" 1 5 newFileContent
    ("+added1" +:+ newline +:+ "+added2") "new.go" "go" "added".

End ExtractorSpec.

(* ===================================================================== *)
(** ** The data of the repository's tests *)
(* ===================================================================== *)

Module TestData.
Import GoStrings Extractor.

(** A text given by its lines. *)
Definition text (lines : list string) : string := Join lines newline.

Definition testFunc (path content diff : string) : ExtractedFunction :=
  mkExtractedFunction "TestFunc" 0 0 content diff path "" "".

Definition func1 : ExtractedFunction :=
  mkExtractedFunction "Func1" 0 0 "func Func1() {}" "+func Func1() {}"
    "main.go" "" "".

Definition func2 : ExtractedFunction :=
  mkExtractedFunction "Func2" 0 0 "func Func2() {}" "+func Func2() {}"
    "main.go" "" "".

End TestData.

(* ===================================================================== *)
(** ** More words for the diff range model *)
(* ===================================================================== *)

Module DiffMore.
Import GoStrings DiffSpec.

(** A line that moves the new-line counter. *)
Definition advancing (line : string) : bool := isAdded line || isContext line.

(** The number of lines of the new file that the body of a hunk covers. *)
Definition newSpan (h : Hunk) : Z := countIf advancing (SplitLines (Body h)).

(** The count a hunk declares covers its body. *)
Definition consistent (h : Hunk) : Prop := newSpan h <= NewLines h.

(** Hunks in ascending order that do not share a line of the new file,
    none of them before line [lo]. *)
Fixpoint ascendingFrom (lo : Z) (hs : list Hunk) : Prop :=
  match hs with
  | [] => True
  | h :: rest =>
      lo <= NewStartLine h /\ ascendingFrom (NewStartLine h + newSpan h) rest
  end.

(** The added and deleted lines of all hunks, in their order. *)
Definition changedLines (fds : list FileDiff) : list string :=
  List.filter (fun l => isAdded l || isDeleted l)
    (flat_map (fun h => SplitLines (Body h)) (allHunks fds)).

(** A hunk lies inside a range: it starts in the range, declares at
    least one new line, and the last line of the new file that its body
    holds, [NewStartLine h + newSpan h - 1], is not after the end of the
    range. *)
Definition covered (startLine endLine : Z) (h : Hunk) : Prop :=
  startLine <= NewStartLine h <= endLine /\ 1 <= NewLines h
  /\ NewStartLine h + newSpan h - 1 <= endLine.

Fixpoint anyChar (p : ascii -> bool) (s : string) : bool :=
  match s with
  | EmptyString => false
  | String c r => p c || anyChar p r
  end.

(** An ASCII character that is no white space. *)
Definition solid (c : ascii) : bool := negb (asciiSpace c) && (code c <? 128).

Definition withBody (h : Hunk) (body : string) : Hunk :=
  mkHunk (OrigStartLine h) (OrigLines h) (NewStartLine h) (NewLines h) body.

(** A patch of two hunks, the second with a blank line in its body. *)
Definition hunkC : Hunk :=
  mkHunk 10 3 11 4
    (" line10" +:+ newline +:+ newline +:+ "+added_at_12" +:+ newline
     +:+ "-gone" +:+ newline +:+ " line11" +:+ newline).

Definition twoHunks : string :=
  DiffSpec.scenarioA +:+ newline +:+ "@@ -10,3 +11,4 @@" +:+ newline
  +:+ " line10" +:+ newline +:+ "+added_at_12" +:+ newline
  +:+ " line11" +:+ newline +:+ " line12".

Definition hunkD : Hunk :=
  mkHunk 10 3 11 4
    (" line10" +:+ newline +:+ "+added_at_12" +:+ newline
     +:+ " line11" +:+ newline +:+ " line12" +:+ newline).

End DiffMore.

(* ===================================================================== *)
(** ** More of Go's [strings] package *)
(* ===================================================================== *)

Module GoStringsMore.
Import GoStrings.

(** [strings.ReplaceAll(s, old, new)] for [old] and [new] of one byte
    each. *)
Fixpoint ReplaceAll (s : string) (old new : ascii) : string :=
  match s with
  | EmptyString => EmptyString
  | String c r =>
      String (if Ascii.eqb c old then new else c) (ReplaceAll r old new)
  end.

(** [s[i:]] for [0 <= i <= len(s)]. *)
Fixpoint sliceFrom (s : string) (i : nat) : string :=
  match i, s with
  | O, _ => s
  | S i', String _ r => sliceFrom r i'
  | S _, EmptyString => EmptyString
  end.

(** [strings.HasSuffix(s, suffix)] *)
Definition HasSuffix (s suffix : string) : bool :=
  (String.length suffix <=? String.length s)%nat
  && String.eqb (sliceFrom s (String.length s - String.length suffix)) suffix.

(** [strings.TrimSuffix(s, suffix)] *)
Definition TrimSuffix (s suffix : string) : string :=
  if HasSuffix s suffix
  then substring 0 (String.length s - String.length suffix) s
  else s.

(** [strings.LastIndex(s, substr)]: the text is read from position [i] on
    and [found] is the last position seen so far at which [substr]
    starts, [-1] when there is none. *)
Fixpoint lastIndexFrom (i : Z) (s substr : string) (found : Z) : Z :=
  let found' := if String.prefix substr s then i else found in
  match s with
  | EmptyString => found'
  | String _ r => lastIndexFrom (i + 1) r substr found'
  end.

Definition LastIndex (s substr : string) : Z := lastIndexFrom 0 s substr (-1).

(** [strings.Index(s, substr)]: the first position at which [substr]
    starts, [-1] when there is none. *)
Fixpoint indexFrom (i : Z) (s substr : string) : Z :=
  if String.prefix substr s then i
  else
    match s with
    | EmptyString => -1
    | String _ r => indexFrom (i + 1) r substr
    end.

Definition Index (s substr : string) : Z := indexFrom 0 s substr.

(** [s[i:j]] for [0 <= i <= j <= len(s)]. *)
Definition slice (s : string) (i j : Z) : string :=
  substring (Z.to_nat i) (Z.to_nat (j - i)) s.

End GoStringsMore.

(* ===================================================================== *)
(** ** Package [internal/config] *)
(* ===================================================================== *)

(** [doublestar.Match]: whether the name matches the pattern.  The error
    it also returns is dropped by every call of this package. *)
Class Doublestar : Type := {
  Match : string -> string -> bool
}.

Module ConfigFile.
Import GoStrings GoStringsMore.

Record IgnoreConfig : Type := mkIgnoreConfig {
  Paths : list string
}.

Record ContextConfig : Type := mkContextConfig {
  Include : list string;
  Exclude : list string
}.

Record Config : Type := mkConfig {
  Ignore : IgnoreConfig;
  Context : ContextConfig;
  Rules : list string
}.

(** The value [&Config{}] that [Load] returns when there is no file. *)
Definition emptyConfig : Config :=
  mkConfig (mkIgnoreConfig []) (mkContextConfig [] []) [].

Section WithDoublestar.
Context `{Doublestar}.

(** One turn of the loop over the patterns: [true] when the turn
    returns true, [false] when the loop goes on. *)
Definition ignoreStep (normalizedPath pattern : string) : bool :=
  let normalizedPattern := ReplaceAll pattern "\" "/" in
  if HasSuffix normalizedPattern "/" then
    let dirPattern := TrimSuffix normalizedPattern "/" in
    if HasPrefix normalizedPath (dirPattern +:+ "/")
       || String.eqb normalizedPath dirPattern
    then true
    else if Match (dirPattern +:+ "/**") normalizedPath then true
    else false
  else
    if Match normalizedPattern normalizedPath then true
    else
      let idx := LastIndex normalizedPath "/" in
      let basename :=
        if idx >=? 0 then sliceFrom normalizedPath (Z.to_nat (idx + 1))
        else normalizedPath in
      if Match normalizedPattern basename then true else false.

Fixpoint ignoreLoop (normalizedPath : string) (patterns : list string)
    : bool :=
  match patterns with
  | [] => false
  | pattern :: rest =>
      if ignoreStep normalizedPath pattern then true
      else ignoreLoop normalizedPath rest
  end.

Definition ShouldIgnore (c : Config) (path : string) : bool :=
  let normalizedPath := ReplaceAll path "\" "/" in
  ignoreLoop normalizedPath (Paths (Ignore c)).

End WithDoublestar.

End ConfigFile.

(** The configuration as the extractor sees it. *)
Definition fileConfig `{Doublestar} (c : ConfigFile.Config) : Config :=
  {| ShouldIgnore := ConfigFile.ShouldIgnore c |}.

(* ===================================================================== *)
(** ** Vocabulary for the statements about ignored paths *)
(* ===================================================================== *)

Module ConfigSpec.
Import GoStrings GoStringsMore.

(** The path with slashes for backslashes. *)
Definition slashed (s : string) : string := ReplaceAll s "\" "/".

Fixpoint hasChar (c : ascii) (s : string) : bool :=
  match s with
  | EmptyString => false
  | String a r => Ascii.eqb a c || hasChar c r
  end.

(** A matcher for the examples: a pattern matches the name equal to it. *)
Definition literal : Doublestar :=
  {| Match := fun pattern name => String.eqb pattern name |}.

Definition withPaths (paths : list string) : ConfigFile.Config :=
  ConfigFile.mkConfig (ConfigFile.mkIgnoreConfig paths)
    (ConfigFile.mkContextConfig [] []) [].

Definition vendorConfig : ConfigFile.Config :=
  withPaths ["vendor/"; "README.md"].

Definition vendoredFile : ModifiedFile :=
  mkModifiedFile "vendor/pkg/errors.go" "" "added" DiffSpec.scenarioA "".

End ConfigSpec.

(* ===================================================================== *)
(** ** Go's [strconv.Atoi], [strings.SplitN] and [os.Getenv] *)
(* ===================================================================== *)

Module GoConv.
Import GoStrings.

(** [os.Getenv(key)] in the environment [env]: the empty string for a
    variable that is not set. *)
Definition Getenv (env : gmap string string) (key : string) : string :=
  match env !! key with
  | Some v => v
  | None => ""
  end.

(** [strings.Cut(s, sep)] for a separator of one byte. *)
Fixpoint Cut (s : string) (sep : ascii) : option (string * string) :=
  match s with
  | EmptyString => None
  | String c r =>
      if Ascii.eqb c sep then Some (EmptyString, r)
      else
        match Cut r sep with
        | Some (before, after) => Some (String c before, after)
        | None => None
        end
  end.

(** [strings.SplitN(s, sep, n)] for a separator of one byte and
    [n >= 0]: at most [n] pieces, the last one the rest of the text. *)
Fixpoint SplitN (s : string) (sep : ascii) (n : nat) : list string :=
  match n with
  | O => []
  | S O => [s]
  | S n' =>
      match Cut s sep with
      | None => [s]
      | Some (before, after) => before :: SplitN after sep n'
      end
  end.

Definition isDigit (c : ascii) : bool := (48 <=? code c) && (code c <=? 57).

(** The number a text of decimal digits writes, after [acc]. *)
Fixpoint digitsValue (acc : Z) (s : string) : option Z :=
  match s with
  | EmptyString => Some acc
  | String c r =>
      if isDigit c then digitsValue (acc * 10 + (code c - 48)) r else None
  end.

Section WithQuote.

(** [strconv.Quote], which the text of a [NumError] uses. *)
Variable Quote : string -> string.

Definition NumError (s msg : string) : error :=
  "strconv.Atoi: parsing " +:+ Quote s +:+ ": " +:+ msg.

(** [strconv.Atoi(s)]: an optional sign and decimal digits, at least one,
    that write a value of an [int]. *)
Definition Atoi (s : string) : result error Z :=
  let '(neg, body) :=
    match s with
    | String c r =>
        if Ascii.eqb c "-" then (true, r)
        else if Ascii.eqb c "+" then (false, r)
        else (false, s)
    | EmptyString => (false, s)
    end in
  match body with
  | EmptyString => Err (NumError s "invalid syntax")
  | String _ _ =>
      match digitsValue 0 body with
      | None => Err (NumError s "invalid syntax")
      | Some n =>
          let v := if neg then - n else n in
          if (GoInt.min_int <=? v) && (v <=? GoInt.max_int) then Ok v
          else Err (NumError s "value out of range")
      end
  end.

End WithQuote.

End GoConv.

(* ===================================================================== *)
(** ** Package [internal/ci] *)
(* ===================================================================== *)

Module CI.
Import GoStrings GoConv.

Record Environment : Type := mkEnvironment {
  Provider : string;
  Owner : string;
  Repo : string;
  PRNumber : Z;
  Token : string;
  ServerHost : string
}.

(** The two numbers [getGitHubPRNumber] reads from the event file. *)
Record Event : Type := mkEvent {
  PullRequestNumber : Z;
  Number : Z
}.

(** *** The expression [refs/pull/(\d+)/]

    A literal, as many digits as there are and at least one, and a slash;
    fewer digits would be followed by a digit, so the match at a position
    is decided by reading on from there. *)

Fixpoint digitsOf (s : string) : string * string :=
  match s with
  | EmptyString => (EmptyString, EmptyString)
  | String c r =>
      if isDigit c then let '(ds, rest) := digitsOf r in (String c ds, rest)
      else (EmptyString, s)
  end.

Definition matchPull (s : string) : option string :=
  match Cache.matchLiteral "refs/pull/" s with
  | None => None
  | Some s1 =>
      let '(ds, rest) := digitsOf s1 in
      match ds, rest with
      | String _ _, String c _ => if Ascii.eqb c "/" then Some ds else None
      | _, _ => None
      end
  end.

(** [re.FindStringSubmatch(s)]: the leftmost match and its group. *)
Fixpoint FindPull (s : string) : option (list string) :=
  match matchPull s with
  | Some ds => Some ["refs/pull/" +:+ ds +:+ "/"; ds]
  | None =>
      match s with
      | EmptyString => None
      | String _ r => FindPull r
      end
  end.

Section WithSystem.

(** The environment variables; [os.ReadFile] followed by
    [json.Unmarshal], [None] when either fails; [strconv.Quote]. *)
Variable env : gmap string string.
Variable readEvent : string -> option Event.
Variable Quote : string -> string.

(** What follows the reading of [GITHUB_REF]. *)
Definition fromEventFile : result error Z :=
  let eventPath := Getenv env "GITHUB_EVENT_PATH" in
  let nothing :=
    Err "could not determine PR number: not running in a pull_request event" in
  if negb (String.eqb eventPath "") then
    match readEvent eventPath with
    | Some event =>
        if PullRequestNumber event >? 0 then Ok (PullRequestNumber event)
        else if Number event >? 0 then Ok (Number event)
        else nothing
    | None => nothing
    end
  else nothing.

Definition getGitHubPRNumber : result error Z :=
  let ref := Getenv env "GITHUB_REF" in
  if HasPrefix ref "refs/pull/" then
    match FindPull ref with
    | Some matches =>
        if (length matches =? 2)%nat then Atoi Quote (nth 1 matches "")
        else fromEventFile
    | None => fromEventFile
    end
  else fromEventFile.

Definition detectGitHub : result error Environment :=
  let repository := Getenv env "GITHUB_REPOSITORY" in
  if String.eqb repository "" then Err "GITHUB_REPOSITORY not set"
  else
    let parts := SplitN repository "/" 2 in
    if negb (length parts =? 2)%nat then
      Err ("invalid GITHUB_REPOSITORY format: " +:+ repository)
    else
      match getGitHubPRNumber with
      | Err err => Err err
      | Ok prNumber =>
          let token := Getenv env "GITHUB_TOKEN" in
          if String.eqb token "" then Err "GITHUB_TOKEN not set"
          else
            Ok (mkEnvironment "github" (nth 0 parts "") (nth 1 parts "")
                  prNumber token "github.com")
      end.

Definition detectGitLab : result error Environment :=
  let projectPath := Getenv env "CI_PROJECT_PATH" in
  if String.eqb projectPath "" then Err "CI_PROJECT_PATH not set"
  else
    let parts := SplitN projectPath "/" 2 in
    if negb (length parts =? 2)%nat then
      Err ("invalid CI_PROJECT_PATH format: " +:+ projectPath)
    else
      let mrIID := Getenv env "CI_MERGE_REQUEST_IID" in
      if String.eqb mrIID "" then
        Err "CI_MERGE_REQUEST_IID not set: not running in a merge_request pipeline"
      else
        match Atoi Quote mrIID with
        | Err _ => Err ("invalid CI_MERGE_REQUEST_IID: " +:+ mrIID)
        | Ok mrNumber =>
            let serverHost :=
              if String.eqb (Getenv env "CI_SERVER_HOST") "" then "gitlab.com"
              else Getenv env "CI_SERVER_HOST" in
            let token :=
              if String.eqb (Getenv env "GITLAB_TOKEN") ""
              then Getenv env "CI_JOB_TOKEN"
              else Getenv env "GITLAB_TOKEN" in
            if String.eqb token "" then
              Err "GITLAB_TOKEN or CI_JOB_TOKEN not set"
            else
              Ok (mkEnvironment "gitlab" (nth 0 parts "") (nth 1 parts "")
                    mrNumber token serverHost)
        end.

Definition Detect : result error Environment :=
  if String.eqb (Getenv env "GITHUB_ACTIONS") "true" then detectGitHub
  else if String.eqb (Getenv env "GITLAB_CI") "true" then detectGitLab
  else
    Err "not running in a supported CI environment (GitHub Actions or GitLab CI)".

End WithSystem.

End CI.

(* ===================================================================== *)
(** ** Vocabulary for the statements about the CI environment *)
(* ===================================================================== *)

Module CISpec.
Import GoStrings GoConv.

Definition allDigits (s : string) : bool := CacheSpec.allChars isDigit s.

(** The number that the decimal digits [s] write. *)
Definition valueOf (s : string) : Z :=
  fold_left (fun acc c => acc * 10 + (code c - 48)) (list_ascii_of_string s) 0.

(** No event file is readable. *)
Definition noEvent : string -> option CI.Event := fun _ => None.

(** A stand-in for [strconv.Quote] in the examples. *)
Definition plainQuote (s : string) : string := "'" +:+ s +:+ "'".

Definition githubEnv : gmap string string :=
  <["GITHUB_ACTIONS" := "true"]>
    (<["GITLAB_CI" := "true"]>
       (<["GITHUB_REPOSITORY" := "iq2i/ainspector"]>
          (<["GITHUB_REF" := "refs/pull/42/merge"]>
             (<["GITHUB_TOKEN" := "ghs_token"]> ∅)))).

Definition gitlabEnv : gmap string string :=
  <["GITLAB_CI" := "true"]>
    (<["CI_PROJECT_PATH" := "group/subgroup/project"]>
       (<["CI_MERGE_REQUEST_IID" := "7"]>
          (<["CI_JOB_TOKEN" := "job_token"]> ∅))).

Definition githubDetected : CI.Environment :=
  CI.mkEnvironment "github" "iq2i" "ainspector" 42 "ghs_token" "github.com".

Definition gitlabDetected : CI.Environment :=
  CI.mkEnvironment "gitlab" "group" "subgroup/project" 7 "job_token"
    "gitlab.com".

End CISpec.

(* ===================================================================== *)
(** ** Package [internal/parser]: the functions of a syntax tree *)
(* ===================================================================== *)

(** The loop of [Parse] over the matches of the query.  The matches are
    what tree-sitter gives for the source; a node is known by the rows
    where it starts and ends and by its text.  [fmt.Sprintf] with [%d]
    writes an [int] as stdpp's [pretty] does. *)
Module Parser.
Import GoStrings.

Record Node : Type := mkNode {
  StartRow : Z;
  EndRow : Z;
  Utf8Text : string
}.

Record QueryCapture : Type := mkQueryCapture {
  Index : nat;
  CaptureNode : Node
}.

Record QueryMatch : Type := mkQueryMatch {
  Captures : list QueryCapture
}.

Section WithQuery.

(** [query.CaptureNames()]; every [Index] is a position of it. *)
Variable CaptureNames : list string.

(** One turn of the loop over the captures of a match: [fnNode] and
    [nameStr]. *)
Definition captureStep (st : option Node * string) (capture : QueryCapture)
    : option Node * string :=
  let captureName := nth (Index capture) CaptureNames "" in
  if String.eqb captureName "function" then
    (Some (CaptureNode capture), snd st)
  else if String.eqb captureName "name" then
    (fst st, Utf8Text (CaptureNode capture))
  else st.

(** The key of a range in [seenFunctions]. *)
Definition rangeKey (startLine endLine : Z) : string :=
  pretty startLine +:+ ":" +:+ pretty endLine.

(** One turn of the loop over the matches: [functions] and
    [seenFunctions]. *)
Definition matchStep (st : list Function * gmap string bool)
    (m : QueryMatch) : list Function * gmap string bool :=
  let '(functions, seenFunctions) := st in
  let '(fnNode, nameStr) := fold_left captureStep (Captures m) (None, "") in
  match fnNode with
  | None => st
  | Some node =>
      let startLine := GoInt.add (GoInt.wrap (StartRow node)) 1 in
      let endLine := GoInt.add (GoInt.wrap (EndRow node)) 1 in
      let key := rangeKey startLine endLine in
      if negb (match seenFunctions !! key with
               | Some b => b
               | None => false
               end)
      then
        let nameStr :=
          if String.eqb nameStr "" then "<anonymous>" else nameStr in
        (functions
           ++ [mkFunction nameStr startLine endLine
                 (TrimSpace (Utf8Text node))],
         <[key := true]> seenFunctions)
      else st
  end.

(** The functions [Parse] returns for the matches. *)
Definition collect (matches : list QueryMatch) : list Function :=
  fst (fold_left matchStep matches ([], ∅)).

End WithQuery.

End Parser.

(* ===================================================================== *)
(** ** Vocabulary for the statements about the parser *)
(* ===================================================================== *)

Module ParserSpec.
Import GoStrings Parser.

(** The lines of a function. *)
Definition rangeOf (fn : Function) : Z * Z := (fnStartLine fn, fnEndLine fn).

(** The node and the name a match gives. *)
Definition captured (names : list string) (m : QueryMatch)
    : option Node * string :=
  fold_left (captureStep names) (Captures m) (None, "").

(** The lines of the function node of a match, when it has one. *)
Definition rangeOfMatch (names : list string) (m : QueryMatch)
    : option (Z * Z) :=
  match fst (captured names m) with
  | None => None
  | Some node =>
      Some (GoInt.add (GoInt.wrap (StartRow node)) 1,
            GoInt.add (GoInt.wrap (EndRow node)) 1)
  end.

(** Reading [seenFunctions] at a key. *)
Definition seenAt (seen : gmap string bool) (key : string) : bool :=
  match seen !! key with
  | Some b => b
  | None => false
  end.

(** The keys of the functions collected so far. *)
Definition keysOf (functions : list Function) : list string :=
  map (fun fn => rangeKey (fnStartLine fn) (fnEndLine fn)) functions.

(** The state of the loop is in order: the keys seen are those of the
    functions, no two functions have the same lines, and every function
    has a name. *)
Definition tidy (st : list Function * gmap string bool) : Prop :=
  (forall k, seenAt (snd st) k = true <-> In k (keysOf (fst st)))
  /\ NoDup (map rangeOf (fst st))
  /\ Forall (fun fn => fnName fn <> "") (fst st).

(** The function a match gives when its lines are new. *)
Definition functionOf (names : list string) (m : QueryMatch) : Function :=
  mkFunction
    (if String.eqb (snd (captured names m)) "" then "<anonymous>"
     else snd (captured names m))
    (match rangeOfMatch names m with Some r => fst r | None => 0 end)
    (match rangeOfMatch names m with Some r => snd r | None => 0 end)
    (match fst (captured names m) with
     | Some node => TrimSpace (Utf8Text node)
     | None => ""
     end).

(** The capture names of the queries, and two matches for one method: a
    query can find a node under two patterns. *)
Definition goNames : list string := ["name"; "function"].

Definition methodNode : Node :=
  mkNode 2 4 ("func (s *S) Run() {" +:+ newline +:+ "}" +:+ newline).

Definition firstMatch : QueryMatch :=
  mkQueryMatch [mkQueryCapture 1 methodNode;
                mkQueryCapture 0 (mkNode 2 2 "Run")].

Definition secondMatch : QueryMatch :=
  mkQueryMatch [mkQueryCapture 1 methodNode].

(** Two functions written on one line of the source. *)
Definition leftMatch : QueryMatch :=
  mkQueryMatch [mkQueryCapture 1 (mkNode 0 0 "function a() {}");
                mkQueryCapture 0 (mkNode 0 0 "a")].

Definition rightMatch : QueryMatch :=
  mkQueryMatch [mkQueryCapture 1 (mkNode 0 0 "function b() {}");
                mkQueryCapture 0 (mkNode 0 0 "b")].

End ParserSpec.

(* ===================================================================== *)
(** ** Package [internal/llm]: the result of a review *)
(* ===================================================================== *)

Module LLM.
Import GoStrings GoStringsMore Extractor.

Record Suggestion : Type := mkSuggestion {
  sgLine : Z;
  Description : string;
  Code : string
}.

(** [Error] is [None] for Go's nil error. *)
Record ReviewResult : Type := mkReviewResult {
  rrFunction : ExtractedFunction;
  Suggestions : list Suggestion;
  RawReview : string;
  Error : option error
}.

Definition HasIssues (r : ReviewResult) : bool :=
  match Error r with
  | Some _ => false
  | None => Z.of_nat (length (Suggestions r)) >? 0
  end.

(** [ChatMessage], and the method [Complete] of [Client], which asks the
    model. *)
Record ChatMessage : Type := mkChatMessage {
  Role : string;
  cmContent : string
}.

Class Client : Type := {
  Complete : list ChatMessage -> result error string
}.

(** [json.Unmarshal] of a text into an empty [ReviewResponse]: the
    [Issues] it reads, [None] for an error.  A first call that fails
    leaves the response empty for the second: a text that is no JSON is
    refused before anything is stored, and a JSON text that is not an
    object stores nothing. *)
Class Json : Type := {
  Unmarshal : string -> option (list Suggestion)
}.

Definition LGTMMarker : string := "LGTM".

Definition parseReviewResponse `{Json} (response : string)
    : list Suggestion :=
  let trimmed := TrimSpace response in
  if String.eqb trimmed LGTMMarker then []
  else
    match Unmarshal trimmed with
    | Some issues => issues
    | None =>
        let startIdx := Index trimmed "{" in
        let endIdx := LastIndex trimmed "}" in
        if (startIdx >=? 0) && (endIdx >? startIdx) then
          let jsonStr := slice trimmed startIdx (endIdx + 1) in
          match Unmarshal jsonStr with
          | Some issues => issues
          | None => []
          end
        else []
    end.

Definition buildUserPrompt (fn : ExtractedFunction) : string :=
  let diffSection :=
    if negb (String.eqb (Diff fn) "") then
      newline +:+ newline +:+ "## Changes (REVIEW THESE):" +:+ newline
      +:+ "```diff" +:+ newline +:+ Diff fn +:+ newline +:+ "```"
    else "" in
  "Review the changes in this " +:+ Language fn +:+ " function:"
  +:+ newline +:+ newline
  +:+ "File: " +:+ FilePath fn +:+ newline
  +:+ "Function: " +:+ Name fn +:+ " (lines " +:+ pretty (StartLine fn)
  +:+ "-" +:+ pretty (EndLine fn) +:+ ")" +:+ newline
  +:+ "Change type: " +:+ ChangeType fn +:+ diffSection
  +:+ newline +:+ newline
  +:+ "## Full function (for context only, DO NOT review unchanged code):"
  +:+ newline
  +:+ "```" +:+ Language fn +:+ newline +:+ Content fn +:+ newline +:+ "```".

Section WithModel.
Context `{Client} `{Json}.

(** The constant [systemPrompt]. *)
Variable systemPrompt : string.

Definition messagesFor (fn : ExtractedFunction) : list ChatMessage :=
  [mkChatMessage "system" systemPrompt;
   mkChatMessage "user" (buildUserPrompt fn)].

(** One turn of the loop of [ReviewFunctions]. *)
Definition reviewStep (results : list ReviewResult) (fn : ExtractedFunction)
    : list ReviewResult :=
  match Complete (messagesFor fn) with
  | Err err => results ++ [mkReviewResult fn [] "" (Some err)]
  | Ok review =>
      results ++ [mkReviewResult fn (parseReviewResponse review) review None]
  end.

Definition ReviewFunctions (functions : list ExtractedFunction)
    : list ReviewResult :=
  fold_left reviewStep functions [].

End WithModel.

End LLM.

(* ===================================================================== *)
(** ** Package [internal/provider]: the comments of a review *)
(* ===================================================================== *)

(** [provider.ReviewComment] *)
Record ReviewComment : Type := mkReviewComment {
  rvPath : string;
  rvLine : Z;
  rvBody : string;
  rvSuggestion : string
}.

(** What [CreateReview] of [GitHubProvider] sends: one draft comment for
    each review comment, in one request; nothing when there is no
    comment. *)
Module GitHub.
Import GoStrings.

Record DraftReviewComment : Type := mkDraftReviewComment {
  dPath : string;
  dLine : Z;
  dBody : string
}.

Definition reviewBody (c : ReviewComment) : string :=
  if negb (String.eqb (rvSuggestion c) "") then
    rvBody c +:+ newline +:+ newline +:+ "```suggestion" +:+ newline
    +:+ rvSuggestion c +:+ newline +:+ "```"
  else rvBody c.

Definition draftStep (ghComments : list DraftReviewComment)
    (c : ReviewComment) : list DraftReviewComment :=
  ghComments ++ [mkDraftReviewComment (rvPath c) (rvLine c) (reviewBody c)].

(** [None]: no request is sent. *)
Definition CreateReview (comments : list ReviewComment)
    : option (list DraftReviewComment) :=
  if (length comments =? 0)%nat then None
  else Some (fold_left draftStep comments []).

End GitHub.

(** What [CreateReview] of [GitLabProvider] sends: one discussion for each
    review comment.  The client is taken to be initialised and the merge
    request to be found. *)
Module GitLab.
Import GoStrings.

Record Discussion : Type := mkDiscussion {
  dsBody : string;
  dsNewPath : string;
  dsNewLine : Z
}.

Definition reviewBody (c : ReviewComment) : string :=
  if negb (String.eqb (rvSuggestion c) "") then
    rvBody c +:+ newline +:+ newline +:+ "```suggestion:-0+0" +:+ newline
    +:+ rvSuggestion c +:+ newline +:+ "```"
  else rvBody c.

Definition discussionStep (sent : list Discussion) (c : ReviewComment)
    : list Discussion :=
  sent ++ [mkDiscussion (reviewBody c) (rvPath c) (rvLine c)].

Definition CreateReview (comments : list ReviewComment) : list Discussion :=
  if (length comments =? 0)%nat then []
  else fold_left discussionStep comments [].

(** What [NewGitLabProvider] computes: the address its client is made
    for, and the project.  The client itself is the library's. *)
Record GitLabProvider : Type := mkGitLabProvider {
  baseURL : string;
  projectID : string
}.

Definition NewGitLabProvider (host owner repo token : string)
    : GitLabProvider :=
  let baseURL := "https://" +:+ host +:+ "/api/v4" in
  let projectID := owner +:+ "/" +:+ repo in
  mkGitLabProvider baseURL projectID.

(** [gitlab.MergeRequestDiff], and the loop of [GetModifiedFiles] that
    turns the diffs of a merge request into files. *)
Record MergeRequestDiff : Type := mkMergeRequestDiff {
  mdOldPath : string;
  mdNewPath : string;
  mdDiff : string;
  NewFile : bool;
  RenamedFile : bool;
  DeletedFile : bool
}.

(** The file [mf] a turn of the loop makes of a diff. *)
Definition toModifiedFile (diff : MergeRequestDiff) : ModifiedFile :=
  let status :=
    if NewFile diff then "added"
    else if DeletedFile diff then "deleted"
    else if RenamedFile diff then "renamed"
    else "modified" in
  mkModifiedFile (mdNewPath diff) (mdOldPath diff) status (mdDiff diff) "".

Definition fileStep (result : list ModifiedFile) (diff : MergeRequestDiff)
    : list ModifiedFile :=
  result ++ [toModifiedFile diff].

Definition modifiedFiles (allDiffs : list MergeRequestDiff)
    : list ModifiedFile :=
  fold_left fileStep allDiffs [].

End GitLab.

(* ===================================================================== *)
(** ** Package [cmd]: what [runReview] reviews and what it posts *)
(* ===================================================================== *)

Module Run.
Import GoStrings Extractor Cache LLM.

(** [functionsToReview]: [fetched] is what [GetReviewComments] answers,
    which is asked only without the force flag. *)
Definition functionsToReview (forceReview : bool)
    (fetched : result error (list ExistingComment))
    (functions : list ExtractedFunction) : list ExtractedFunction :=
  if negb forceReview then
    match fetched with
    | Err _ => functions
    | Ok existingComments =>
        FilterUnreviewed (Cmd.buildTracker existingComments) functions
    end
  else functions.

(** The provider [runReview] makes for an environment: for GitHub the
    owner, the repository and the token the client is made of. *)
Inductive HostProvider : Type :=
| OnGitHub (owner repo token : string)
| OnGitLab (p : GitLab.GitLabProvider).

Definition providerFor (env : CI.Environment) : HostProvider :=
  if String.eqb (CI.Provider env) "github" then
    OnGitHub (CI.Owner env) (CI.Repo env) (CI.Token env)
  else
    OnGitLab (GitLab.NewGitLabProvider (CI.ServerHost env) (CI.Owner env)
                (CI.Repo env) (CI.Token env)).

(** One turn of the loop over the suggestions of a result. *)
Definition suggestionStep (result : ReviewResult) (hashMarker : string)
    (comments : list ReviewComment) (suggestion : Suggestion)
    : list ReviewComment :=
  let body := Description suggestion +:+ newline +:+ newline +:+ hashMarker in
  comments ++ [mkReviewComment (FilePath (rrFunction result))
                 (sgLine suggestion) body (Code suggestion)].

(** One turn of the loop over the results. *)
Definition resultStep (comments : list ReviewComment) (result : ReviewResult)
    : list ReviewComment :=
  if negb (HasIssues result) then comments
  else
    let fnHash := FunctionHash (rrFunction result) in
    let hashMarker := FormatHashMarker fnHash in
    fold_left (suggestionStep result hashMarker) (Suggestions result) comments.

(** The comments [runReview] hands to [CreateReview]. *)
Definition reviewComments (results : list ReviewResult) : list ReviewComment :=
  fold_left resultStep results [].

End Run.

(* ===================================================================== *)
(** ** Vocabulary for the statements about a run *)
(* ===================================================================== *)

Module RunSpec.
Import GoStrings Extractor Cache CacheSpec LLM.

(** The text holds no marker. *)
Definition unmarked (s : string) : Prop := ExtractHash s = "".

(** No character of [s] is a newline. *)
Definition onLine (s : string) : bool :=
  allChars (fun c => negb (Ascii.eqb c nl)) s.

(** The comments [runReview] makes of one result. *)
Definition commentsOf (r : ReviewResult) : list ReviewComment :=
  if HasIssues r then
    map (fun s => mkReviewComment (FilePath (rrFunction r)) (sgLine s)
                    (Description s +:+ newline +:+ newline
                     +:+ FormatHashMarker (FunctionHash (rrFunction r)))
                    (Code s))
      (Suggestions r)
  else [].

(** [body] is what either provider sends for the comment [c]. *)
Definition sentAs (c : ReviewComment) (body : string) : Prop :=
  body = GitHub.reviewBody c \/ body = GitLab.reviewBody c.

(** The host gives back the body of every comment of [comments]. *)
Definition givesBack (existing : list ExistingComment)
    (comments : list ReviewComment) : Prop :=
  forall c, In c comments -> exists e, In e existing /\ sentAs c (ecBody e).

(** Every comment the host gives has no marker or is one of [comments]. *)
Definition givesOnly (existing : list ExistingComment)
    (comments : list ReviewComment) : Prop :=
  forall e, In e existing ->
    unmarked (ecBody e) \/ exists c, In c comments /\ sentAs c (ecBody e).

(** No description of the results holds a marker. *)
Definition plain (results : list ReviewResult) : Prop :=
  forall r s, In r results -> In s (Suggestions r) -> unmarked (Description s).

(** The existing comments after the comments of [results] were sent to
    GitHub, when the host keeps path, line and body. *)
Definition afterRun (before : list ExistingComment)
    (results : list ReviewResult) : list ExistingComment :=
  before
  ++ match GitHub.CreateReview (Run.reviewComments results) with
     | None => []
     | Some drafts =>
         map (fun d => mkExistingComment (GitHub.dPath d) (GitHub.dLine d)
                         (GitHub.dBody d)) drafts
     end.

(** What [ReviewFunctions] makes of one function. *)
Definition resultOf `{Client} `{Json} (systemPrompt : string)
    (fn : ExtractedFunction) : ReviewResult :=
  match Complete (messagesFor systemPrompt fn) with
  | Err err => mkReviewResult fn [] "" (Some err)
  | Ok review => mkReviewResult fn (parseReviewResponse review) review None
  end.

(** Stand-ins for the examples: a reader of one JSON text, and a model
    that wraps this text in a sentence. *)
Definition oneIssue : list Suggestion :=
  [mkSuggestion 4 "Add subtracts." "return a + b"].

Definition oneJson : Json :=
  {| Unmarshal := fun s =>
       if String.eqb s "{issues}" then Some oneIssue else None |}.

Definition chatty : Client :=
  {| Complete := fun _ => Ok "Here you are: {issues} Bye." |}.

Definition sample : ExtractedFunction :=
  mkExtractedFunction "Add" 3 5 "func Add(a, b int) int { return a - b }"
    "+ return a - b" "calc.go" "go" "modified".

Definition fine : ExtractedFunction :=
  mkExtractedFunction "Sub" 7 9 "func Sub(a, b int) int { return a - b }"
    "+ return a - b" "calc.go" "go" "modified".

Definition sampleResults : list ReviewResult :=
  [mkReviewResult sample
     [mkSuggestion 4 "Add subtracts." "return a + b"] "" None;
   mkReviewResult fine [] "LGTM" None].

End RunSpec.

(* ===================================================================== *)
(** ** Vocabulary for the statements about the extractor *)
(* ===================================================================== *)

Module ExtractorMore.
Import GoStrings Extractor ExtractorSpec DiffSpec.

(** The parsed function has an added line of [m] in its range. *)
Definition touched (m : Diff.ModifiedLines) (fn : Function) : bool :=
  Diff.HasModifiedLineInRange m (fnStartLine fn) (fnEndLine fn).

(** The record the extractor makes of a parsed function of [file]. *)
Definition extracted `{DiffLib} (file : ModifiedFile) (language : string)
    (fn : Function) : ExtractedFunction :=
  mkExtractedFunction (fnName fn) (fnStartLine fn) (fnEndLine fn)
    (fnContent fn)
    (Diff.ExtractDiffForRange (Patch file) (fnStartLine fn) (fnEndLine fn))
    (Path file) language (changeTypeOf file).

(** Some [+] line of the hunks has its new-file number in the range of
    the parsed function. *)
Definition hasAddedLine (fds : list FileDiff) (fn : Function) : bool :=
  existsb (fun n => within (fnStartLine fn) (fnEndLine fn) n)
    (flat_map addedOf (allHunks fds)).

(** A file that came without a patch, and one whose patch removes a line
    and adds none. *)
Definition noPatchFile : ModifiedFile :=
  mkModifiedFile "big.go" "" "added" "" "".

Definition removal : string :=
  "@@ -1,3 +1,2 @@" +:+ newline +:+ " line1" +:+ newline
  +:+ "-gone" +:+ newline +:+ " line2".

Definition hunkR : Hunk :=
  mkHunk 1 3 1 2
    (" line1" +:+ newline +:+ "-gone" +:+ newline +:+ " line2" +:+ newline).

Definition removalFile : ModifiedFile :=
  mkModifiedFile "trim.go" "" "modified" removal "".

(** The diff of a new file, as GitLab gives it. *)
Definition newDiff : GitLab.MergeRequestDiff :=
  GitLab.mkMergeRequestDiff "new.go" "new.go" scenarioA true false false.

End ExtractorMore.

(* ===================================================================== *)
(** * Facts *)
(* ===================================================================== *)

Module GoIntFacts.
Import GoInt.

Lemma wrap_exact z : in_range z -> wrap z = z.
Proof.
  unfold in_range, min_int, max_int, wrap. intros Hz.
  rewrite Z.mod_small; lia.
Qed.

Lemma wrap_in_range z : in_range (wrap z).
Proof.
  unfold in_range, min_int, max_int, wrap.
  pose proof (Z.mod_pos_bound (z + 2 ^ 63) (2 ^ 64)). lia.
Qed.

Lemma succ_exact n : min_int <= n < max_int -> succ n = n + 1.
Proof.
  intros Hn. unfold succ, add. apply wrap_exact. unfold in_range. lia.
Qed.

Lemma add_exact a b : in_range (a + b) -> add a b = a + b.
Proof. apply wrap_exact. Qed.

Lemma sub_exact a b : in_range (a - b) -> sub a b = a - b.
Proof. apply wrap_exact. Qed.

Lemma int32_in_range z : int32_range z -> in_range z.
Proof. unfold int32_range, in_range, min_int, max_int. lia. Qed.

(** At the largest [int], [endLine + 1] wraps. *)
Lemma add_max_int : add max_int 1 = min_int.
Proof. reflexivity. Qed.

End GoIntFacts.

Module GoStringsFacts.
Import GoStrings.

Lemma append_cons c r t : String c r +:+ t = String c (r +:+ t).
Proof. reflexivity. Qed.

Lemma append_nil_l t : "" +:+ t = t.
Proof. reflexivity. Qed.

Lemma append_nil_r s : s +:+ "" = s.
Proof.
  induction s as [|c r IH]; [reflexivity |].
  rewrite append_cons. now f_equal.
Qed.

Lemma append_assoc s t u : (s +:+ t) +:+ u = s +:+ (t +:+ u).
Proof.
  induction s as [|c r IH]; [reflexivity |].
  rewrite !append_cons. now f_equal.
Qed.

Lemma length_append s t :
  String.length (s +:+ t) = (String.length s + String.length t)%nat.
Proof.
  induction s as [|c r IH]; [reflexivity |].
  rewrite append_cons. simpl. now f_equal.
Qed.

Lemma SplitLines_nonempty s : SplitLines s <> [].
Proof.
  destruct s as [|c r]; simpl; [discriminate |].
  destruct (SplitLines r); [discriminate |].
  destruct (Ascii.eqb c nl); discriminate.
Qed.

(** There is one more piece than there are newlines, so at most one
    more than there are bytes. *)
Lemma length_SplitLines s :
  (length (SplitLines s) <= String.length s + 1)%nat.
Proof.
  induction s as [|c r IH]; simpl; [lia |].
  destruct (SplitLines r) as [|h t]; simpl in *; [lia |].
  destruct (Ascii.eqb c nl); simpl; lia.
Qed.

Lemma rev_onto_append s t acc :
  rev_onto (s +:+ t) acc = rev_onto t (rev_onto s acc).
Proof.
  revert acc. induction s as [|c r IH]; intros acc; [reflexivity |].
  rewrite append_cons. simpl. apply IH.
Qed.

Lemma reverse_append_newline s :
  reverse (s +:+ newline) = String nl (reverse s).
Proof. unfold reverse. now rewrite rev_onto_append. Qed.

(** A newline byte is no part of a white-space rune of several bytes. *)
Lemma space2_nl_r a : space2 a nl = false.
Proof. unfold space2. simpl. apply andb_false_r. Qed.

Lemma space3_nl_r a b : space3 a b nl = false.
Proof.
  unfold space3. simpl. rewrite !andb_false_r. reflexivity.
Qed.

Lemma asciiSpace_nl : asciiSpace nl = true.
Proof. reflexivity. Qed.

(** Trimming the front of a text that ends in a newline: the newline
    goes when nothing else is left, and stays otherwise. *)
Lemma TrimLeftSpace_append_newline s :
  TrimLeftSpace (s +:+ newline) =
    match TrimLeftSpace s with
    | EmptyString => EmptyString
    | String c r => String c r +:+ newline
    end.
Proof.
  unfold TrimLeftSpace.
  remember (String.length s) as n eqn:Hn.
  revert s Hn. induction n as [n IH] using lt_wf_ind. intros s Hn.
  destruct s as [|c r]; [reflexivity |].
  simpl in Hn. rewrite append_cons. cbn [trimFront].
  destruct (asciiSpace c) eqn:Hc.
  { apply (IH (String.length r)); [lia | reflexivity]. }
  destruct r as [|d r2].
  { rewrite append_nil_l. unfold newline at 1.
    rewrite space2_nl_r. reflexivity. }
  rewrite append_cons.
  destruct (space2 c d) eqn:H2.
  { simpl in Hn. apply (IH (String.length r2)); [lia | reflexivity]. }
  destruct r2 as [|e r3].
  { rewrite append_nil_l. unfold newline at 1.
    rewrite space3_nl_r. reflexivity. }
  rewrite append_cons.
  destruct (space3 c d e) eqn:H3.
  { simpl in Hn. apply (IH (String.length r3)); [lia | reflexivity]. }
  reflexivity.
Qed.

Lemma TrimRightSpace_append_newline s :
  TrimRightSpace (s +:+ newline) = TrimRightSpace s.
Proof.
  unfold TrimRightSpace. rewrite reverse_append_newline.
  cbn [trimFront]. rewrite asciiSpace_nl. reflexivity.
Qed.

(** [TrimSpace] does not see a newline at the end. *)
Lemma TrimSpace_append_newline s :
  TrimSpace (s +:+ newline) = TrimSpace s.
Proof.
  unfold TrimSpace. rewrite TrimLeftSpace_append_newline.
  destruct (TrimLeftSpace s) as [|c r]; [reflexivity |].
  apply TrimRightSpace_append_newline.
Qed.

(** Writing every line followed by a newline is joining the lines by
    newlines, and one newline more when there is a line. *)
Lemma written_Join lines :
  lines <> [] -> written lines = Join lines newline +:+ newline.
Proof.
  induction lines as [|l rest IH]; [congruence |]. intros _.
  destruct rest as [|l' rest'].
  { cbn [written Join]. apply append_nil_r. }
  cbn [written Join]. cbn [written Join] in IH.
  rewrite IH by discriminate. now rewrite !append_assoc.
Qed.

Lemma TrimSpace_written lines :
  TrimSpace (written lines) = TrimSpace (Join lines newline).
Proof.
  destruct lines as [|l rest]; [reflexivity |].
  rewrite written_Join by discriminate.
  apply TrimSpace_append_newline.
Qed.

Lemma written_app xs ys : written (xs ++ ys) = written xs +:+ written ys.
Proof.
  induction xs as [|x xs IH]; [reflexivity |].
  cbn [written app]. now rewrite IH, !append_assoc.
Qed.

End GoStringsFacts.

(* ===================================================================== *)
(** ** The diff range model *)
(* ===================================================================== *)

Module DiffFacts.
Import GoStrings GoStringsFacts Diff DiffSpec.

Lemma countIf_nil p : countIf p [] = 0.
Proof. reflexivity. Qed.

Lemma countIf_snoc p pre l :
  countIf p (pre ++ [l]) = countIf p pre + (if p l then 1 else 0).
Proof.
  unfold countIf. rewrite List.filter_app, length_app. simpl.
  destruct (p l); simpl; lia.
Qed.

Lemma countIf_bounds p pre : 0 <= countIf p pre <= Z.of_nat (length pre).
Proof.
  unfold countIf. pose proof (List.filter_length_le p pre). lia.
Qed.

Lemma withHistory_snd pre ls : map snd (withHistory pre ls) = ls.
Proof.
  revert pre. induction ls as [|l rest IH]; intros pre; simpl;
    [reflexivity | now rewrite IH].
Qed.

Lemma filter_withHistory_length (p : string -> bool) pre ls :
  length (List.filter (fun pl => p (snd pl)) (withHistory pre ls))
  = length (List.filter p ls).
Proof.
  revert pre. induction ls as [|l rest IH]; intros pre; simpl;
    [reflexivity |].
  destruct (p l); simpl; now rewrite IH.
Qed.

(** How the three kinds of line move the counters. *)
Lemma newCounter_snoc h pre l :
  newCounter h (pre ++ [l])
  = newCounter h pre + (if isAdded l || isContext l then 1 else 0).
Proof. unfold newCounter. rewrite countIf_snoc. lia. Qed.

Lemma oldCounter_snoc h pre l :
  oldCounter h (pre ++ [l])
  = oldCounter h pre + (if isDeleted l || isContext l then 1 else 0).
Proof. unfold oldCounter. rewrite countIf_snoc. lia. Qed.

Lemma roomFor_step h pre l rest :
  roomFor h pre (l :: rest) -> roomFor h (pre ++ [l]) rest.
Proof.
  unfold roomFor. rewrite length_app. simpl. lia.
Qed.

Lemma roomFor_succ_new h pre l rest :
  roomFor h pre (l :: rest) ->
  GoInt.succ (newCounter h pre) = newCounter h pre + 1.
Proof.
  unfold roomFor, newCounter. simpl length. intros Hroom.
  pose proof (countIf_bounds (fun l => isAdded l || isContext l) pre).
  apply GoIntFacts.succ_exact. lia.
Qed.

Lemma roomFor_succ_old h pre l rest :
  roomFor h pre (l :: rest) ->
  GoInt.succ (oldCounter h pre) = oldCounter h pre + 1.
Proof.
  unfold roomFor, oldCounter. simpl length. intros Hroom.
  pose proof (countIf_bounds (fun l => isDeleted l || isContext l) pre).
  apply GoIntFacts.succ_exact. lia.
Qed.

Lemma wellTyped_roomFor h :
  wellTyped h -> roomFor h [] (SplitLines (Body h)).
Proof.
  unfold wellTyped, roomFor, GoInt.int32_range, GoInt.min_int, GoInt.max_int.
  intros (Ho & _ & Hn & _ & Hlen).
  pose proof (length_SplitLines (Body h)). simpl length. lia.
Qed.

(** The loop of [ParsePatch] over the lines of one hunk body. *)
Lemma parseLines_spec h ls : forall pre res,
  roomFor h pre ls ->
  fold_left parseLine ls (res, newCounter h pre, oldCounter h pre)
  = (mkModifiedLines
       (Added res ++ map (fun pl => newCounter h (fst pl))
          (List.filter (fun pl => isAdded (snd pl)) (withHistory pre ls)))
       (Deleted res ++ map (fun pl => oldCounter h (fst pl))
          (List.filter (fun pl => isDeleted (snd pl)) (withHistory pre ls))),
     newCounter h (pre ++ ls), oldCounter h (pre ++ ls)).
Proof.
  induction ls as [|l rest IH]; intros pre res Hroom.
  { simpl. rewrite !app_nil_r. now destruct res. }
  pose proof (roomFor_succ_new _ _ _ _ Hroom) as Hn.
  pose proof (roomFor_succ_old _ _ _ _ Hroom) as Ho.
  apply roomFor_step in Hroom.
  replace (pre ++ l :: rest) with ((pre ++ [l]) ++ rest)
    by now rewrite <- app_assoc.
  cbn [fold_left withHistory].
  destruct l as [|c tl].
  { (* an empty line is skipped *)
    cbn [parseLine List.filter snd isAdded isDeleted].
    specialize (IH (pre ++ [""]) res Hroom).
    rewrite newCounter_snoc, oldCounter_snoc in IH. simpl in IH.
    rewrite !Z.add_0_r in IH. exact IH. }
  cbn [parseLine List.filter snd isAdded isDeleted].
  destruct (Ascii.eqb c "+") eqn:Hplus.
  { apply Ascii.eqb_eq in Hplus. subst c.
    rewrite Hn. cbn [Ascii.eqb Bool.eqb].
    specialize (IH (pre ++ [String "+" tl])
                  (mkModifiedLines (Added res ++ [newCounter h pre]) (Deleted res))
                  Hroom).
    rewrite newCounter_snoc, oldCounter_snoc in IH. simpl in IH.
    rewrite Z.add_0_r in IH. rewrite IH. simpl.
    now rewrite <- app_assoc. }
  destruct (Ascii.eqb c "-") eqn:Hminus.
  { rewrite Ho.
    specialize (IH (pre ++ [String c tl])
                  (mkModifiedLines (Added res) (Deleted res ++ [oldCounter h pre]))
                  Hroom).
    rewrite newCounter_snoc, oldCounter_snoc in IH.
    cbn [isAdded isDeleted isContext] in IH.
    rewrite Hplus, Hminus in IH. simpl in IH.
    rewrite Z.add_0_r in IH. rewrite IH. simpl.
    now rewrite <- app_assoc. }
  (* a context line, with a space or any other first character *)
  specialize (IH (pre ++ [String c tl]) res Hroom).
  rewrite newCounter_snoc, oldCounter_snoc in IH.
  cbn [isAdded isDeleted isContext] in IH.
  rewrite Hplus, Hminus in IH. simpl in IH.
  destruct (Ascii.eqb c " "); rewrite Hn, Ho; exact IH.
Qed.

Lemma parseHunk_spec res h :
  wellTyped h ->
  parseHunk res h
  = mkModifiedLines (Added res ++ addedOf h) (Deleted res ++ deletedOf h).
Proof.
  intros Hwt. unfold parseHunk.
  pose proof (parseLines_spec h (SplitLines (Body h)) [] res
                (wellTyped_roomFor h Hwt)) as Hloop.
  unfold newCounter at 1, oldCounter at 1 in Hloop.
  rewrite !countIf_nil, !Z.add_0_r in Hloop.
  rewrite Hloop. reflexivity.
Qed.

Lemma parseHunks_spec hs : forall res,
  Forall wellTyped hs ->
  fold_left parseHunk hs res
  = mkModifiedLines (Added res ++ flat_map addedOf hs)
                    (Deleted res ++ flat_map deletedOf hs).
Proof.
  induction hs as [|h rest IH]; intros res Hwt.
  { simpl. rewrite !app_nil_r. now destruct res. }
  inversion Hwt as [|? ? Hh Hrest]; subst.
  cbn [fold_left flat_map]. rewrite parseHunk_spec by assumption.
  rewrite IH by assumption. simpl. now rewrite <- !app_assoc.
Qed.

Lemma parseFiles_spec fds : forall res,
  Forall wellTyped (allHunks fds) ->
  fold_left parseFile fds res
  = mkModifiedLines (Added res ++ flat_map addedOf (allHunks fds))
                    (Deleted res ++ flat_map deletedOf (allHunks fds)).
Proof.
  unfold allHunks.
  induction fds as [|fd rest IH]; intros res Hwt.
  { simpl. rewrite !app_nil_r. now destruct res. }
  cbn [flat_map] in Hwt. apply Forall_app in Hwt as [Hfd Hrest].
  cbn [fold_left flat_map]. unfold parseFile at 2.
  rewrite parseHunks_spec by assumption.
  rewrite IH by assumption. simpl.
  now rewrite !flat_map_app, <- !app_assoc.
Qed.

Lemma length_addedOf h :
  length (addedOf h) = length (List.filter isAdded (SplitLines (Body h))).
Proof.
  unfold addedOf, bodyLines. rewrite length_map.
  apply (filter_withHistory_length isAdded).
Qed.

Lemma length_deletedOf h :
  length (deletedOf h) = length (List.filter isDeleted (SplitLines (Body h))).
Proof.
  unfold deletedOf, bodyLines. rewrite length_map.
  apply (filter_withHistory_length isDeleted).
Qed.

Lemma length_flat_map_tally (f : Hunk -> list Z) (p : string -> bool) hs :
  (forall h, length (f h) = length (List.filter p (SplitLines (Body h)))) ->
  length (flat_map f hs)
  = length (List.filter p (flat_map (fun h => SplitLines (Body h)) hs)).
Proof.
  intros Hf. induction hs as [|h rest IH]; [reflexivity |].
  cbn [flat_map]. rewrite List.filter_app, !length_app, Hf, IH. reflexivity.
Qed.

(** *** The loops of [ExtractDiffForRange] *)

Lemma newCounter_in_range h pre ls :
  roomFor h pre ls -> GoInt.in_range (newCounter h pre).
Proof.
  unfold roomFor, newCounter, GoInt.in_range. intros Hroom.
  pose proof (countIf_bounds (fun l => isAdded l || isContext l) pre). lia.
Qed.

(** The test the code makes for a deleted line, with [endLine + 1]
    computed in [int], is the test of the document. *)
Lemma deleted_test s e n :
  GoInt.in_range e -> GoInt.in_range n ->
  ((n >=? s) && (n <=? e)) || ((n >=? s) && (n <=? GoInt.add e 1))
  = within s e n || within s (e + 1) n.
Proof.
  intros He Hn. unfold within. rewrite !Z.geb_leb.
  destruct (Z.eq_dec e GoInt.max_int) as [Hmax | Hmax].
  - subst e. rewrite GoIntFacts.add_max_int.
    unfold GoInt.in_range, GoInt.min_int, GoInt.max_int in *.
    apply Bool.eq_iff_eq_true.
    rewrite !orb_true_iff, !andb_true_iff, !Z.leb_le. lia.
  - rewrite GoIntFacts.add_exact; [reflexivity |].
    unfold GoInt.in_range, GoInt.min_int, GoInt.max_int in *. lia.
Qed.

Lemma emits_empty s e h pre : emits s e h (pre, "") = false.
Proof. reflexivity. Qed.

Lemma emits_added s e h pre c tl :
  Ascii.eqb c "+" = true ->
  emits s e h (pre, String c tl) = within s e (newCounter h pre).
Proof.
  intros Hplus. unfold emits. cbn [fst snd isAdded isDeleted].
  rewrite Hplus. apply Ascii.eqb_eq in Hplus. subst c.
  cbn [Ascii.eqb Bool.eqb andb]. apply orb_false_r.
Qed.

Lemma emits_deleted s e h pre c tl :
  Ascii.eqb c "-" = true ->
  emits s e h (pre, String c tl)
  = within s e (newCounter h pre) || within s (e + 1) (newCounter h pre).
Proof.
  intros Hminus. unfold emits. cbn [fst snd isAdded isDeleted].
  rewrite Hminus. apply Ascii.eqb_eq in Hminus. subst c.
  reflexivity.
Qed.

Lemma emits_context s e h pre c tl :
  Ascii.eqb c "+" = false -> Ascii.eqb c "-" = false ->
  emits s e h (pre, String c tl) = false.
Proof.
  intros Hplus Hminus. unfold emits. cbn [fst snd isAdded isDeleted].
  now rewrite Hplus, Hminus.
Qed.

Lemma extractLines_spec s e h ls : forall pre out,
  GoInt.in_range e ->
  roomFor h pre ls ->
  fold_left (extractLine s e) ls (out, newCounter h pre)
  = (out +:+ written (map snd (List.filter (emits s e h) (withHistory pre ls))),
     newCounter h (pre ++ ls)).
Proof.
  induction ls as [|l rest IH]; intros pre out He Hroom.
  { simpl. now rewrite append_nil_r, app_nil_r. }
  pose proof (roomFor_succ_new _ _ _ _ Hroom) as Hsucc.
  pose proof (newCounter_in_range _ _ _ Hroom) as Hn.
  apply roomFor_step in Hroom.
  replace (pre ++ l :: rest) with ((pre ++ [l]) ++ rest)
    by now rewrite <- app_assoc.
  cbn [fold_left withHistory List.filter].
  destruct l as [|c tl].
  { rewrite emits_empty. cbn [extractLine].
    specialize (IH (pre ++ [""]) out He Hroom).
    rewrite newCounter_snoc in IH. simpl in IH.
    rewrite Z.add_0_r in IH. exact IH. }
  cbn [extractLine].
  destruct (Ascii.eqb c "+") eqn:Hplus.
  { rewrite emits_added, Hsucc, Z.geb_leb by assumption.
    fold (within s e (newCounter h pre)).
    specialize (IH (pre ++ [String c tl])).
    rewrite newCounter_snoc in IH. cbn [isAdded isContext] in IH.
    rewrite Hplus in IH. cbn [orb] in IH.
    destruct (within s e (newCounter h pre)).
    - rewrite IH by assumption. cbn [map snd written].
      now rewrite !append_assoc.
    - now rewrite IH by assumption. }
  destruct (Ascii.eqb c "-") eqn:Hminus.
  { rewrite emits_deleted, deleted_test by assumption.
    specialize (IH (pre ++ [String c tl])).
    rewrite newCounter_snoc in IH. cbn [isAdded isContext] in IH.
    rewrite Hplus, Hminus in IH. cbn [orb negb andb] in IH.
    rewrite Z.add_0_r in IH.
    destruct (within s e (newCounter h pre)
              || within s (e + 1) (newCounter h pre)).
    - rewrite IH by assumption. cbn [map snd written].
      now rewrite !append_assoc.
    - now rewrite IH by assumption. }
  rewrite emits_context by assumption.
  specialize (IH (pre ++ [String c tl]) out He Hroom).
  rewrite newCounter_snoc in IH. cbn [isAdded isContext] in IH.
  rewrite Hplus, Hminus in IH. cbn [orb negb andb] in IH.
  destruct (Ascii.eqb c " "); rewrite Hsucc; exact IH.
Qed.

Lemma hunkEnd_exact h :
  wellTyped h ->
  GoInt.sub (GoInt.add (NewStartLine h) (NewLines h)) 1
  = NewStartLine h + NewLines h - 1.
Proof.
  unfold wellTyped, GoInt.int32_range. intros (_ & _ & Hs & Hl & _).
  rewrite GoIntFacts.add_exact;
    [| unfold GoInt.in_range, GoInt.min_int, GoInt.max_int; lia].
  apply GoIntFacts.sub_exact.
  unfold GoInt.in_range, GoInt.min_int, GoInt.max_int. lia.
Qed.

Lemma extractHunk_spec s e out h :
  GoInt.in_range e -> wellTyped h ->
  extractHunk s e out h = out +:+ written (emittedOf s e h).
Proof.
  intros He Hwt. unfold extractHunk, emittedOf, overlaps.
  rewrite hunkEnd_exact, Z.geb_leb by assumption.
  destruct ((s <=? NewStartLine h + NewLines h - 1) && (NewStartLine h <=? e)).
  - pose proof (extractLines_spec s e h (SplitLines (Body h)) [] out He
                  (wellTyped_roomFor h Hwt)) as Hloop.
    unfold newCounter at 1 in Hloop.
    rewrite countIf_nil, Z.add_0_r in Hloop. now rewrite Hloop.
  - cbn [written]. now rewrite append_nil_r.
Qed.

Lemma extractHunks_spec s e hs : forall out,
  GoInt.in_range e -> Forall wellTyped hs ->
  fold_left (extractHunk s e) hs out
  = out +:+ written (flat_map (emittedOf s e) hs).
Proof.
  induction hs as [|h rest IH]; intros out He Hwt.
  { simpl. now rewrite append_nil_r. }
  inversion Hwt as [|? ? Hh Hrest]; subst.
  cbn [fold_left flat_map].
  rewrite extractHunk_spec, IH, written_app by assumption.
  now rewrite append_assoc.
Qed.

Lemma extractFiles_spec s e fds : forall out,
  GoInt.in_range e -> Forall wellTyped (allHunks fds) ->
  fold_left (extractFile s e) fds out
  = out +:+ written (scopedLines s e fds).
Proof.
  unfold scopedLines, allHunks.
  induction fds as [|fd rest IH]; intros out He Hwt.
  { simpl. now rewrite append_nil_r. }
  cbn [flat_map] in Hwt. apply Forall_app in Hwt as [Hfd Hrest].
  cbn [fold_left flat_map]. unfold extractFile at 2.
  rewrite extractHunks_spec, IH, flat_map_app, written_app by assumption.
  now rewrite append_assoc.
Qed.

Lemma within_iff lo hi n : within lo hi n = true <-> lo <= n <= hi.
Proof. unfold within. rewrite andb_true_iff, !Z.leb_le. tauto. Qed.

Lemma parsesTo_scenarioA `{DiffLib} :
  ParseMultiFileDiff (withHeaders scenarioA) = Ok [mkFileDiff [hunkA]] ->
  parsesTo scenarioA [mkFileDiff [hunkA]].
Proof.
  intros Hp. split; [discriminate |]. split; [exact Hp |].
  repeat constructor; vm_compute; discriminate.
Qed.

Lemma parsesTo_scenarioB `{DiffLib} :
  ParseMultiFileDiff (withHeaders scenarioB) = Ok [mkFileDiff [hunkB]] ->
  parsesTo scenarioB [mkFileDiff [hunkB]].
Proof.
  intros Hp. split; [discriminate |]. split; [exact Hp |].
  repeat constructor; vm_compute; discriminate.
Qed.

Lemma counters_start h :
  newCounter h [] = NewStartLine h /\ oldCounter h [] = OrigStartLine h.
Proof.
  unfold newCounter, oldCounter. rewrite !countIf_nil. lia.
Qed.

(** For a hunk with new lines and a range that is not empty, the test on
    the end points says that the span and the range share a line. *)
Lemma overlaps_iff startLine endLine h :
  1 <= NewLines h -> startLine <= endLine ->
  overlaps startLine endLine h = true
  <-> exists n,
        NewStartLine h <= n <= NewStartLine h + NewLines h - 1
        /\ startLine <= n <= endLine.
Proof.
  intros Hcount Hrange. unfold overlaps.
  rewrite andb_true_iff, !Z.leb_le. split.
  - intros [H1 H2]. exists (Z.max startLine (NewStartLine h)). lia.
  - intros (n & H1 & H2). lia.
Qed.

(** *** The claims *)

(** C4.  [HasModifiedLineInRange] is true exactly when some entry of
    [Added] lies in the inclusive range from [startLine] to [endLine];
    [Deleted] plays no part: with [Added] empty the answer is false
    whatever [Deleted] holds, and two values with the same [Added] get the
    same answer. *)
Theorem HasModifiedLineInRange_iff :
  (forall m startLine endLine,
      HasModifiedLineInRange m startLine endLine = true
      <-> exists line, In line (Added m) /\ startLine <= line <= endLine)
  /\ (forall deleted startLine endLine,
         HasModifiedLineInRange (mkModifiedLines [] deleted) startLine endLine
         = false)
  /\ (forall added deleted deleted' startLine endLine,
         HasModifiedLineInRange (mkModifiedLines added deleted) startLine endLine
         = HasModifiedLineInRange (mkModifiedLines added deleted') startLine endLine).
Proof.
  split; [| split; reflexivity].
  intros m s e. unfold HasModifiedLineInRange. rewrite existsb_exists.
  split; intros (line & Hin & Hr); exists line; (split; [exact Hin |]).
  - rewrite andb_true_iff, Z.geb_leb, !Z.leb_le in Hr. lia.
  - rewrite andb_true_iff, Z.geb_leb, !Z.leb_le. lia.
Qed.

(** C3.  For a patch parsed into hunks, [ParsePatch] returns in [Added],
    hunk after hunk and line after line, the new-line counter of every
    body line that starts with [+], and in [Deleted] the old-line counter
    of every body line that starts with [-]; the counters start at the
    hunk's declared starts, [+] lines advance the new one only, [-] lines
    the old one only, every other non-empty line both.  So the lengths of
    [Added] and [Deleted] are the tallies of the [+] and [-] lines.  For
    the patch of scenario A, [Added] is [2; 3] and [Deleted] is empty. *)
Theorem ParsePatch_records `{DiffLib} :
  (forall patch fds,
      parsesTo patch fds ->
      exists m,
        ParsePatch patch = Ok m
        /\ Added m = flat_map addedOf (allHunks fds)
        /\ Deleted m = flat_map deletedOf (allHunks fds)
        /\ length (Added m) = tally isAdded fds
        /\ length (Deleted m) = tally isDeleted fds)
  /\ (forall h,
         newCounter h [] = NewStartLine h /\ oldCounter h [] = OrigStartLine h)
  /\ (forall h pre line,
         newCounter h (pre ++ [line])
         = newCounter h pre + (if isAdded line || isContext line then 1 else 0))
  /\ (forall h pre line,
         oldCounter h (pre ++ [line])
         = oldCounter h pre + (if isDeleted line || isContext line then 1 else 0))
  /\ (ParseMultiFileDiff (withHeaders scenarioA) = Ok [mkFileDiff [hunkA]] ->
      ParsePatch scenarioA = Ok (mkModifiedLines [2; 3] [])).
Proof.
  assert (Hgen : forall patch fds,
      parsesTo patch fds ->
      exists m,
        ParsePatch patch = Ok m
        /\ Added m = flat_map addedOf (allHunks fds)
        /\ Deleted m = flat_map deletedOf (allHunks fds)
        /\ length (Added m) = tally isAdded fds
        /\ length (Deleted m) = tally isDeleted fds).
  { intros patch fds (Hne & Hp & Hwt).
    exists (mkModifiedLines (flat_map addedOf (allHunks fds))
                            (flat_map deletedOf (allHunks fds))).
    split.
    { unfold ParsePatch. apply String.eqb_neq in Hne. rewrite Hne, Hp.
      now rewrite parseFiles_spec by assumption. }
    cbn [Added Deleted]. unfold tally.
    repeat split.
    - apply length_flat_map_tally, length_addedOf.
    - apply length_flat_map_tally, length_deletedOf. }
  split; [exact Hgen |].
  split; [exact counters_start |].
  split; [exact newCounter_snoc |]. split; [exact oldCounter_snoc |].
  intros Hp. destruct (Hgen _ _ (parsesTo_scenarioA Hp)) as (m & Hm & Ha & Hd & _).
  rewrite Hm. destruct m as [a d]. cbn [Added Deleted] in Ha, Hd.
  rewrite Ha, Hd. reflexivity.
Qed.

Lemma ParsePatch_records_witness :
  (exists m,
      @ParsePatch PlainDiff.lib scenarioA = Ok m
      /\ Added m = flat_map addedOf (allHunks [mkFileDiff [hunkA]])
      /\ Deleted m = flat_map deletedOf (allHunks [mkFileDiff [hunkA]])
      /\ length (Added m) = tally isAdded [mkFileDiff [hunkA]]
      /\ length (Deleted m) = tally isDeleted [mkFileDiff [hunkA]])
  /\ @ParsePatch PlainDiff.lib scenarioA = Ok (mkModifiedLines [2; 3] []).
Proof.
  split.
  - apply (proj1 (@ParsePatch_records PlainDiff.lib)).
    apply (@parsesTo_scenarioA PlainDiff.lib). vm_compute. reflexivity.
  - apply (proj2 (proj2 (proj2 (proj2 (@ParsePatch_records PlainDiff.lib))))).
    vm_compute. reflexivity.
Defined.

Lemma overlaps_ends startLine endLine h :
  overlaps startLine endLine h = true
  <-> startLine <= NewStartLine h + NewLines h - 1
      /\ NewStartLine h <= endLine.
Proof. unfold overlaps. now rewrite andb_true_iff, !Z.leb_le. Qed.

Lemma sharesLine_overlaps startLine endLine h :
  sharesLine startLine endLine h -> overlaps startLine endLine h = true.
Proof. intros (n & Hspan & Hrange). apply overlaps_ends. lia. Qed.

Lemma wellTyped_hunkZ : wellTyped hunkZ.
Proof. vm_compute. repeat split; discriminate. Qed.

Lemma hunkZ_shares_nothing : ~ sharesLine 5 20 hunkZ.
Proof. intros (n & Hspan & _). cbn in Hspan. lia. Qed.

(** C1, the counterexample.  The hunk of [@@ -10,2 +9,0 @@] declares no
    line of the new file: its span, from line 9 to line 8, has no line in
    common with the range from 5 to 20.  The hunk is not skipped, and
    both removed lines are returned. *)
Lemma empty_span_not_skipped :
  ~ (forall startLine endLine out h,
        wellTyped h -> ~ sharesLine startLine endLine h ->
        extractHunk startLine endLine out h = out)
  /\ ~ (forall (lib : DiffLib) patch fds startLine endLine,
          @parsesTo lib patch fds -> GoInt.in_range endLine ->
          Forall (fun h => ~ sharesLine startLine endLine h) (allHunks fds) ->
          @ExtractDiffForRange lib patch startLine endLine = "")
  /\ wellTyped hunkZ
  /\ ~ sharesLine 5 20 hunkZ
  /\ extractHunk 5 20 "" hunkZ = "-a" +:+ newline +:+ "-b" +:+ newline
  /\ @ParseMultiFileDiff PlainDiff.lib (withHeaders removalOnly)
     = Ok [mkFileDiff [hunkZ]]
  /\ @ExtractDiffForRange PlainDiff.lib removalOnly 5 20
     = "-a" +:+ newline +:+ "-b".
Proof.
  assert (Hhunk : extractHunk 5 20 "" hunkZ
                  = "-a" +:+ newline +:+ "-b" +:+ newline)
    by (vm_compute; reflexivity).
  assert (Hparse : @ParseMultiFileDiff PlainDiff.lib (withHeaders removalOnly)
                   = Ok [mkFileDiff [hunkZ]]) by (vm_compute; reflexivity).
  assert (Hall : @ExtractDiffForRange PlainDiff.lib removalOnly 5 20
                 = "-a" +:+ newline +:+ "-b") by (vm_compute; reflexivity).
  split.
  { intros Hskip.
    rewrite (Hskip 5 20 "" hunkZ wellTyped_hunkZ hunkZ_shares_nothing)
      in Hhunk.
    discriminate. }
  split.
  { intros Hskip.
    rewrite (Hskip PlainDiff.lib removalOnly [mkFileDiff [hunkZ]] 5 20)
      in Hall; [discriminate | | |].
    - split; [discriminate |]. split; [exact Hparse |].
      constructor; [exact wellTyped_hunkZ | constructor].
    - vm_compute. split; discriminate.
    - constructor; [exact hunkZ_shares_nothing | constructor]. }
  split; [exact wellTyped_hunkZ |]. split; [exact hunkZ_shares_nothing |].
  split; [exact Hhunk |]. split; [exact Hparse | exact Hall].
Qed.

(** C1, amended.  For a patch parsed into hunks and a range from
    [startLine] to [endLine], [ExtractDiffForRange] returns, trimmed of
    white space at both ends, the emitted lines joined by newlines.  A
    hunk is skipped, and emits nothing, exactly when the test of the end
    points fails: when its declared last line, [hunkStart + count - 1],
    is before [startLine] or its start is after [endLine].  A hunk whose
    span has a line in common with the range is never skipped; for a
    hunk that declares a line of the new file and a range that is not
    empty, the hunks skipped are exactly those whose span has no line in
    common with the range; a hunk that declares no line has an empty
    span and is all the same not skipped when
    [startLine < hunkStart <= endLine].  In a hunk that is not skipped a
    [+] line is emitted exactly when its new-line number is in the range,
    a [-] line exactly when the new-line counter at it is in the range or
    in the range with [endLine + 1] for its end, and a context line
    never; the counter starts at the hunk's declared new start, and added
    and context lines advance it.  For the patch of scenario B and the
    range (2, 2) the result is the two lines [-old_line] and [+new_line];
    for the patch that only removes the lines [a] and [b] at new line 9
    and the range (5, 20) it is the two removed lines. *)
Theorem ExtractDiffForRange_scoped `{DiffLib} :
  (forall patch fds startLine endLine,
      parsesTo patch fds -> GoInt.in_range endLine ->
      ExtractDiffForRange patch startLine endLine
      = TrimSpace (Join (scopedLines startLine endLine fds) newline))
  /\ (forall startLine endLine h,
         overlaps startLine endLine h = true
         <-> startLine <= NewStartLine h + NewLines h - 1
             /\ NewStartLine h <= endLine)
  /\ (forall startLine endLine h,
         overlaps startLine endLine h = false ->
         emittedOf startLine endLine h = [])
  /\ (forall startLine endLine out h,
         GoInt.in_range endLine -> wellTyped h ->
         extractHunk startLine endLine out h
         = if overlaps startLine endLine h
           then out +:+ written
                          (map snd (List.filter (emits startLine endLine h)
                                      (bodyLines h)))
           else out)
  /\ (forall startLine endLine h,
         sharesLine startLine endLine h ->
         overlaps startLine endLine h = true)
  /\ (forall startLine endLine h,
         1 <= NewLines h -> startLine <= endLine ->
         overlaps startLine endLine h = true
         <-> exists n,
               NewStartLine h <= n <= NewStartLine h + NewLines h - 1
               /\ startLine <= n <= endLine)
  /\ (forall startLine endLine h,
         NewLines h = 0 ->
         ~ sharesLine startLine endLine h
         /\ (overlaps startLine endLine h = true
             <-> startLine < NewStartLine h <= endLine))
  /\ (forall startLine endLine h,
         overlaps startLine endLine h = true ->
         emittedOf startLine endLine h
         = map snd (List.filter (emits startLine endLine h) (bodyLines h)))
  /\ (forall startLine endLine h pre line,
         emits startLine endLine h (pre, line) = true
         <-> (isAdded line = true
              /\ startLine <= newCounter h pre <= endLine)
             \/ (isDeleted line = true
                 /\ (startLine <= newCounter h pre <= endLine
                     \/ startLine <= newCounter h pre <= endLine + 1)))
  /\ (forall startLine endLine h pre line,
         isContext line = true ->
         emits startLine endLine h (pre, line) = false)
  /\ (forall h, newCounter h [] = NewStartLine h)
  /\ (forall h pre line,
         newCounter h (pre ++ [line])
         = newCounter h pre + (if isAdded line || isContext line then 1 else 0))
  /\ (ParseMultiFileDiff (withHeaders scenarioB) = Ok [mkFileDiff [hunkB]] ->
      ExtractDiffForRange scenarioB 2 2
      = "-old_line" +:+ newline +:+ "+new_line")
  /\ (ParseMultiFileDiff (withHeaders removalOnly) = Ok [mkFileDiff [hunkZ]] ->
      ExtractDiffForRange removalOnly 5 20 = "-a" +:+ newline +:+ "-b").
Proof.
  assert (Hgen : forall patch fds startLine endLine,
      parsesTo patch fds -> GoInt.in_range endLine ->
      ExtractDiffForRange patch startLine endLine
      = TrimSpace (Join (scopedLines startLine endLine fds) newline)).
  { intros patch fds s e (Hne & Hp & Hwt) He.
    unfold ExtractDiffForRange. apply String.eqb_neq in Hne.
    rewrite Hne, Hp, extractFiles_spec by assumption.
    rewrite append_nil_l. apply TrimSpace_written. }
  assert (Hrange : GoInt.in_range 2 /\ GoInt.in_range 20)
    by (unfold GoInt.in_range; vm_compute; repeat split; discriminate).
  split; [exact Hgen |].
  split; [exact overlaps_ends |].
  split; [intros s e h Ho; unfold emittedOf; now rewrite Ho |].
  split.
  { intros s e out h He Hwt. rewrite (extractHunk_spec s e out h He Hwt).
    unfold emittedOf. destruct (overlaps s e h); [reflexivity |].
    cbn [written]. apply append_nil_r. }
  split; [exact sharesLine_overlaps |].
  split; [exact overlaps_iff |].
  split.
  { intros s e h Hzero. split.
    - intros (n & Hspan & _). lia.
    - rewrite overlaps_ends. lia. }
  split; [intros s e h Ho; unfold emittedOf; now rewrite Ho |].
  split.
  { intros s e h pre line. unfold emits. cbn [fst snd].
    rewrite orb_true_iff, !andb_true_iff, orb_true_iff, !within_iff.
    tauto. }
  split.
  { intros s e h pre line Hctx. destruct line as [|c tl]; [discriminate |].
    cbn [isContext] in Hctx. apply andb_true_iff in Hctx as [Hp Hm].
    apply negb_true_iff in Hp, Hm. now apply emits_context. }
  split; [intros h; apply counters_start |].
  split; [exact newCounter_snoc |].
  split.
  { intros Hp.
    rewrite (Hgen _ _ 2 2 (parsesTo_scenarioB Hp) (proj1 Hrange)).
    reflexivity. }
  intros Hp. rewrite (Hgen removalOnly [mkFileDiff [hunkZ]] 5 20).
  - reflexivity.
  - split; [discriminate |]. split; [exact Hp |].
    constructor; [exact wellTyped_hunkZ | constructor].
  - vm_compute. split; discriminate.
Qed.

Lemma ExtractDiffForRange_scoped_witness :
  @ExtractDiffForRange PlainDiff.lib scenarioB 2 2
  = TrimSpace (Join (scopedLines 2 2 [mkFileDiff [hunkB]]) newline)
  /\ @ExtractDiffForRange PlainDiff.lib scenarioB 2 2
     = "-old_line" +:+ newline +:+ "+new_line"
  /\ @ExtractDiffForRange PlainDiff.lib removalOnly 5 20
     = "-a" +:+ newline +:+ "-b"
  /\ (~ sharesLine 5 20 hunkZ
      /\ (overlaps 5 20 hunkZ = true <-> 5 < NewStartLine hunkZ <= 20)).
Proof.
  split; [| split; [| split]].
  - apply (proj1 (@ExtractDiffForRange_scoped PlainDiff.lib)).
    + apply (@parsesTo_scenarioB PlainDiff.lib). vm_compute. reflexivity.
    + unfold GoInt.in_range. vm_compute. split; discriminate.
  - apply (proj1 (proj2 (proj2 (proj2 (proj2 (proj2 (proj2 (proj2 (proj2
             (proj2 (proj2 (proj2 (proj2
               (@ExtractDiffForRange_scoped PlainDiff.lib)))))))))))))).
    vm_compute. reflexivity.
  - apply (proj2 (proj2 (proj2 (proj2 (proj2 (proj2 (proj2 (proj2 (proj2
             (proj2 (proj2 (proj2 (proj2
               (@ExtractDiffForRange_scoped PlainDiff.lib)))))))))))))).
    vm_compute. reflexivity.
  - apply (proj1 (proj2 (proj2 (proj2 (proj2 (proj2 (proj2
             (@ExtractDiffForRange_scoped PlainDiff.lib)))))))).
    reflexivity.
Defined.

(** C9.  The empty patch is no error: [ParsePatch] returns empty [Added]
    and [Deleted], and [ExtractDiffForRange] the empty string for every
    range.  For a patch that cannot be parsed into hunks at all,
    [ParsePatch] returns the empty result or the parser's error, and
    [ExtractDiffForRange] the empty string; both are total functions. *)
Theorem empty_or_unparseable_patch `{DiffLib} :
  ParsePatch "" = Ok (mkModifiedLines [] [])
  /\ (forall startLine endLine, ExtractDiffForRange "" startLine endLine = "")
  /\ (forall patch,
         unparseable patch ->
         (ParsePatch patch = Ok (mkModifiedLines [] [])
          \/ exists err, ParsePatch patch = Err err)
         /\ forall startLine endLine,
             ExtractDiffForRange patch startLine endLine = "").
Proof.
  split; [reflexivity |]. split; [reflexivity |].
  intros patch Hun. unfold ParsePatch, ExtractDiffForRange.
  destruct (String.eqb patch ""); [split; [now left | reflexivity] |].
  destruct Hun as [(err & Hp) | (fds & Hp & Hno)]; rewrite Hp.
  - split; [right; now exists err | reflexivity].
  - split.
    + left. rewrite parseFiles_spec by (rewrite Hno; constructor).
      now rewrite Hno.
    + intros s e. unfold extractFile.
      assert (Hfold : forall out,
                 fold_left (fun out fd => fold_left (extractHunk s e) (Hunks fd) out)
                   fds out = out).
      { unfold allHunks in Hno. clear Hp.
        induction fds as [|fd rest IH]; intros out; [reflexivity |].
        cbn [flat_map] in Hno. apply app_eq_nil in Hno as [Hfd Hrest].
        cbn [fold_left]. rewrite Hfd. cbn [fold_left]. now apply IH. }
      now rewrite Hfold.
Qed.

Lemma empty_or_unparseable_patch_witness :
  (@ParsePatch PlainDiff.lib "not a valid patch at all"
     = Ok (mkModifiedLines [] [])
   \/ exists err, @ParsePatch PlainDiff.lib "not a valid patch at all" = Err err)
  /\ forall startLine endLine,
      @ExtractDiffForRange PlainDiff.lib "not a valid patch at all"
        startLine endLine = "".
Proof.
  apply (proj2 (proj2 (@empty_or_unparseable_patch PlainDiff.lib))).
  left. exists "no hunk header". vm_compute. reflexivity.
Defined.

End DiffFacts.

(* ===================================================================== *)
(** ** Fingerprints, markers and the tracker *)
(* ===================================================================== *)

Module CacheFacts.
Import GoStrings GoStringsFacts Extractor Cache CacheSpec.

(** *** The regular expression *)

Lemma matchLiteral_iff lit s r :
  matchLiteral lit s = Some r <-> s = lit +:+ r.
Proof.
  revert s. induction lit as [|a lit IH]; intros s.
  { rewrite append_nil_l. simpl. split; congruence. }
  rewrite append_cons. destruct s as [|b s']; simpl.
  { split; discriminate. }
  destruct (Ascii.eqb_spec a b) as [-> | Hne].
  - rewrite IH. split; congruence.
  - split; [discriminate | congruence].
Qed.

Lemma matchLiteral_append lit r : matchLiteral lit (lit +:+ r) = Some r.
Proof. now apply matchLiteral_iff. Qed.

Lemma matchClass_sound n : forall s g r,
  matchClass n s = Some (g, r) ->
  s = g +:+ r /\ String.length g = n /\ allChars hashChar g = true.
Proof.
  induction n as [|n IH]; intros s g r.
  { simpl. intros [= <- <-]. now rewrite append_nil_l. }
  destruct s as [|c s']; simpl; [discriminate |].
  destruct (hashChar c) eqn:Hc; [| discriminate].
  destruct (matchClass n s') as [[g' r'] |] eqn:Hm; [| discriminate].
  intros [= <- <-]. apply IH in Hm as (-> & Hlen & Hall).
  rewrite append_cons. simpl. rewrite Hc, Hall, Hlen. auto.
Qed.

Lemma matchClass_complete g : forall n r,
  String.length g = n -> allChars hashChar g = true ->
  matchClass n (g +:+ r) = Some (g, r).
Proof.
  induction g as [|c g IH]; intros n r Hlen Hall.
  { simpl in Hlen. subst n. reflexivity. }
  simpl in Hlen, Hall. subst n. apply andb_true_iff in Hall as [Hc Hall].
  rewrite append_cons. simpl. rewrite Hc.
  now rewrite (IH (String.length g) r eq_refl Hall).
Qed.

Lemma matchClass_iff n s g r :
  matchClass n s = Some (g, r)
  <-> s = g +:+ r /\ String.length g = n /\ allChars hashChar g = true.
Proof.
  split; [apply matchClass_sound |].
  intros (-> & Hlen & Hall). now apply matchClass_complete.
Qed.

(** A match at the front of a text: the text starts with the marker of
    a valid hash, which is the group. *)
Lemma matchHere_iff t g :
  matchHere t = Some g
  <-> validHash g = true /\ exists post, t = FormatHashMarker g +:+ post.
Proof.
  unfold matchHere, validHash, FormatHashMarker. split.
  - destruct (matchLiteral HashPrefix t) as [s1 |] eqn:H1; [| discriminate].
    destruct (matchClass 12 s1) as [[g' s2] |] eqn:H2; [| discriminate].
    destruct (matchLiteral HashSuffix s2) as [s3 |] eqn:H3; [| discriminate].
    intros [= <-].
    apply matchLiteral_iff in H1, H3. apply matchClass_iff in H2.
    destruct H2 as (-> & Hlen & Hall). subst.
    split; [now rewrite Hlen, Hall |].
    exists s3. now rewrite !append_assoc.
  - intros (Hv & post & ->). apply andb_true_iff in Hv as [Hlen Hall].
    apply Nat.eqb_eq in Hlen.
    rewrite !append_assoc, matchLiteral_append.
    assert (H2 : matchClass 12 (g +:+ (HashSuffix +:+ post))
                 = Some (g, HashSuffix +:+ post))
      by (apply matchClass_iff; auto).
    rewrite H2, matchLiteral_append. reflexivity.
Qed.

Lemma FindStringSubmatch_here s g :
  matchHere s = Some g ->
  FindStringSubmatch s = Some [FormatHashMarker g; g].
Proof. intros H. destruct s; cbn [FindStringSubmatch]; now rewrite H. Qed.

Lemma FindStringSubmatch_next c s :
  matchHere (String c s) = None ->
  FindStringSubmatch (String c s) = FindStringSubmatch s.
Proof. intros H. cbn [FindStringSubmatch]. now rewrite H. Qed.

(** The leftmost match. *)
Lemma FindStringSubmatch_first i : forall s g,
  matchHere (skip i s) = Some g ->
  (forall j, (j < i)%nat -> matchHere (skip j s) = None) ->
  FindStringSubmatch s = Some [FormatHashMarker g; g].
Proof.
  induction i as [|i IH]; intros s g Hi Hbefore.
  { now apply FindStringSubmatch_here. }
  destruct s as [|c s'].
  { simpl in Hi. discriminate. }
  rewrite FindStringSubmatch_next by (apply (Hbefore 0%nat); lia).
  apply IH; [exact Hi |].
  intros j Hj. apply (Hbefore (S j)). lia.
Qed.

Lemma FindStringSubmatch_none s :
  (forall i, matchHere (skip i s) = None) -> FindStringSubmatch s = None.
Proof.
  induction s as [|c s' IH]; intros Hno.
  { reflexivity. }
  rewrite FindStringSubmatch_next by apply (Hno 0%nat).
  apply IH. intros i. apply (Hno (S i)).
Qed.

Lemma FindStringSubmatch_some s ms :
  FindStringSubmatch s = Some ms ->
  exists i g, ms = [FormatHashMarker g; g]
              /\ matchHere (skip i s) = Some g
              /\ forall j, (j < i)%nat -> matchHere (skip j s) = None.
Proof.
  induction s as [|c s' IH].
  { simpl. discriminate. }
  cbn [FindStringSubmatch].
  destruct (matchHere (String c s')) as [g |] eqn:Hh.
  - intros [= <-]. exists 0%nat, g. split; [reflexivity |].
    split; [exact Hh |]. intros j Hj. lia.
  - intros Hs. destruct (IH Hs) as (i & g & -> & Hi & Hbefore).
    exists (S i), g. split; [reflexivity |]. split; [exact Hi |].
    intros [|j] Hj; [exact Hh | apply Hbefore; lia].
Qed.

Lemma ExtractHash_first s i g :
  matchHere (skip i s) = Some g ->
  (forall j, (j < i)%nat -> matchHere (skip j s) = None) ->
  ExtractHash s = g.
Proof.
  intros Hi Hbefore. unfold ExtractHash.
  now rewrite (FindStringSubmatch_first i s g Hi Hbefore).
Qed.

Lemma ExtractHash_none s :
  (forall i, matchHere (skip i s) = None) -> ExtractHash s = "".
Proof.
  intros Hno. unfold ExtractHash. now rewrite FindStringSubmatch_none.
Qed.

Lemma allChars_append p a b :
  allChars p (a +:+ b) = allChars p a && allChars p b.
Proof.
  induction a as [|c a IH]; [reflexivity |].
  rewrite append_cons. simpl. now rewrite IH, andb_assoc.
Qed.

Lemma allChars_impl (p q : ascii -> bool) s :
  (forall c, p c = true -> q c = true) ->
  allChars p s = true -> allChars q s = true.
Proof.
  intros Hpq. induction s as [|c s' IH]; [reflexivity |]. simpl.
  rewrite !andb_true_iff. intros [Hc Hs]. auto.
Qed.

Lemma hashChar_not_opening c :
  hashChar c = true -> negb (Ascii.eqb c "<") = true.
Proof.
  intros Hc. destruct (Ascii.eqb_spec c "<") as [-> |]; [discriminate |].
  reflexivity.
Qed.

Lemma matchHere_opening c t :
  Ascii.eqb c "<" = false -> matchHere (String c t) = None.
Proof.
  intros Hc. unfold matchHere, HashPrefix. cbn [matchLiteral].
  rewrite Ascii.eqb_sym, Hc. reflexivity.
Qed.

Lemma noOpening_no_match t :
  noOpening t = true -> FindStringSubmatch t = None.
Proof.
  unfold noOpening. induction t as [|c t IH]; [reflexivity |].
  simpl allChars. rewrite andb_true_iff, negb_true_iff. intros [Hc Ht].
  rewrite FindStringSubmatch_next by now apply matchHere_opening.
  now apply IH.
Qed.

Lemma noOpening_skipped pre t :
  noOpening pre = true ->
  FindStringSubmatch (pre +:+ t) = FindStringSubmatch t.
Proof.
  unfold noOpening. induction pre as [|c pre IH]; [reflexivity |].
  simpl allChars. rewrite andb_true_iff, negb_true_iff. intros [Hc Hpre].
  rewrite append_cons.
  rewrite FindStringSubmatch_next by now apply matchHere_opening.
  now apply IH.
Qed.

(** Fewer than [n] characters of the class, then another character. *)
Lemma matchClass_short h : forall n c t,
  (String.length h < n)%nat -> hashChar c = false ->
  matchClass n (h +:+ String c t) = None.
Proof.
  induction h as [|a h IH]; intros n c t Hlen Hc.
  { destruct n as [|n]; [simpl in Hlen; lia |].
    rewrite append_nil_l. simpl. now rewrite Hc. }
  destruct n as [|n]; [simpl in Hlen; lia |].
  rewrite append_cons. simpl. simpl in Hlen.
  destruct (hashChar a); [| reflexivity].
  rewrite IH by (assumption || lia). reflexivity.
Qed.

Lemma short_marker_no_match h post :
  allChars hashChar h = true -> (String.length h < 12)%nat ->
  noOpening post = true ->
  FindStringSubmatch (FormatHashMarker h +:+ post) = None.
Proof.
  intros Hall Hlen Hpost.
  assert (Hhere : matchHere (FormatHashMarker h +:+ post) = None).
  { unfold matchHere, FormatHashMarker.
    rewrite !append_assoc, matchLiteral_append.
    unfold HashSuffix at 1. rewrite append_cons.
    now rewrite matchClass_short. }
  unfold FormatHashMarker, HashPrefix in *.
  rewrite !append_assoc, append_cons in *.
  rewrite FindStringSubmatch_next by exact Hhere.
  apply noOpening_no_match. unfold noOpening in *.
  rewrite !allChars_append, Hpost.
  rewrite (allChars_impl _ _ h hashChar_not_opening Hall). reflexivity.
Qed.

(** [ExtractHash] always answers: the empty string, or the group of the
    first match. *)
Lemma ExtractHash_total s :
  ExtractHash s = ""
  \/ (validHash (ExtractHash s) = true
      /\ exists i,
          matchHere (skip i s) = Some (ExtractHash s)
          /\ forall j, (j < i)%nat -> matchHere (skip j s) = None).
Proof.
  unfold ExtractHash.
  destruct (FindStringSubmatch s) as [ms |] eqn:Hs; [| now left].
  destruct (FindStringSubmatch_some s ms Hs) as (i & g & -> & Hi & Hbefore).
  right. cbn [length Nat.ltb Nat.leb nth].
  split; [| now exists i].
  now apply matchHere_iff in Hi as [Hv _].
Qed.

(** C6.  For every string [h] of twelve lowercase hexadecimal digits,
    [ExtractHash (FormatHashMarker h) = h]: the marker envelope around a
    valid fingerprint gives the fingerprint back. *)
Theorem ExtractHash_FormatHashMarker h :
  validHash h = true -> ExtractHash (FormatHashMarker h) = h.
Proof.
  intros Hv. apply (ExtractHash_first _ 0%nat); [| intros j Hj; lia].
  cbn [skip]. apply matchHere_iff. split; [exact Hv |].
  exists "". now rewrite append_nil_r.
Qed.

Lemma ExtractHash_FormatHashMarker_witness :
  ExtractHash (FormatHashMarker "abc123def456") = "abc123def456".
Proof. apply ExtractHash_FormatHashMarker. reflexivity. Defined.

(** C7.  [ExtractHash] is total.  It returns the empty string when no
    position of the text matches the marker syntax, in particular when
    the marker prefix is nowhere in the text (a different prefix) and
    when a marker holds fewer than twelve hexadecimal digits; a match is
    the marker of a valid hash at that position.  When it does not
    return the empty string it returns the group of the first position
    that matches, twelve lowercase hexadecimal digits. *)
Theorem ExtractHash_not_found_or_first :
  (forall t g,
      matchHere t = Some g
      <-> validHash g = true /\ exists post, t = FormatHashMarker g +:+ post)
  /\ (forall s, (forall i, matchHere (skip i s) = None) -> ExtractHash s = "")
  /\ (forall s,
         (forall i, matchLiteral HashPrefix (skip i s) = None) ->
         ExtractHash s = "")
  /\ (forall pre h post,
         noOpening pre = true -> noOpening post = true ->
         allChars hashChar h = true -> (String.length h < 12)%nat ->
         ExtractHash (pre +:+ FormatHashMarker h +:+ post) = "")
  /\ (forall s i g,
         matchHere (skip i s) = Some g ->
         (forall j, (j < i)%nat -> matchHere (skip j s) = None) ->
         ExtractHash s = g)
  /\ (forall s,
         ExtractHash s = ""
         \/ (validHash (ExtractHash s) = true
             /\ exists i,
                 matchHere (skip i s) = Some (ExtractHash s)
                 /\ forall j, (j < i)%nat -> matchHere (skip j s) = None))
  /\ ExtractHash "<!-- other:fn:abc123def456 -->" = ""
  /\ ExtractHash "<!-- ainspector:fn:abc123 -->" = "".
Proof.
  split; [exact matchHere_iff |].
  split; [exact ExtractHash_none |].
  split.
  { intros s Hno. apply ExtractHash_none. intros i.
    unfold matchHere. now rewrite Hno. }
  split.
  { intros pre h post Hpre Hpost Hall Hlen. unfold ExtractHash.
    rewrite noOpening_skipped by assumption.
    now rewrite short_marker_no_match. }
  split; [exact ExtractHash_first |].
  split; [exact ExtractHash_total | split; reflexivity].
Qed.

Lemma ExtractHash_not_found_or_first_witness :
  ExtractHash "Comment <!-- ainspector:fn:123456789abc --> more text"
    = "123456789abc"
  /\ ExtractHash ("Review " +:+ FormatHashMarker "abc123" +:+ " done") = ""
  /\ ExtractHash "no marker" = "".
Proof.
  split; [| split].
  - apply (proj1 (proj2 (proj2 (proj2 (proj2 ExtractHash_not_found_or_first))))
             _ 8%nat).
    + reflexivity.
    + intros j Hj.
      do 8 (destruct j as [|j]; [reflexivity |]). lia.
  - apply (proj1 (proj2 (proj2 (proj2 ExtractHash_not_found_or_first))));
      [reflexivity | reflexivity | reflexivity | simpl; lia].
  - apply (proj1 (proj2 (proj2 ExtractHash_not_found_or_first))).
    intros i. do 10 (destruct i as [|i]; [reflexivity |]). reflexivity.
Defined.

(** *** The fingerprint *)

(** A goal about [n mod 16], settled for each of the sixteen values. *)
Ltac each_nibble n :=
  let k := fresh "k" in
  let Hk := fresh "Hk" in
  let Hb := fresh "Hb" in
  let Hcases := fresh "Hcases" in
  pose proof (Z.mod_pos_bound n 16 ltac:(lia)) as Hb;
  remember (n mod 16) as k eqn:Hk; clear Hk;
  assert (Hcases : k = 0 \/ k = 1 \/ k = 2 \/ k = 3 \/ k = 4 \/ k = 5
                   \/ k = 6 \/ k = 7 \/ k = 8 \/ k = 9 \/ k = 10 \/ k = 11
                   \/ k = 12 \/ k = 13 \/ k = 14 \/ k = 15) by lia;
  repeat (destruct Hcases as [-> | Hcases]; [reflexivity |]);
  subst k; reflexivity.

Lemma hexDigit_hashChar n : hashChar (Hex.hexDigit n) = true.
Proof. unfold Hex.hexDigit. each_nibble n. Qed.

Lemma length_EncodeToString src :
  String.length (Hex.EncodeToString src) = (2 * length src)%nat.
Proof. induction src as [|b rest IH]; simpl; [reflexivity | lia]. Qed.

Lemma allChars_EncodeToString src :
  allChars hashChar (Hex.EncodeToString src) = true.
Proof.
  induction src as [|b rest IH]; [reflexivity |].
  cbn [Hex.EncodeToString allChars].
  now rewrite !hexDigit_hashChar, IH.
Qed.

Lemma length_bigEndian n x : length (SHA256.bigEndian n x) = n.
Proof.
  unfold SHA256.bigEndian. now rewrite length_map, length_rev, length_seq.
Qed.

Lemma length_Sum256 data : length (SHA256.Sum256 data) = 32%nat.
Proof.
  unfold SHA256.Sum256, SHA256.digest. cbn [flat_map].
  rewrite !length_app, !length_bigEndian. reflexivity.
Qed.

Lemma length_substring_front n : forall s,
  (n <= String.length s)%nat -> String.length (substring 0 n s) = n.
Proof.
  induction n as [|n IH]; intros s Hn.
  { now destruct s. }
  destruct s as [|c r]; simpl in *; [lia |]. rewrite IH; lia.
Qed.

Lemma allChars_substring_front p n : forall s,
  allChars p s = true -> allChars p (substring 0 n s) = true.
Proof.
  induction n as [|n IH]; intros s Hs.
  { now destruct s. }
  destruct s as [|c r]; [reflexivity |]. simpl in *.
  apply andb_true_iff in Hs as [Hc Hr]. now rewrite Hc, IH.
Qed.

Lemma validHash_FunctionHash fn : validHash (FunctionHash fn) = true.
Proof.
  unfold validHash, FunctionHash, HashLength.
  rewrite length_substring_front
    by (rewrite length_EncodeToString, length_Sum256; lia).
  rewrite allChars_substring_front by apply allChars_EncodeToString.
  reflexivity.
Qed.

Lemma append_cancel_r t : forall s1 s2, s1 +:+ t = s2 +:+ t -> s1 = s2.
Proof.
  induction s1 as [|c s1 IH]; intros s2 Heq.
  - destruct s2 as [|d s2]; [reflexivity |].
    apply (f_equal String.length) in Heq.
    rewrite append_nil_l, append_cons in Heq. simpl in Heq.
    rewrite length_append in Heq. lia.
  - destruct s2 as [|d s2].
    + apply (f_equal String.length) in Heq.
      rewrite append_nil_l, append_cons in Heq. simpl in Heq.
      rewrite length_append in Heq. lia.
    + rewrite !append_cons in Heq. injection Heq as -> Heq.
      f_equal. now apply IH.
Qed.

Lemma append_cancel_l s : forall t1 t2, s +:+ t1 = s +:+ t2 -> t1 = t2.
Proof.
  induction s as [|c s IH]; intros t1 t2 Heq; [exact Heq |].
  rewrite !append_cons in Heq. injection Heq as Heq. now apply IH.
Qed.

Lemma code_inj a b : code a = code b -> a = b.
Proof.
  unfold code. intros Heq. apply N2Z.inj in Heq.
  rewrite <- (ascii_N_embedding a), <- (ascii_N_embedding b). now f_equal.
Qed.

Lemma bytes_inj : forall s1 s2, Hex.bytes s1 = Hex.bytes s2 -> s1 = s2.
Proof.
  induction s1 as [|a s1 IH]; intros [|b s2] Heq; simpl in Heq;
    try discriminate; [reflexivity |].
  injection Heq as Hc Hr. apply code_inj in Hc. subst b.
  f_equal. now apply IH.
Qed.

Lemma unhex_hexDigit n : unhex (Hex.hexDigit n) = n mod 16.
Proof. unfold Hex.hexDigit. each_nibble n. Qed.

Lemma byte_of_digits b :
  isByte b -> b = 16 * unhex (Hex.hexDigit (b / 16)) + unhex (Hex.hexDigit b).
Proof.
  unfold isByte. intros Hb. rewrite !unhex_hexDigit.
  rewrite (Z.mod_small (b / 16)); [apply Z.div_mod; lia |].
  split; [apply Z.div_pos; lia | apply Z.div_lt_upper_bound; lia].
Qed.

Lemma EncodeToString_inj : forall l1 l2,
  Forall isByte l1 -> Forall isByte l2 ->
  Hex.EncodeToString l1 = Hex.EncodeToString l2 -> l1 = l2.
Proof.
  induction l1 as [|a l1 IH]; intros [|b l2] H1 H2 Heq;
    try discriminate; [reflexivity |].
  cbn [Hex.EncodeToString] in Heq. injection Heq as Hhi Hlo Hrest.
  inversion H1 as [|? ? Ha H1']; inversion H2 as [|? ? Hb H2']; subst.
  f_equal; [| now apply IH].
  rewrite (byte_of_digits a Ha), (byte_of_digits b Hb). now rewrite Hhi, Hlo.
Qed.

Lemma substring_EncodeToString n : forall l,
  substring 0 (2 * n) (Hex.EncodeToString l) = Hex.EncodeToString (firstn n l).
Proof.
  induction n as [|n IH]; intros l.
  { simpl. now destruct (Hex.EncodeToString l). }
  destruct l as [|b rest]; [reflexivity |].
  replace (2 * S n)%nat with (S (S (2 * n))) by lia.
  cbn [Hex.EncodeToString substring firstn]. now rewrite IH.
Qed.

Lemma isByte_bigEndian n x : Forall isByte (SHA256.bigEndian n x).
Proof.
  unfold SHA256.bigEndian. rewrite Forall_forall. intros b Hb.
  apply list_elem_of_In, in_map_iff in Hb as (i & <- & _).
  unfold isByte. apply Z.mod_pos_bound. lia.
Qed.

Lemma isByte_Sum256 data : Forall isByte (SHA256.Sum256 data).
Proof.
  unfold SHA256.Sum256, SHA256.digest. cbn [flat_map].
  repeat (apply Forall_app; split); try apply isByte_bigEndian.
  constructor.
Qed.

(** Two fingerprints are equal exactly when the two digests agree on
    their first six bytes. *)
Lemma FunctionHash_eq_iff fn1 fn2 :
  FunctionHash fn1 = FunctionHash fn2 <-> digest48 fn1 = digest48 fn2.
Proof.
  unfold FunctionHash, digest48, HashLength.
  change 12%nat with (2 * 6)%nat. rewrite !substring_EncodeToString.
  split; [| now intros ->].
  apply EncodeToString_inj; apply Forall_take, isByte_Sum256.
Qed.

(** With three fields fixed, the hashed string tells the fourth. *)
Lemma hashData_FilePath fn1 fn2 :
  Name fn1 = Name fn2 -> Content fn1 = Content fn2 -> Diff fn1 = Diff fn2 ->
  hashData fn1 = hashData fn2 -> FilePath fn1 = FilePath fn2.
Proof.
  unfold hashData. intros -> -> -> Heq.
  rewrite ?append_assoc in Heq. now apply append_cancel_r in Heq.
Qed.

Lemma hashData_Name fn1 fn2 :
  FilePath fn1 = FilePath fn2 -> Content fn1 = Content fn2 ->
  Diff fn1 = Diff fn2 ->
  hashData fn1 = hashData fn2 -> Name fn1 = Name fn2.
Proof.
  unfold hashData. intros -> -> -> Heq.
  rewrite ?append_assoc in Heq.
  apply append_cancel_l, append_cancel_l in Heq.
  now apply append_cancel_r in Heq.
Qed.

Lemma hashData_Content fn1 fn2 :
  FilePath fn1 = FilePath fn2 -> Name fn1 = Name fn2 ->
  Diff fn1 = Diff fn2 ->
  hashData fn1 = hashData fn2 -> Content fn1 = Content fn2.
Proof.
  unfold hashData. intros -> -> -> Heq.
  rewrite ?append_assoc in Heq.
  do 4 apply append_cancel_l in Heq.
  now apply append_cancel_r in Heq.
Qed.

Lemma hashData_Diff fn1 fn2 :
  FilePath fn1 = FilePath fn2 -> Name fn1 = Name fn2 ->
  Content fn1 = Content fn2 ->
  hashData fn1 = hashData fn2 -> Diff fn1 = Diff fn2.
Proof.
  unfold hashData. intros -> -> -> Heq.
  rewrite ?append_assoc in Heq.
  now do 6 apply append_cancel_l in Heq.
Qed.

(** The four fields: path, name, content and diff. *)
Lemma FunctionHash_collision : FunctionHash collideA = FunctionHash collideB.
Proof. vm_compute. reflexivity. Qed.

(** C2, as the design document states it, fails: the separator is the
    colon itself, so two functions whose path and name share a colon
    differently are hashed from the same string; and two functions that
    differ in their content alone have the same fingerprint. *)
Lemma FunctionHash_not_injective :
  ~ (forall fn1 fn2,
        FilePath fn1 = FilePath fn2 -> Name fn1 = Name fn2 ->
        Diff fn1 = Diff fn2 -> Content fn1 <> Content fn2 ->
        FunctionHash fn1 <> FunctionHash fn2)
  /\ hashData colonA = "a:b:c:x:"
  /\ hashData colonA = hashData colonB
  /\ FilePath colonA <> FilePath colonB
  /\ FunctionHash colonA = FunctionHash colonB.
Proof.
  split.
  { intros Hinj.
    apply (Hinj collideA collideB eq_refl eq_refl eq_refl);
      [discriminate | exact FunctionHash_collision]. }
  split; [reflexivity |]. split; [reflexivity |].
  split; [discriminate |].
  unfold FunctionHash. now replace (hashData colonB) with (hashData colonA).
Qed.

(** C2, amended.  [FunctionHash] joins the path, the name, the content and
    the diff with colons, hashes the bytes with SHA-256 and keeps the first
    twelve characters of the lowercase hexadecimal digest, which has
    sixty-four.  The result is
    always twelve lowercase hexadecimal digits and depends on those four
    fields only; changing one of the four with the other three fixed
    changes the bytes that are hashed, and two fingerprints differ unless
    the two digests agree on their first forty-eight bits. *)
Theorem FunctionHash_fingerprint :
  (forall fn,
      FunctionHash fn
      = substring 0 12
          (Hex.EncodeToString
             (SHA256.Sum256
                (Hex.bytes (FilePath fn +:+ ":" +:+ Name fn +:+ ":"
                            +:+ Content fn +:+ ":" +:+ Diff fn)))))
  /\ (forall fn,
         String.length
           (Hex.EncodeToString (SHA256.Sum256 (Hex.bytes (hashData fn))))
         = 64%nat)
  /\ (forall fn, validHash (FunctionHash fn) = true)
  /\ (forall fn1 fn2,
         FilePath fn1 = FilePath fn2 -> Name fn1 = Name fn2 ->
         Content fn1 = Content fn2 -> Diff fn1 = Diff fn2 ->
         FunctionHash fn1 = FunctionHash fn2)
  /\ (forall fn1 fn2,
         FilePath fn1 <> FilePath fn2 -> Name fn1 = Name fn2 ->
         Content fn1 = Content fn2 -> Diff fn1 = Diff fn2 ->
         Hex.bytes (hashData fn1) <> Hex.bytes (hashData fn2))
  /\ (forall fn1 fn2,
         Name fn1 <> Name fn2 -> FilePath fn1 = FilePath fn2 ->
         Content fn1 = Content fn2 -> Diff fn1 = Diff fn2 ->
         Hex.bytes (hashData fn1) <> Hex.bytes (hashData fn2))
  /\ (forall fn1 fn2,
         Content fn1 <> Content fn2 -> FilePath fn1 = FilePath fn2 ->
         Name fn1 = Name fn2 -> Diff fn1 = Diff fn2 ->
         Hex.bytes (hashData fn1) <> Hex.bytes (hashData fn2))
  /\ (forall fn1 fn2,
         Diff fn1 <> Diff fn2 -> FilePath fn1 = FilePath fn2 ->
         Name fn1 = Name fn2 -> Content fn1 = Content fn2 ->
         Hex.bytes (hashData fn1) <> Hex.bytes (hashData fn2))
  /\ (forall fn1 fn2,
         FunctionHash fn1 = FunctionHash fn2 <-> digest48 fn1 = digest48 fn2).
Proof.
  split; [reflexivity |].
  split; [intros fn; now rewrite length_EncodeToString, length_Sum256 |].
  split; [exact validHash_FunctionHash |].
  split.
  { intros fn1 fn2 Hp Hn Hc Hd. unfold FunctionHash, hashData.
    now rewrite Hp, Hn, Hc, Hd. }
  split; [| split; [| split; [| split; [| exact FunctionHash_eq_iff]]]];
    intros fn1 fn2 Hne H1 H2 H3 Hb;
    apply bytes_inj in Hb; apply Hne.
  - now apply hashData_FilePath.
  - now apply hashData_Name.
  - now apply hashData_Content.
  - now apply hashData_Diff.
Qed.

Lemma FunctionHash_fingerprint_witness :
  Hex.bytes (hashData collideA) <> Hex.bytes (hashData collideB)
  /\ FunctionHash collideA = FunctionHash collideA.
Proof.
  split.
  - apply (proj1 (proj2 (proj2 (proj2 (proj2 (proj2 (proj2
             FunctionHash_fingerprint)))))) collideA collideB);
      [discriminate | reflexivity ..].
  - apply (proj1 (proj2 (proj2 (proj2 FunctionHash_fingerprint))));
      reflexivity.
Defined.

(** *** The tracker *)

Lemma member_In h hs : member h hs = true <-> In h hs.
Proof.
  unfold member. rewrite existsb_exists. split.
  - intros (x & Hin & Heq). apply String.eqb_eq in Heq. now subst x.
  - intros Hin. exists h. split; [exact Hin | apply String.eqb_refl].
Qed.

Lemma hashesOf_cons c comments :
  hashesOf (c :: comments)
  = if negb (String.eqb (rcHash c) "") then rcHash c :: hashesOf comments
    else hashesOf comments.
Proof. reflexivity. Qed.

Lemma In_hashesOf comments k :
  In k (hashesOf comments)
  <-> k <> "" /\ exists c, In c comments /\ rcHash c = k.
Proof.
  unfold hashesOf. rewrite List.filter_In, in_map_iff, negb_true_iff.
  rewrite String.eqb_neq. split.
  - intros ((c & Hc & Hin) & Hne). split; [exact Hne |]. now exists c.
  - intros (Hne & c & Hin & Hc). split; [now exists c | exact Hne].
Qed.

(** The reviewed-set after loading: the keys of before, and the non-empty
    [Hash] fields. *)
Lemma LoadFromComments_lookup comments : forall t k,
  reviewed (LoadFromComments t comments) !! k
  = if member k (hashesOf comments) then Some true else reviewed t !! k.
Proof.
  unfold LoadFromComments.
  induction comments as [|c rest IH]; intros t k; [reflexivity |].
  cbn [fold_left]. rewrite IH, hashesOf_cons. unfold loadComment.
  destruct (negb (String.eqb (rcHash c) "")) eqn:Hne; [| reflexivity].
  unfold member. cbn [existsb reviewed].
  destruct (existsb (String.eqb k) (hashesOf rest)).
  { now rewrite orb_true_r. }
  rewrite orb_false_r, lookup_insert.
  destruct (String.eqb_spec k (rcHash c)) as [-> | Hk].
  - now rewrite decide_True.
  - now rewrite decide_False by congruence.
Qed.

Lemma IsReviewed_loaded comments fn :
  IsReviewed (LoadFromComments NewTracker comments) fn
  = member (FunctionHash fn) (hashesOf comments).
Proof.
  unfold IsReviewed. rewrite LoadFromComments_lookup.
  destruct (member (FunctionHash fn) (hashesOf comments)); [reflexivity |].
  unfold NewTracker. cbn [reviewed]. now rewrite lookup_empty.
Qed.

Lemma dom_loaded comments :
  dom (reviewed (LoadFromComments NewTracker comments))
  = (list_to_set (hashesOf comments) : gset string).
Proof.
  apply set_eq. intros k.
  rewrite elem_of_dom, elem_of_list_to_set, list_elem_of_In, <- member_In.
  rewrite LoadFromComments_lookup.
  destruct (member k (hashesOf comments)).
  - split; [reflexivity | intros _; now exists true].
  - unfold NewTracker. cbn [reviewed]. rewrite lookup_empty.
    split; [intros [x Hx]; discriminate | discriminate].
Qed.

Lemma ReviewedCount_loaded comments :
  ReviewedCount (LoadFromComments NewTracker comments)
  = Z.of_nat (size (list_to_set (hashesOf comments) : gset string)).
Proof.
  unfold ReviewedCount. now rewrite <- dom_loaded, size_dom.
Qed.

Lemma filterSteps_spec t functions : forall result,
  fold_left (filterStep t) functions result
  = result ++ List.filter (fun fn => negb (IsReviewed t fn)) functions.
Proof.
  induction functions as [|fn rest IH]; intros result.
  { simpl. now rewrite app_nil_r. }
  cbn [fold_left List.filter]. rewrite IH. unfold filterStep.
  destruct (negb (IsReviewed t fn)); [| reflexivity].
  now rewrite <- app_assoc.
Qed.

Lemma FilterUnreviewed_filter t functions :
  FilterUnreviewed t functions
  = List.filter (fun fn => negb (IsReviewed t fn)) functions.
Proof. unfold FilterUnreviewed. now rewrite filterSteps_spec. Qed.

Lemma filter_sublist {A : Type} (p : A -> bool) (l : list A) :
  sublist (List.filter p l) l.
Proof.
  induction l as [|x l IH]; [constructor |]. simpl.
  destruct (p x); now constructor.
Qed.

(** C5, as the design document states it, fails: when no function of the
    list was reviewed, [FilterUnreviewed] returns the whole list, which is
    no strict subset of it. *)
Lemma FilterUnreviewed_not_strict :
  FilterUnreviewed (LoadFromComments NewTracker [otherComment]) [collideA]
  = [collideA]
  /\ ~ strictSubset
         (FilterUnreviewed (LoadFromComments NewTracker [otherComment])
            [collideA])
         [collideA].
Proof.
  assert (Hall : FilterUnreviewed (LoadFromComments NewTracker [otherComment])
                   [collideA] = [collideA]).
  { rewrite FilterUnreviewed_filter. cbn [List.filter].
    rewrite IsReviewed_loaded.
    replace (member (FunctionHash collideA) (hashesOf [otherComment]))
      with false by (vm_compute; reflexivity).
    reflexivity. }
  split; [exact Hall |].
  rewrite Hall. intros (_ & x & Hin & Hout). now apply Hout.
Qed.

(** C5, amended.  [FilterUnreviewed] returns the functions of its input
    for which [IsReviewed] is false, in the order of the input: a sublist
    of the input, all of it when nothing was reviewed.  For a tracker
    loaded from comments, the functions it removes are exactly those whose
    fingerprint is one of the non-empty [Hash] fields of the comments. *)
Theorem FilterUnreviewed_keeps_unreviewed :
  (forall t functions,
      FilterUnreviewed t functions
      = List.filter (fun fn => negb (IsReviewed t fn)) functions)
  /\ (forall t functions, sublist (FilterUnreviewed t functions) functions)
  /\ (forall t functions fn,
         In fn (FilterUnreviewed t functions)
         <-> In fn functions /\ IsReviewed t fn = false)
  /\ (forall comments fn,
         IsReviewed (LoadFromComments NewTracker comments) fn = true
         <-> In (FunctionHash fn) (hashesOf comments))
  /\ (forall comments functions fn,
         In fn (FilterUnreviewed (LoadFromComments NewTracker comments) functions)
         <-> In fn functions /\ ~ In (FunctionHash fn) (hashesOf comments)).
Proof.
  assert (Hin : forall t functions fn,
             In fn (FilterUnreviewed t functions)
             <-> In fn functions /\ IsReviewed t fn = false).
  { intros t functions fn.
    now rewrite FilterUnreviewed_filter, List.filter_In, negb_true_iff. }
  assert (Hrev : forall comments fn,
             IsReviewed (LoadFromComments NewTracker comments) fn = true
             <-> In (FunctionHash fn) (hashesOf comments)).
  { intros comments fn. now rewrite IsReviewed_loaded, member_In. }
  split; [exact FilterUnreviewed_filter |].
  split.
  { intros t functions. rewrite FilterUnreviewed_filter.
    apply filter_sublist. }
  split; [exact Hin |]. split; [exact Hrev |].
  intros comments functions fn. rewrite Hin, <- Hrev.
  now rewrite not_true_iff_false.
Qed.

Lemma reviewedComments_map existing :
  Cmd.reviewedComments existing = map Cmd.toReviewed existing.
Proof.
  unfold Cmd.reviewedComments.
  assert (Hacc : forall acc,
             fold_left (fun acc c => acc ++ [Cmd.toReviewed c]) existing acc
             = acc ++ map Cmd.toReviewed existing).
  { induction existing as [|c rest IH]; intros acc.
    - simpl. now rewrite app_nil_r.
    - cbn [fold_left map]. rewrite IH. now rewrite <- app_assoc. }
  apply Hacc.
Qed.

Lemma ReviewedCount_single path line hash body :
  hash <> "" ->
  ReviewedCount (LoadFromComments NewTracker
                   [mkReviewedComment path line hash body]) = 1.
Proof.
  intros Hne. rewrite ReviewedCount_loaded.
  unfold hashesOf. cbn [map rcHash List.filter].
  apply String.eqb_neq in Hne. rewrite Hne. cbn [negb list_to_set].
  now rewrite union_empty_r_L, size_singleton.
Qed.

Lemma validHash_nonempty g : validHash g = true -> g <> "".
Proof. intros Hv ->. discriminate. Qed.

Lemma In_hashes_existing existing k :
  In k (hashesOf (Cmd.reviewedComments existing))
  <-> k <> "" /\ exists e, In e existing /\ ExtractHash (ecBody e) = k.
Proof.
  rewrite In_hashesOf, reviewedComments_map. split.
  - intros (Hne & c & Hc & Hk). split; [exact Hne |].
    apply in_map_iff in Hc as (e & <- & He). now exists e.
  - intros (Hne & e & He & Hk). split; [exact Hne |].
    exists (Cmd.toReviewed e). split; [| exact Hk].
    apply in_map_iff. now exists e.
Qed.

Lemma IsReviewed_existing existing fn :
  IsReviewed (Cmd.buildTracker existing) fn = true
  <-> exists e, In e existing /\ ExtractHash (ecBody e) = FunctionHash fn.
Proof.
  unfold Cmd.buildTracker.
  rewrite IsReviewed_loaded, member_In, In_hashes_existing. split.
  - now intros [_ He].
  - intros He. split; [| exact He].
    apply validHash_nonempty, validHash_FunctionHash.
Qed.

Lemma buildTracker_lookup existing k :
  reviewed (Cmd.buildTracker existing) !! k = Some true
  <-> k <> "" /\ exists c, In c existing /\ ExtractHash (ecBody c) = k.
Proof.
  unfold Cmd.buildTracker. rewrite LoadFromComments_lookup.
  rewrite <- In_hashes_existing, <- member_In. cbn [NewTracker reviewed].
  rewrite lookup_empty.
  destruct (member k (hashesOf (Cmd.reviewedComments existing)));
    split; congruence.
Qed.

(** C10.  [LoadFromComments] puts into the reviewed-set exactly the
    non-empty [Hash] fields of the comments, whatever they are: no field
    is checked to be twelve hexadecimal digits, any non-empty string
    becomes a key and [ReviewedCount] counts it.  The check is the
    caller's: [runReview] fills [Hash] with [ExtractHash] of the comment
    body, so that the keys of the tracker it builds are exactly the
    hashes [ExtractHash] reads from the bodies of the existing comments,
    every one a valid fingerprint, and the marker of every comment is
    loaded. *)
Theorem LoadFromComments_takes_any_hash :
  (forall t comments k,
      reviewed (LoadFromComments t comments) !! k
      = if member k (hashesOf comments) then Some true else reviewed t !! k)
  /\ (forall comments k,
         member k (hashesOf comments) = true
         <-> k <> "" /\ exists c, In c comments /\ rcHash c = k)
  /\ (forall comments,
         dom (reviewed (LoadFromComments NewTracker comments))
         = (list_to_set (hashesOf comments) : gset string))
  /\ (forall comments,
         ReviewedCount (LoadFromComments NewTracker comments)
         = Z.of_nat (size (list_to_set (hashesOf comments) : gset string)))
  /\ (forall path line hash body,
         hash <> "" ->
         reviewed (LoadFromComments NewTracker
                     [mkReviewedComment path line hash body]) !! hash
         = Some true
         /\ ReviewedCount (LoadFromComments NewTracker
                             [mkReviewedComment path line hash body]) = 1)
  /\ (validHash (rcHash oddComment) = false
      /\ ReviewedCount (LoadFromComments NewTracker [oddComment]) = 1)
  /\ (forall existing k,
         In k (hashesOf (Cmd.reviewedComments existing)) ->
         validHash k = true
         /\ exists c, In c existing /\ ExtractHash (ecBody c) = k)
  /\ (forall existing,
         Cmd.reviewedComments existing
         = map (fun c => mkReviewedComment (ecPath c) (ecLine c)
                           (ExtractHash (ecBody c)) (ecBody c))
             existing)
  /\ (forall existing k,
         In k (hashesOf (Cmd.reviewedComments existing))
         <-> k <> "" /\ exists c, In c existing /\ ExtractHash (ecBody c) = k)
  /\ (forall existing k,
         reviewed (Cmd.buildTracker existing) !! k = Some true
         <-> k <> "" /\ exists c, In c existing /\ ExtractHash (ecBody c) = k)
  /\ (forall existing c h pre post,
         In c existing -> validHash h = true -> noOpening pre = true ->
         ecBody c = pre +:+ FormatHashMarker h +:+ post ->
         reviewed (Cmd.buildTracker existing) !! h = Some true)
  /\ (forall existing fn,
         IsReviewed (Cmd.buildTracker existing) fn = true
         <-> exists c, In c existing
                       /\ ExtractHash (ecBody c) = FunctionHash fn).
Proof.
  split; [intros t comments k; apply LoadFromComments_lookup |].
  split; [intros comments k; rewrite member_In; apply In_hashesOf |].
  split; [exact dom_loaded |]. split; [exact ReviewedCount_loaded |].
  split.
  { intros path line hash body Hne. split.
    - rewrite LoadFromComments_lookup.
      replace (member hash (hashesOf [mkReviewedComment path line hash body]))
        with true; [reflexivity |].
      symmetry. apply member_In, In_hashesOf. split; [exact Hne |].
      eexists. split; [now left | reflexivity].
    - now apply ReviewedCount_single. }
  split.
  { split; [reflexivity |]. now apply ReviewedCount_single. }
  split.
  { intros existing k Hin. rewrite reviewedComments_map in Hin.
    apply In_hashesOf in Hin as (Hne & c & Hc & Hk).
    apply in_map_iff in Hc as (ec & <- & Hec).
    cbn [Cmd.toReviewed rcHash] in Hk.
    split; [| now exists ec].
    subst k. destruct (ExtractHash_total (ecBody ec)) as [Hempty | [Hv _]];
      [congruence | exact Hv]. }
  split; [exact reviewedComments_map |].
  split; [exact In_hashes_existing |].
  split; [exact buildTracker_lookup |].
  split; [| exact IsReviewed_existing].
  intros existing c h pre post Hc Hv Hpre Hbody.
  apply buildTracker_lookup. split; [now apply validHash_nonempty |].
  exists c. split; [exact Hc |]. rewrite Hbody.
  unfold ExtractHash. rewrite (noOpening_skipped pre _ Hpre).
  rewrite (FindStringSubmatch_here _ h); [reflexivity |].
  apply matchHere_iff. split; [exact Hv | now exists post].
Qed.

Lemma LoadFromComments_takes_any_hash_witness :
  (reviewed (LoadFromComments NewTracker
               [mkReviewedComment "a.go" 1 "zz" "text"]) !! "zz" = Some true
   /\ ReviewedCount (LoadFromComments NewTracker
                       [mkReviewedComment "a.go" 1 "zz" "text"]) = 1)
  /\ (validHash "abc123def456" = true
      /\ exists c,
          In c [mkExistingComment "a.go" 1
                  "Fine. <!-- ainspector:fn:abc123def456 -->"]
          /\ ExtractHash (ecBody c) = "abc123def456")
  /\ reviewed (Cmd.buildTracker
                 [mkExistingComment "a.go" 1
                    ("Fine. " +:+ FormatHashMarker "abc123def456" +:+ "")])
     !! "abc123def456" = Some true.
Proof.
  split; [| split].
  - apply (proj1 (proj2 (proj2 (proj2 (proj2
             LoadFromComments_takes_any_hash))))). discriminate.
  - apply (proj1 (proj2 (proj2 (proj2 (proj2 (proj2 (proj2
             LoadFromComments_takes_any_hash))))))).
    rewrite reviewedComments_map. vm_compute. now left.
  - apply (proj1 (proj2 (proj2 (proj2 (proj2 (proj2 (proj2 (proj2 (proj2
             (proj2 (proj2 LoadFromComments_takes_any_hash))))))))))
             _ (mkExistingComment "a.go" 1
                  ("Fine. " +:+ FormatHashMarker "abc123def456" +:+ ""))
             "abc123def456" "Fine. " "").
    + now left.
    + reflexivity.
    + reflexivity.
    + reflexivity.
Defined.

End CacheFacts.

(* ===================================================================== *)
(** ** The change correlator *)
(* ===================================================================== *)

Module ExtractorFacts.
Import GoStrings Extractor ExtractorSpec.

Section WithCollaborators.
Context `{DiffLib} `{Provider} `{SourceParser}.
Variable config : option Config.

Lemma extractFunctions_ofFile file modifiedLines language functions :
  forall result,
    Forall (ofFile file) result ->
    Forall (ofFile file)
      (fold_left (extractFunction file modifiedLines language) functions result).
Proof.
  induction functions as [|fn rest IH]; intros result Hres; [exact Hres |].
  cbn [fold_left]. apply IH. unfold extractFunction.
  destruct (Diff.HasModifiedLineInRange modifiedLines (fnStartLine fn)
              (fnEndLine fn)); [| exact Hres].
  apply Forall_app. split; [exact Hres |].
  constructor; [| constructor]. split; reflexivity.
Qed.

Lemma extractFromFile_ofFile file functions :
  extractFromFile file = Ok functions -> Forall (ofFile file) functions.
Proof.
  unfold extractFromFile.
  destruct (GetFileContent (Path file)) as [content | e]; [| discriminate].
  destruct (Diff.ParsePatch (Patch file)) as [modifiedLines | e];
    [| discriminate].
  destruct (Parse (Path file) content) as [[fns language] | e];
    [| discriminate].
  intros [= <-]. apply extractFunctions_ofFile. constructor.
Qed.

(** A turn of the loop over the files appends what the file gives. *)
Lemma extractStep_app result file :
  extractStep config result file = result ++ extractStep config [] file.
Proof.
  unfold extractStep.
  destruct (String.eqb (Status file) "deleted"); [now rewrite app_nil_r |].
  destruct (match config with
            | Some cfg => @ShouldIgnore cfg (Path file)
            | None => false
            end); [now rewrite app_nil_r |].
  destruct (negb (IsSupported (Path file))); [now rewrite app_nil_r |].
  destruct (extractFromFile file); [reflexivity | now rewrite app_nil_r].
Qed.

Lemma extractSteps_flat_map files : forall result,
  fold_left (extractStep config) files result
  = result ++ flat_map (extractStep config []) files.
Proof.
  induction files as [|file rest IH]; intros result.
  { simpl. now rewrite app_nil_r. }
  cbn [fold_left flat_map]. rewrite IH, extractStep_app.
  now rewrite <- app_assoc.
Qed.

Lemma extractStep_deleted file :
  Status file = "deleted" -> extractStep config [] file = [].
Proof. intros Hd. unfold extractStep. now rewrite Hd. Qed.

Lemma extractStep_ofFile file fn :
  In fn (extractStep config [] file) ->
  Status file <> "deleted" /\ ofFile file fn.
Proof.
  unfold extractStep.
  destruct (String.eqb_spec (Status file) "deleted") as [Hd | Hd];
    [intros [] |].
  destruct (match config with
            | Some cfg => @ShouldIgnore cfg (Path file)
            | None => false
            end); [intros [] |].
  destruct (negb (IsSupported (Path file))); [intros [] |].
  destruct (extractFromFile file) as [functions | e] eqn:Hfile; [| intros []].
  cbn [app]. intros Hin. split; [exact Hd |].
  apply extractFromFile_ofFile in Hfile.
  rewrite Forall_forall in Hfile. apply Hfile. now apply list_elem_of_In.
Qed.

Lemma changeTypeOf_cases file :
  changeTypeOf file = "added" \/ changeTypeOf file = "modified".
Proof. unfold changeTypeOf. destruct (String.eqb (Status file) "added"); auto. Qed.

(** C8.  [ExtractModifiedFunctions] returns, file after file, what each
    file gives.  A file whose status is [deleted] gives nothing.  Every
    function a file gives carries the file's path and has the change type
    [added] when the status of the file is [added] and [modified]
    otherwise, so one of those two. *)
Theorem ChangeType_by_status :
  (forall files,
      ExtractModifiedFunctions config files
      = Ok (flat_map (extractStep config []) files))
  /\ (forall file,
         Status file = "deleted" -> extractStep config [] file = [])
  /\ (forall file fn,
         In fn (extractStep config [] file) ->
         Status file <> "deleted"
         /\ FilePath fn = Path file
         /\ ChangeType fn
            = (if String.eqb (Status file) "added" then "added" else "modified")
         /\ (ChangeType fn = "added" \/ ChangeType fn = "modified"))
  /\ (forall files functions fn,
         ExtractModifiedFunctions config files = Ok functions ->
         In fn functions ->
         exists file,
           In file files /\ Status file <> "deleted"
           /\ FilePath fn = Path file
           /\ ChangeType fn
              = (if String.eqb (Status file) "added" then "added"
                 else "modified")).
Proof.
  assert (Hall : forall files,
             ExtractModifiedFunctions config files
             = Ok (flat_map (extractStep config []) files)).
  { intros files. unfold ExtractModifiedFunctions.
    now rewrite extractSteps_flat_map. }
  split; [exact Hall |]. split; [exact extractStep_deleted |].
  split.
  { intros file fn Hin.
    destruct (extractStep_ofFile file fn Hin) as (Hd & Hp & Hc).
    repeat split; [exact Hd | exact Hp | exact Hc |].
    rewrite Hc. apply changeTypeOf_cases. }
  intros files functions fn Hok Hin. rewrite Hall in Hok.
  injection Hok as <-. apply in_flat_map in Hin as (file & Hfile & Hfn).
  destruct (extractStep_ofFile file fn Hfn) as (Hd & Hp & Hc).
  exists file. repeat split; assumption.
Qed.

End WithCollaborators.

Lemma ChangeType_by_status_witness :
  @extractStep PlainDiff.lib oneProvider oneParser None [] deletedFile = []
  /\ @extractStep PlainDiff.lib oneProvider oneParser None [] newFile
     = [wholeFunction]
  /\ (Status newFile <> "deleted"
      /\ FilePath wholeFunction = Path newFile
      /\ ChangeType wholeFunction
         = (if String.eqb (Status newFile) "added" then "added" else "modified")
      /\ (ChangeType wholeFunction = "added"
          \/ ChangeType wholeFunction = "modified")).
Proof.
  split; [| split].
  - apply (proj1 (proj2 (@ChangeType_by_status PlainDiff.lib oneProvider
                           oneParser None))).
    reflexivity.
  - vm_compute. reflexivity.
  - apply (proj1 (proj2 (proj2 (@ChangeType_by_status PlainDiff.lib oneProvider
                                   oneParser None))) newFile).
    vm_compute. now left.
Defined.

End ExtractorFacts.

(* ===================================================================== *)
(** ** The tests of the repository, run on the model *)
(* ===================================================================== *)

Module Tests.
Import GoStrings Diff Extractor Cache TestData.

Local Existing Instance PlainDiff.lib.

Example ParsePatch_EmptyPatch :
  ParsePatch "" = Ok (mkModifiedLines [] []).
Proof. reflexivity. Qed.

Example ParsePatch_DeletedLines :
  ParsePatch (text ["@@ -1,5 +1,3 @@"; " line1"; "-deleted1"; "-deleted2";
                    " line2"; " line3"])
  = Ok (mkModifiedLines [] [2; 3]).
Proof. vm_compute. reflexivity. Qed.

Example ParsePatch_MixedChanges :
  ParsePatch DiffSpec.scenarioB = Ok (mkModifiedLines [2] [2]).
Proof. vm_compute. reflexivity. Qed.

Example ParsePatch_MultipleHunks :
  ParsePatch (text ["@@ -1,3 +1,4 @@"; " line1"; "+added_at_2"; " line2";
                    " line3"; "@@ -10,3 +11,4 @@"; " line10"; "+added_at_12";
                    " line11"; " line12"])
  = Ok (mkModifiedLines [2; 12] []).
Proof. vm_compute. reflexivity. Qed.

Example ParsePatch_WithFullDiffHeaders :
  ParsePatch (text ["--- a/file.go"; "+++ b/file.go"; "@@ -1,3 +1,4 @@";
                    " line1"; "+added"; " line2"; " line3"])
  = Ok (mkModifiedLines [2] []).
Proof. vm_compute. reflexivity. Qed.

Example HasModifiedLineInRange_table :
  HasModifiedLineInRange (mkModifiedLines [5; 10; 15] []) 8 12 = true
  /\ HasModifiedLineInRange (mkModifiedLines [5] []) 5 10 = true
  /\ HasModifiedLineInRange (mkModifiedLines [10] []) 5 10 = true
  /\ HasModifiedLineInRange (mkModifiedLines [3] []) 5 10 = false
  /\ HasModifiedLineInRange (mkModifiedLines [15] []) 5 10 = false
  /\ HasModifiedLineInRange (mkModifiedLines [] []) 5 10 = false.
Proof. repeat split. Qed.

Example ExtractDiffForRange_NoOverlap :
  ExtractDiffForRange (text ["@@ -1,3 +1,4 @@"; " line1"; "+added"; " line2";
                             " line3"]) 100 200 = "".
Proof. vm_compute. reflexivity. Qed.

Example ExtractDiffForRange_FullOverlap :
  ExtractDiffForRange (text ["@@ -1,3 +1,4 @@"; " line1"; "+added_line";
                             " line2"; " line3"]) 1 10 = "+added_line".
Proof. vm_compute. reflexivity. Qed.

Example ExtractDiffForRange_PartialOverlap :
  ExtractDiffForRange (text ["@@ -1,5 +1,6 @@"; " line1"; "+added_at_2";
                             " line2"; "+added_at_4"; " line3"; " line4"]) 3 6
  = "+added_at_4".
Proof. vm_compute. reflexivity. Qed.

Example ExtractDiffForRange_MultipleHunks :
  ExtractDiffForRange
    (text ["@@ -1,3 +1,4 @@"; " line1"; "+added_first"; " line2"; " line3";
           "@@ -10,3 +11,4 @@"; " line10"; "+added_second"; " line11";
           " line12"]) 11 15
  = "+added_second".
Proof. vm_compute. reflexivity. Qed.

Example Sum256_vectors :
  Hex.EncodeToString (SHA256.Sum256 (Hex.bytes "abc"))
  = "ba7816bf8f01cfea414140de5dae2223b00361a396177a9cb410ff61f20015ad"
  /\ Hex.EncodeToString (SHA256.Sum256 [])
     = "e3b0c44298fc1c149afbf4c8996fb92427ae41e4649b934ca495991b7852b855"
  /\ Hex.EncodeToString (SHA256.Sum256 (repeat 97 56))
     = "b35439a4ac6f0948b6d6f9e3c6af0f5f590ce20f1bde7090ef7970686ec6738a"
  /\ Hex.EncodeToString (SHA256.Sum256 (repeat 97 119))
     = "31eba51c313a5c08226adf18d4a359cfdfd8d2e816b13f4af952f7ea6584dcfb".
Proof. repeat split; vm_compute; reflexivity. Qed.

Example TrimSpace_values :
  TrimSpace ("  a b " +:+ newline) = "a b"
  /\ TrimSpace (String "194" (String "160" ("x" +:+ String "226"
                  (String "128" (String "168" ""))))) = "x"
  /\ TrimSpace (String "194" "x") = String "194" "x".
Proof. repeat split. Qed.

Example FunctionHash_value :
  FunctionHash (testFunc "main.go" "func TestFunc() {}" "+func TestFunc() {}")
  = "02ad4b9e3787".
Proof. vm_compute. reflexivity. Qed.

Example FunctionHash_DifferentContent :
  FunctionHash (testFunc "main.go" "func TestFunc() {}" "+func TestFunc() {}")
  <> FunctionHash (testFunc "main.go" "func TestFunc() { return }"
                     "+func TestFunc() { return }").
Proof. vm_compute. discriminate. Qed.

Example FunctionHash_DifferentPath :
  FunctionHash (testFunc "main.go" "func TestFunc() {}" "+func TestFunc() {}")
  <> FunctionHash (testFunc "other.go" "func TestFunc() {}" "+func TestFunc() {}").
Proof. vm_compute. discriminate. Qed.

Example FunctionHash_DifferentDiff :
  FunctionHash (testFunc "main.go" "func TestFunc() { a := 1; b := 2 }" "+a := 1")
  <> FunctionHash (testFunc "main.go" "func TestFunc() { a := 1; b := 2 }"
                     "+b := 2").
Proof. vm_compute. discriminate. Qed.

Example FormatHashMarker_value :
  FormatHashMarker "abc123def456" = "<!-- ainspector:fn:abc123def456 -->".
Proof. reflexivity. Qed.

Example ExtractHash_ValidMarker :
  ExtractHash (text ["Some review comment"; "";
                     "<!-- ainspector:fn:abc123def456 -->"]) = "abc123def456"
  /\ ExtractHash "Comment <!-- ainspector:fn:123456789abc --> more text"
     = "123456789abc"
  /\ ExtractHash "<!-- ainspector:fn:fedcba987654 -->" = "fedcba987654".
Proof. repeat split. Qed.

Example ExtractHash_NoMarker :
  ExtractHash "" = ""
  /\ ExtractHash "Just a regular comment" = ""
  /\ ExtractHash "<!-- ainspector:fn: -->" = ""
  /\ ExtractHash "<!-- other:fn:abc123def456 -->" = ""
  /\ ExtractHash "<!-- ainspector:fn:abc123 -->" = "".
Proof. repeat split. Qed.

Example Tracker_LoadFromComments :
  ReviewedCount
    (LoadFromComments NewTracker
       [mkReviewedComment "main.go" 10 "abc123def456" "Review 1";
        mkReviewedComment "main.go" 20 "fedcba987654" "Review 2";
        mkReviewedComment "other.go" 5 "" "Comment without hash"]) = 2.
Proof. vm_compute. reflexivity. Qed.

Example Tracker_FilterUnreviewed :
  FilterUnreviewed
    (LoadFromComments NewTracker
       [mkReviewedComment "" 0 (FunctionHash func1) ""]) [func1; func2]
  = [func2].
Proof. vm_compute. reflexivity. Qed.

Example Tracker_IsReviewed :
  IsReviewed NewTracker func1 = false
  /\ IsReviewed (LoadFromComments NewTracker
                   [mkReviewedComment "" 0 (FunctionHash func1) ""]) func1
     = true.
Proof. split; vm_compute; reflexivity. Qed.

Example ExtractModifiedFunctions_SkipsDeletedFiles :
  @ExtractModifiedFunctions _ ExtractorSpec.oneProvider ExtractorSpec.oneParser
    None
    [mkModifiedFile "deleted.go" "" "deleted"
       (text ["@@ -1,3 +0,0 @@"; "-line1"; "-line2"; "-line3"]) ""]
  = Ok [].
Proof. reflexivity. Qed.

End Tests.

(* ===================================================================== *)
(** ** Lists *)
(* ===================================================================== *)

Module ListFacts.

Lemma filter_sublist_impl {A : Type} (p q : A -> bool) (l : list A) :
  (forall x, p x = true -> q x = true) ->
  sublist (List.filter p l) (List.filter q l).
Proof.
  intros Hpq. induction l as [|x l IH]; [constructor |]. cbn [List.filter].
  destruct (p x) eqn:Hp.
  - rewrite (Hpq x Hp). now constructor.
  - destruct (q x); [now constructor | exact IH].
Qed.

Lemma filter_flat_map {A B : Type} (p : B -> bool) (f : A -> list B) l :
  List.filter p (flat_map f l) = flat_map (fun x => List.filter p (f x)) l.
Proof.
  induction l as [|x l IH]; [reflexivity |]. cbn [flat_map].
  now rewrite List.filter_app, IH.
Qed.

End ListFacts.

(* ===================================================================== *)
(** ** More of the diff range model *)
(* ===================================================================== *)

Module DiffMoreFacts.
Import GoStrings GoStringsFacts Diff DiffSpec DiffFacts DiffMore ListFacts.

(** [strings.Split] goes through a newline. *)
Lemma SplitLines_append a b :
  SplitLines (a +:+ newline +:+ b) = SplitLines a ++ SplitLines b.
Proof.
  induction a as [|c a IH].
  { rewrite append_nil_l. unfold newline. rewrite append_cons, append_nil_l.
    cbn [SplitLines]. pose proof (SplitLines_nonempty b) as Hb.
    destruct (SplitLines b) as [|h t]; [congruence |]. reflexivity. }
  rewrite append_cons. cbn [SplitLines]. rewrite IH.
  pose proof (SplitLines_nonempty a) as Ha.
  destruct (SplitLines a) as [|h t]; [congruence |]. cbn [app].
  destruct (Ascii.eqb c nl); reflexivity.
Qed.

Lemma In_withHistory pre l ls : forall p0,
  In (pre, l) (withHistory p0 ls) ->
  exists mid post, ls = mid ++ l :: post /\ pre = p0 ++ mid.
Proof.
  induction ls as [|x rest IH]; intros p0 Hin; [destruct Hin |].
  cbn [withHistory] in Hin. destruct Hin as [[= <- <-] | Hin].
  - exists [], rest. now rewrite app_nil_r.
  - destruct (IH _ Hin) as (mid & post & -> & ->).
    exists (x :: mid), post. now rewrite <- app_assoc.
Qed.

Lemma countIf_app p xs ys : countIf p (xs ++ ys) = countIf p xs + countIf p ys.
Proof. unfold countIf. rewrite List.filter_app, length_app. lia. Qed.

Lemma countIf_nonneg p xs : 0 <= countIf p xs.
Proof. apply countIf_bounds. Qed.

Lemma newCounter_mono h pre ls : newCounter h pre <= newCounter h (pre ++ ls).
Proof.
  unfold newCounter. rewrite countIf_app.
  pose proof (countIf_nonneg (fun l => isAdded l || isContext l) ls). lia.
Qed.

(** The numbers a body records from a position on: ascending, from the
    counter at that position, below the counter at the end. *)
Lemma added_from_sorted h ls : forall pre,
  StronglySorted Z.lt
    (map (fun pl => newCounter h (fst pl))
       (List.filter (fun pl => isAdded (snd pl)) (withHistory pre ls)))
  /\ Forall (fun n => newCounter h pre <= n < newCounter h (pre ++ ls))
       (map (fun pl => newCounter h (fst pl))
          (List.filter (fun pl => isAdded (snd pl)) (withHistory pre ls))).
Proof.
  induction ls as [|l rest IH]; intros pre.
  { split; constructor. }
  destruct (IH (pre ++ [l])) as [Hs Hb].
  rewrite <- app_assoc in Hb. cbn [app] in Hb.
  rewrite newCounter_snoc in Hb.
  cbn [withHistory List.filter snd].
  assert (Hstep : 0 <= (if isAdded l || isContext l then 1 else 0))
    by (destruct (isAdded l || isContext l); lia).
  destruct (isAdded l) eqn:Hl; cbn [map fst].
  - cbn [orb] in Hb. split.
    + constructor; [exact Hs |].
      eapply Forall_impl; [exact Hb |]. cbn. intros n Hn. lia.
    + constructor.
      * assert (Hlt : newCounter h pre < newCounter h (pre ++ l :: rest)).
        { replace (pre ++ l :: rest) with ((pre ++ [l]) ++ rest)
            by now rewrite <- app_assoc.
          pose proof (newCounter_mono h (pre ++ [l]) rest) as Hmono.
          rewrite newCounter_snoc, Hl in Hmono. cbn [orb] in Hmono. lia. }
        lia.
      * eapply Forall_impl; [exact Hb |]. cbn. intros n Hn. lia.
  - split; [exact Hs |].
    eapply Forall_impl; [exact Hb |]. cbn. intros n Hn.
    destruct (isContext l); lia.
Qed.

Lemma addedOf_sorted h :
  StronglySorted Z.lt (addedOf h)
  /\ Forall (fun n => NewStartLine h <= n < NewStartLine h + newSpan h)
       (addedOf h).
Proof.
  destruct (added_from_sorted h (SplitLines (Body h)) []) as [Hs Hb].
  split; [exact Hs |]. cbn [app] in Hb.
  unfold newCounter at 1 in Hb. rewrite countIf_nil, Z.add_0_r in Hb.
  exact Hb.
Qed.

Lemma StronglySorted_lt_app xs ys bound :
  StronglySorted Z.lt xs -> StronglySorted Z.lt ys ->
  Forall (fun n => n < bound) xs -> Forall (fun n => bound <= n) ys ->
  StronglySorted Z.lt (xs ++ ys).
Proof.
  intros Hx Hy Hbx Hby. induction Hx as [|x xs Hxs IH Hall]; [exact Hy |].
  inversion Hbx as [|? ? Hxb Hbx']; subst. cbn [app].
  constructor; [now apply IH |].
  apply Forall_app. split; [exact Hall |].
  eapply Forall_impl; [exact Hby |]. cbn. intros n Hn. lia.
Qed.

Lemma ascending_added hs : forall lo,
  ascendingFrom lo hs ->
  StronglySorted Z.lt (flat_map addedOf hs)
  /\ Forall (fun n => lo <= n) (flat_map addedOf hs).
Proof.
  induction hs as [|h rest IH]; intros lo Hasc.
  { split; constructor. }
  destruct Hasc as [Hlo Hrest]. destruct (IH _ Hrest) as [Hs Hb].
  destruct (addedOf_sorted h) as [Hhs Hhb]. cbn [flat_map]. split.
  - apply (StronglySorted_lt_app _ _ (NewStartLine h + newSpan h));
      [exact Hhs | exact Hs | |exact Hb].
    eapply Forall_impl; [exact Hhb |]. cbn. intros n Hn. lia.
  - apply Forall_app. split.
    + eapply Forall_impl; [exact Hhb |]. cbn. intros n Hn. lia.
    + eapply Forall_impl; [exact Hb |]. cbn. intros n Hn.
      pose proof (countIf_nonneg advancing (SplitLines (Body h))).
      unfold newSpan in Hn. lia.
Qed.

Lemma ParsePatch_parsed `{DiffLib} patch fds :
  parsesTo patch fds ->
  ParsePatch patch
  = Ok (mkModifiedLines (flat_map addedOf (allHunks fds))
                        (flat_map deletedOf (allHunks fds))).
Proof.
  intros (Hne & Hp & Hwt). unfold ParsePatch.
  apply String.eqb_neq in Hne. rewrite Hne, Hp.
  now rewrite parseFiles_spec by assumption.
Qed.

(** X1.  When the hunks of a patch come in ascending order and share no
    line of the new file, none before line [lo], the numbers [ParsePatch]
    returns in [Added] are strictly ascending and none is below [lo]. *)
Theorem ParsePatch_Added_ascending `{DiffLib} patch fds lo m :
  parsesTo patch fds ->
  ascendingFrom lo (allHunks fds) ->
  ParsePatch patch = Ok m ->
  StronglySorted Z.lt (Added m) /\ Forall (fun n => lo <= n) (Added m).
Proof.
  intros Hp Hasc Hm. rewrite (ParsePatch_parsed _ _ Hp) in Hm.
  injection Hm as <-. cbn [Added]. now apply ascending_added.
Qed.

Lemma ParsePatch_Added_ascending_witness :
  StronglySorted Z.lt [2; 3; 12] /\ Forall (fun n => 1 <= n) [2; 3; 12].
Proof.
  apply (@ParsePatch_Added_ascending PlainDiff.lib twoHunks
           [mkFileDiff [hunkA; hunkD]] 1 (mkModifiedLines [2; 3; 12] [])).
  - split; [discriminate |]. split; [vm_compute; reflexivity |].
    repeat constructor; vm_compute; discriminate.
  - vm_compute. repeat split; discriminate.
  - vm_compute. reflexivity.
Defined.

Lemma ExtractDiffForRange_parsed `{DiffLib} patch fds s e :
  parsesTo patch fds -> GoInt.in_range e ->
  ExtractDiffForRange patch s e = TrimSpace (written (scopedLines s e fds)).
Proof.
  intros (Hne & Hp & Hwt) He. unfold ExtractDiffForRange.
  apply String.eqb_neq in Hne.
  rewrite Hne, Hp, extractFiles_spec by assumption.
  now rewrite append_nil_l.
Qed.

Lemma within_widen s e s' e' n :
  s' <= s -> e <= e' -> within s e n = true -> within s' e' n = true.
Proof. rewrite !within_iff. lia. Qed.

Lemma emits_widen s e s' e' h pl :
  s' <= s -> e <= e' -> emits s e h pl = true -> emits s' e' h pl = true.
Proof.
  intros Hs He. unfold emits.
  cbv zeta.
  rewrite !orb_true_iff, !andb_true_iff, !orb_true_iff, !within_iff.
  intuition lia.
Qed.

Lemma emittedOf_widen s e s' e' h :
  s' <= s -> e <= e' ->
  sublist (emittedOf s e h) (emittedOf s' e' h).
Proof.
  intros Hs He. unfold emittedOf.
  destruct (overlaps s e h) eqn:Ho; [| apply sublist_nil_l].
  assert (Ho' : overlaps s' e' h = true).
  { unfold overlaps in *. rewrite andb_true_iff, !Z.leb_le in *. lia. }
  rewrite Ho'. apply (fmap_sublist snd), filter_sublist_impl.
  intros pl. now apply emits_widen.
Qed.

Lemma scopedLines_widen s e s' e' fds :
  s' <= s -> e <= e' ->
  sublist (scopedLines s e fds) (scopedLines s' e' fds).
Proof.
  intros Hs He. unfold scopedLines.
  induction (allHunks fds) as [|h rest IH]; [constructor |].
  cbn [flat_map]. apply sublist_app; [now apply emittedOf_widen | exact IH].
Qed.

(** X2.  Narrowing the range never selects a line that the wider range
    does not select: the lines [ExtractDiffForRange] writes for a range are,
    in their order, among the lines it writes for any range around it. *)
Theorem ExtractDiffForRange_narrowing `{DiffLib} patch fds s e s' e' :
  parsesTo patch fds -> GoInt.in_range e -> GoInt.in_range e' ->
  s' <= s -> e <= e' ->
  ExtractDiffForRange patch s e
  = TrimSpace (Join (scopedLines s e fds) newline)
  /\ ExtractDiffForRange patch s' e'
     = TrimSpace (Join (scopedLines s' e' fds) newline)
  /\ sublist (scopedLines s e fds) (scopedLines s' e' fds).
Proof.
  intros Hp He He' Hs Hee.
  rewrite !(ExtractDiffForRange_parsed patch fds) by assumption.
  rewrite !TrimSpace_written.
  split; [reflexivity |]. split; [reflexivity |].
  now apply scopedLines_widen.
Qed.

Lemma ExtractDiffForRange_narrowing_witness :
  @ExtractDiffForRange PlainDiff.lib twoHunks 3 11
  = TrimSpace (Join (scopedLines 3 11 [mkFileDiff [hunkA; hunkD]]) newline)
  /\ @ExtractDiffForRange PlainDiff.lib twoHunks 1 20
     = TrimSpace (Join (scopedLines 1 20 [mkFileDiff [hunkA; hunkD]]) newline)
  /\ sublist (scopedLines 3 11 [mkFileDiff [hunkA; hunkD]])
       (scopedLines 1 20 [mkFileDiff [hunkA; hunkD]]).
Proof.
  apply (@ExtractDiffForRange_narrowing PlainDiff.lib).
  - split; [discriminate |]. split; [vm_compute; reflexivity |].
    repeat constructor; vm_compute; discriminate.
  - vm_compute. split; discriminate.
  - vm_compute. split; discriminate.
  - lia.
  - lia.
Defined.

(** *** A touched range has a diff *)

Lemma anyChar_append p a b : anyChar p (a +:+ b) = anyChar p a || anyChar p b.
Proof.
  induction a as [|c a IH]; [reflexivity |].
  rewrite append_cons. cbn [anyChar]. now rewrite IH, orb_assoc.
Qed.

Lemma anyChar_rev_onto p s : forall acc,
  anyChar p (rev_onto s acc) = anyChar p s || anyChar p acc.
Proof.
  induction s as [|c s IH]; intros acc; [reflexivity |].
  cbn [rev_onto anyChar]. rewrite IH. cbn [anyChar].
  destruct (p c), (anyChar p s), (anyChar p acc); reflexivity.
Qed.

Lemma anyChar_reverse p s : anyChar p (reverse s) = anyChar p s.
Proof. unfold reverse. rewrite anyChar_rev_onto. cbn. apply orb_false_r. Qed.

Lemma solid_low c : solid c = true -> asciiSpace c = false /\ code c < 128.
Proof.
  unfold solid. rewrite andb_true_iff, negb_true_iff, Z.ltb_lt. tauto.
Qed.

Lemma space2_high a b : space2 a b = true -> 128 <= code a /\ 128 <= code b.
Proof.
  unfold space2.
  rewrite andb_true_iff, orb_true_iff, !Z.eqb_eq. lia.
Qed.

Lemma space3_high a b c :
  space3 a b c = true -> 128 <= code a /\ 128 <= code b /\ 128 <= code c.
Proof.
  unfold space3.
  rewrite !orb_true_iff, !andb_true_iff, !orb_true_iff, !andb_true_iff,
    !Z.eqb_eq, !Z.leb_le. lia.
Qed.

(** Trimming takes white space only: an ASCII character that is no white
    space stays. *)
Lemma trimFront_solid p2 p3 :
  (forall a b, p2 a b = true -> 128 <= code a /\ 128 <= code b) ->
  (forall a b c, p3 a b c = true ->
                 128 <= code a /\ 128 <= code b /\ 128 <= code c) ->
  forall s, anyChar solid s = true -> anyChar solid (trimFront p2 p3 s) = true.
Proof.
  intros H2 H3 s.
  remember (String.length s) as n eqn:Hn. revert s Hn.
  induction n as [n IH] using lt_wf_ind. intros s Hn Hs.
  destruct s as [|c r]; [discriminate |].
  cbn [trimFront]. simpl in Hn.
  destruct (asciiSpace c) eqn:Hc.
  { apply (IH (String.length r)); [lia | reflexivity |].
    cbn [anyChar] in Hs. unfold solid at 1 in Hs. rewrite Hc in Hs.
    exact Hs. }
  destruct r as [|d r2]; [exact Hs |].
  destruct (p2 c d) eqn:Hp2.
  { destruct (H2 _ _ Hp2) as [Hhc Hhd].
    apply (IH (String.length r2)); [simpl in Hn; lia | reflexivity |].
    cbn [anyChar] in Hs. unfold solid at 1 2 in Hs.
    apply Z.ltb_ge in Hhc, Hhd. rewrite Hhc, Hhd, !andb_false_r in Hs.
    exact Hs. }
  destruct r2 as [|e r3]; [exact Hs |].
  destruct (p3 c d e) eqn:Hp3; [| exact Hs].
  destruct (H3 _ _ _ Hp3) as (Hhc & Hhd & Hhe).
  apply (IH (String.length r3)); [simpl in Hn; lia | reflexivity |].
  cbn [anyChar] in Hs. unfold solid at 1 2 3 in Hs.
  apply Z.ltb_ge in Hhc, Hhd, Hhe.
  rewrite Hhc, Hhd, Hhe, !andb_false_r in Hs. exact Hs.
Qed.

Lemma TrimSpace_solid s :
  anyChar solid s = true -> anyChar solid (TrimSpace s) = true.
Proof.
  intros Hs. unfold TrimSpace, TrimRightSpace, TrimLeftSpace.
  rewrite anyChar_reverse. apply trimFront_solid.
  - intros a b Hp. apply space2_high in Hp. tauto.
  - intros a b c Hp. apply space3_high in Hp. tauto.
  - rewrite anyChar_reverse. apply trimFront_solid;
      [exact space2_high | exact space3_high | exact Hs].
Qed.

Lemma written_solid lines l :
  In l lines -> anyChar solid l = true -> anyChar solid (written lines) = true.
Proof.
  induction lines as [|x rest IH]; intros Hin Hl; [destruct Hin |].
  cbn [written]. rewrite !anyChar_append.
  destruct Hin as [-> | Hin].
  - now rewrite Hl.
  - rewrite (IH Hin Hl). apply orb_true_r.
Qed.

Lemma isAdded_solid l : isAdded l = true -> anyChar solid l = true.
Proof.
  destruct l as [|c r]; [discriminate |]. cbn [isAdded anyChar].
  intros Hc. apply Ascii.eqb_eq in Hc. now subst c.
Qed.

Lemma In_addedOf h n :
  In n (addedOf h) ->
  exists pre l, In (pre, l) (bodyLines h) /\ isAdded l = true
                /\ n = newCounter h pre.
Proof.
  unfold addedOf. rewrite in_map_iff. intros ([pre l] & <- & Hin).
  apply List.filter_In in Hin as [Hin Hl]. now exists pre, l.
Qed.

Lemma added_below_span h pre l :
  In (pre, l) (bodyLines h) -> isAdded l = true ->
  newCounter h pre < NewStartLine h + newSpan h.
Proof.
  unfold bodyLines. intros Hin Hl.
  apply In_withHistory in Hin as (mid & post & Hls & ->).
  unfold newSpan, newCounter, advancing. rewrite Hls. cbn [app].
  replace (mid ++ l :: post) with (mid ++ [l] ++ post) by reflexivity.
  rewrite !countIf_app.
  pose proof (countIf_nonneg (fun l => isAdded l || isContext l) post).
  assert (H1 : countIf (fun l => isAdded l || isContext l) [l] = 1).
  { unfold countIf. cbn [List.filter]. now rewrite Hl. }
  lia.
Qed.

Lemma touched_scoped fds s e :
  Forall consistent (allHunks fds) ->
  HasModifiedLineInRange
    (mkModifiedLines (flat_map addedOf (allHunks fds))
       (flat_map deletedOf (allHunks fds))) s e = true ->
  exists l, In l (scopedLines s e fds) /\ isAdded l = true.
Proof.
  intros Hcons Htouched.
  unfold HasModifiedLineInRange in Htouched. cbn [Added] in Htouched.
  apply existsb_exists in Htouched as (n & Hin & Hn).
  rewrite andb_true_iff, Z.geb_leb, !Z.leb_le in Hn.
  apply in_flat_map in Hin as (h & Hh & Hin).
  apply In_addedOf in Hin as (pre & l & Hbody & Hl & ->).
  pose proof (added_below_span h pre l Hbody Hl) as Hspan.
  pose proof (newCounter_mono h [] pre) as Hlow.
  unfold newCounter at 1 in Hlow. rewrite countIf_nil, Z.add_0_r in Hlow.
  cbn [app] in Hlow.
  rewrite Forall_forall in Hcons.
  assert (Hc : consistent h) by (apply Hcons; now apply list_elem_of_In).
  unfold consistent in Hc.
  exists l. split; [| exact Hl].
  unfold scopedLines. apply in_flat_map. exists h. split; [exact Hh |].
  unfold emittedOf.
  replace (overlaps s e h) with true
    by (symmetry; unfold overlaps; rewrite andb_true_iff, !Z.leb_le; lia).
  apply in_map_iff. exists (pre, l). split; [reflexivity |].
  apply List.filter_In. split; [exact Hbody |].
  unfold emits. cbn [fst snd]. rewrite Hl. cbn [andb].
  apply orb_true_iff. left. apply within_iff. lia.
Qed.

Lemma added_line_written lines l :
  In l lines -> isAdded l = true -> TrimSpace (written lines) <> "".
Proof.
  intros Hin Hl Hempty.
  pose proof (TrimSpace_solid _
                (written_solid _ _ Hin (isAdded_solid _ Hl))) as Hsolid.
  rewrite Hempty in Hsolid. discriminate.
Qed.

(** X3.  A range that [HasModifiedLineInRange] finds touched has a diff:
    when the count every hunk declares covers its body,
    [ExtractDiffForRange] does not return the empty string for it. *)
Theorem touched_range_has_diff `{DiffLib} patch fds m s e :
  parsesTo patch fds ->
  Forall consistent (allHunks fds) ->
  GoInt.in_range e ->
  ParsePatch patch = Ok m ->
  HasModifiedLineInRange m s e = true ->
  ExtractDiffForRange patch s e <> "".
Proof.
  intros Hp Hcons He Hm Htouched.
  rewrite (ParsePatch_parsed _ _ Hp) in Hm. injection Hm as <-.
  destruct (touched_scoped _ _ _ Hcons Htouched) as (l & Hin & Hl).
  rewrite (ExtractDiffForRange_parsed _ _ _ _ Hp He).
  now apply (added_line_written _ l).
Qed.

Lemma touched_range_has_diff_witness :
  @ExtractDiffForRange PlainDiff.lib scenarioA 2 4 <> ""
  /\ @HasModifiedLineInRange (mkModifiedLines [2; 3] []) 2 4 = true.
Proof.
  split; [| reflexivity].
  apply (@touched_range_has_diff PlainDiff.lib scenarioA [mkFileDiff [hunkA]]
           (mkModifiedLines [2; 3] [])).
  - split; [discriminate |]. split; [vm_compute; reflexivity |].
    repeat constructor; vm_compute; discriminate.
  - repeat constructor. vm_compute. discriminate.
  - vm_compute. split; discriminate.
  - vm_compute. reflexivity.
  - reflexivity.
Defined.

(** X4.  [HasModifiedLineInRange] adds up over adjoining ranges: a range
    cut in two is touched exactly when one of the two parts is; and a range
    whose end is before its start is never touched. *)
Theorem HasModifiedLineInRange_split m s k e :
  (s <= k + 1 -> k <= e ->
   HasModifiedLineInRange m s e
   = HasModifiedLineInRange m s k || HasModifiedLineInRange m (k + 1) e)
  /\ (e < s -> HasModifiedLineInRange m s e = false).
Proof.
  unfold HasModifiedLineInRange. split.
  - intros Hs He. apply Bool.eq_iff_eq_true.
    rewrite orb_true_iff, !existsb_exists. split.
    + intros (n & Hin & Hn).
      rewrite andb_true_iff, Z.geb_leb, !Z.leb_le in Hn.
      destruct (Z_le_gt_dec n k) as [Hk | Hk]; [left | right];
        exists n; (split; [exact Hin |]);
        rewrite andb_true_iff, Z.geb_leb, !Z.leb_le; lia.
    + intros [(n & Hin & Hn) | (n & Hin & Hn)];
        rewrite andb_true_iff, Z.geb_leb, !Z.leb_le in Hn;
        exists n; (split; [exact Hin |]);
        rewrite andb_true_iff, Z.geb_leb, !Z.leb_le; lia.
  - intros Hempty. apply not_true_is_false. rewrite existsb_exists.
    intros (n & Hin & Hn).
    rewrite andb_true_iff, Z.geb_leb, !Z.leb_le in Hn. lia.
Qed.

Lemma HasModifiedLineInRange_split_witness :
  HasModifiedLineInRange (mkModifiedLines [5; 10; 15] [7]) 1 12
  = HasModifiedLineInRange (mkModifiedLines [5; 10; 15] [7]) 1 7
    || HasModifiedLineInRange (mkModifiedLines [5; 10; 15] [7]) (7 + 1) 12.
Proof.
  apply (proj1 (HasModifiedLineInRange_split _ 1 7 12)); lia.
Defined.

Lemma emitted_all h s e ls : forall pre,
  s <= newCounter h pre -> newCounter h (pre ++ ls) <= e + 1 ->
  map snd (List.filter (emits s e h) (withHistory pre ls))
  = List.filter (fun l => isAdded l || isDeleted l) ls.
Proof.
  induction ls as [|l rest IH]; intros pre Hs He; [reflexivity |].
  cbn [withHistory List.filter].
  replace (pre ++ l :: rest) with ((pre ++ [l]) ++ rest) in He
    by now rewrite <- app_assoc.
  pose proof (newCounter_mono h pre [l]) as H1.
  pose proof (newCounter_mono h (pre ++ [l]) rest) as H2.
  pose proof (newCounter_snoc h pre l) as Hstep.
  assert (Hemits : emits s e h (pre, l) = isAdded l || isDeleted l).
  { destruct l as [|c tl]; [apply emits_empty |]. cbn [isAdded isDeleted].
    destruct (Ascii.eqb c "+") eqn:Hplus.
    - rewrite (emits_added s e h pre c tl Hplus).
      cbn [isAdded orb] in Hstep. rewrite Hplus in Hstep. cbn [orb] in Hstep.
      apply within_iff. lia.
    - destruct (Ascii.eqb c "-") eqn:Hminus.
      + rewrite (emits_deleted s e h pre c tl Hminus). cbn [orb].
        apply orb_true_iff. right. apply within_iff. lia.
      + now apply emits_context. }
  rewrite Hemits, <- (IH (pre ++ [l])) by lia.
  destruct (isAdded l || isDeleted l); reflexivity.
Qed.

Lemma newSpan_nonneg h : 0 <= newSpan h.
Proof. apply countIf_nonneg. Qed.

Lemma emittedOf_covered s e h :
  covered s e h ->
  emittedOf s e h
  = List.filter (fun l => isAdded l || isDeleted l) (SplitLines (Body h)).
Proof.
  intros (Hs & Hcount & He). pose proof (newSpan_nonneg h) as Hspan.
  unfold emittedOf.
  replace (overlaps s e h) with true
    by (symmetry; unfold overlaps; rewrite andb_true_iff, !Z.leb_le; lia).
  apply emitted_all.
  - unfold newCounter. rewrite countIf_nil. lia.
  - cbn [app]. fold (newSpan h) in He. unfold newCounter, newSpan, advancing.
    unfold newSpan, advancing in He. lia.
Qed.

(** X5.  A range around every hunk takes every changed line: when each
    hunk starts in the range, declares at least one new line, and the
    last line of the new file in its body is at or before [endLine],
    [ExtractDiffForRange] returns all the [+] and [-] lines of the patch,
    in their order. *)
Theorem ExtractDiffForRange_whole `{DiffLib} patch fds s e :
  parsesTo patch fds -> GoInt.in_range e ->
  Forall (covered s e) (allHunks fds) ->
  ExtractDiffForRange patch s e = TrimSpace (Join (changedLines fds) newline).
Proof.
  intros Hp He Hcov.
  rewrite (ExtractDiffForRange_parsed _ _ _ _ Hp He), TrimSpace_written.
  do 2 f_equal. unfold scopedLines, changedLines. rewrite filter_flat_map.
  induction (allHunks fds) as [|h rest IH]; [reflexivity |].
  inversion Hcov as [|? ? Hh Hrest]; subst. cbn [flat_map].
  now rewrite emittedOf_covered, IH.
Qed.

Lemma ExtractDiffForRange_whole_witness :
  @ExtractDiffForRange PlainDiff.lib scenarioB 1 4
  = TrimSpace (Join (changedLines [mkFileDiff [hunkB]]) newline).
Proof.
  apply (@ExtractDiffForRange_whole PlainDiff.lib).
  - split; [discriminate |]. split; [vm_compute; reflexivity |].
    repeat constructor; vm_compute; discriminate.
  - vm_compute. split; discriminate.
  - repeat constructor; vm_compute; discriminate.
Defined.

Lemma SplitLines_blank a b :
  SplitLines (a +:+ newline +:+ newline +:+ b)
  = SplitLines a ++ "" :: SplitLines b.
Proof.
  rewrite SplitLines_append.
  change (newline +:+ b) with ("" +:+ newline +:+ b).
  now rewrite SplitLines_append.
Qed.

(** X6.  An empty line in the body of a hunk is passed over: neither loop
    counts or writes it, so a body with a blank line gives what the body
    without that line gives. *)
Theorem blank_lines_skipped res s e out h a b :
  parseHunk res (withBody h (a +:+ newline +:+ newline +:+ b))
  = parseHunk res (withBody h (a +:+ newline +:+ b))
  /\ extractHunk s e out (withBody h (a +:+ newline +:+ newline +:+ b))
     = extractHunk s e out (withBody h (a +:+ newline +:+ b)).
Proof.
  unfold parseHunk, extractHunk, withBody. cbn [Body NewStartLine NewLines
    OrigStartLine]. rewrite SplitLines_blank, SplitLines_append.
  rewrite !fold_left_app. cbn [fold_left]. split.
  - destruct (fold_left parseLine (SplitLines a)
                (res, NewStartLine h, OrigStartLine h)) as [[r n] o].
    reflexivity.
  - destruct ((GoInt.sub (GoInt.add (NewStartLine h) (NewLines h)) 1 >=? s)
              && (NewStartLine h <=? e)); [| reflexivity].
    destruct (fold_left (extractLine s e) (SplitLines a)
                (out, NewStartLine h)) as [o n].
    reflexivity.
Qed.

(** The added line after a blank line has the number it would have
    without the blank line. *)
Example blank_line_not_counted :
  parseHunk (mkModifiedLines [] []) hunkC = mkModifiedLines [12] [11].
Proof. vm_compute. reflexivity. Qed.

End DiffMoreFacts.

(* ===================================================================== *)
(** ** Markers and lines; what one run leaves for the next *)
(* ===================================================================== *)

Module RunFacts.
Import GoStrings GoStringsFacts Extractor Cache CacheSpec CacheFacts LLM Run
  RunSpec ListFacts.

(** *** A marker lies within one line *)

Lemma matchLiteral_line lit : forall d t,
  onLine lit = true ->
  matchLiteral lit (d +:+ String nl t)
  = option_map (fun r => r +:+ String nl t) (matchLiteral lit d).
Proof.
  induction lit as [|a lit IH]; intros d t Hlit; [reflexivity |].
  unfold onLine in Hlit. cbn [allChars] in Hlit.
  apply andb_true_iff in Hlit as [Ha Hlit].
  destruct d as [|b d].
  - rewrite append_nil_l. cbn [matchLiteral option_map].
    apply negb_true_iff in Ha. now rewrite Ha.
  - rewrite append_cons. cbn [matchLiteral].
    destruct (Ascii.eqb a b); [now apply IH | reflexivity].
Qed.

Lemma matchClass_line n : forall d t,
  matchClass n (d +:+ String nl t)
  = option_map (fun gr => (fst gr, snd gr +:+ String nl t)) (matchClass n d).
Proof.
  induction n as [|n IH]; intros d t; [reflexivity |].
  destruct d as [|b d].
  - rewrite append_nil_l. reflexivity.
  - rewrite append_cons. cbn [matchClass].
    destruct (hashChar b); [| reflexivity].
    rewrite IH. destruct (matchClass n d) as [[g r] |]; reflexivity.
Qed.

Lemma matchHere_line d t : matchHere (d +:+ String nl t) = matchHere d.
Proof.
  unfold matchHere. rewrite matchLiteral_line by reflexivity.
  destruct (matchLiteral HashPrefix d) as [s1 |]; [| reflexivity].
  cbn [option_map]. rewrite matchClass_line.
  destruct (matchClass 12 s1) as [[g s2] |]; [| reflexivity].
  cbn [option_map fst snd]. rewrite matchLiteral_line by reflexivity.
  destruct (matchLiteral HashSuffix s2); reflexivity.
Qed.

Lemma FindStringSubmatch_nil : FindStringSubmatch "" = None.
Proof. reflexivity. Qed.

Lemma FindStringSubmatch_line a b :
  FindStringSubmatch (a +:+ newline +:+ b)
  = match FindStringSubmatch a with
    | Some ms => Some ms
    | None => FindStringSubmatch b
    end.
Proof.
  unfold newline. rewrite append_cons, append_nil_l.
  induction a as [|c a IH].
  - rewrite append_nil_l, FindStringSubmatch_nil.
    now apply FindStringSubmatch_next.
  - rewrite append_cons.
    pose proof (matchHere_line (String c a) b) as Hm.
    rewrite append_cons in Hm.
    destruct (matchHere (String c a)) as [g |] eqn:Hhere.
    + now rewrite (FindStringSubmatch_here _ _ Hm),
        (FindStringSubmatch_here _ _ Hhere).
    + now rewrite (FindStringSubmatch_next _ _ Hm),
        (FindStringSubmatch_next _ _ Hhere).
Qed.

Lemma ExtractHash_found s ms :
  FindStringSubmatch s = Some ms -> ExtractHash s <> "".
Proof.
  intros Hs. unfold ExtractHash. rewrite Hs.
  apply FindStringSubmatch_some in Hs as (i & g & -> & Hg & _).
  cbn. apply matchHere_iff in Hg as [Hv _]. now apply validHash_nonempty.
Qed.

Lemma ExtractHash_empty_iff s :
  ExtractHash s = "" <-> FindStringSubmatch s = None.
Proof.
  split.
  - intros He. destruct (FindStringSubmatch s) as [ms |] eqn:Hs;
      [| reflexivity].
    now apply ExtractHash_found in Hs.
  - intros Hs. unfold ExtractHash. now rewrite Hs.
Qed.

(** X7.  A marker never runs over a line break: the hash of a text of two
    parts joined by a newline is the hash of the first part when that has
    one, and the hash of the second part otherwise. *)
Theorem ExtractHash_by_lines a b :
  ExtractHash (a +:+ newline +:+ b)
  = if String.eqb (ExtractHash a) "" then ExtractHash b else ExtractHash a.
Proof.
  destruct (String.eqb_spec (ExtractHash a) "") as [He | Hne].
  - apply ExtractHash_empty_iff in He.
    unfold ExtractHash at 1 2. now rewrite FindStringSubmatch_line, He.
  - destruct (FindStringSubmatch a) as [ms |] eqn:Ha.
    + unfold ExtractHash. now rewrite FindStringSubmatch_line, Ha.
    + now apply ExtractHash_empty_iff in Ha.
Qed.

(** *** The comments of a run *)

Lemma ExtractHash_marker_front h post :
  validHash h = true -> ExtractHash (FormatHashMarker h +:+ post) = h.
Proof.
  intros Hv. apply (ExtractHash_first _ 0).
  - apply matchHere_iff. split; [exact Hv | now exists post].
  - intros j Hj. lia.
Qed.

Lemma ExtractHash_marked desc h post :
  validHash h = true ->
  ExtractHash (desc +:+ newline +:+ newline +:+ FormatHashMarker h +:+ post)
  = if String.eqb (ExtractHash desc) "" then h else ExtractHash desc.
Proof.
  intros Hv.
  pose proof (ExtractHash_marker_front h post Hv) as Hfront.
  pose proof (FindStringSubmatch_line ""
                (FormatHashMarker h +:+ post)) as Hblank.
  rewrite FindStringSubmatch_nil, append_nil_l in Hblank.
  unfold ExtractHash in *. rewrite FindStringSubmatch_line, Hblank.
  destruct (FindStringSubmatch desc) as [ms |] eqn:Hdesc; [| exact Hfront].
  pose proof (ExtractHash_found _ _ Hdesc) as Hne.
  unfold ExtractHash in Hne. rewrite Hdesc in Hne.
  now destruct (String.eqb_spec
                  (if (length ms <? 2)%nat then "" else nth 1 ms "") "").
Qed.

Lemma suggestionSteps_spec result hashMarker suggestions : forall comments,
  fold_left (suggestionStep result hashMarker) suggestions comments
  = comments
    ++ map (fun s => mkReviewComment (FilePath (rrFunction result)) (sgLine s)
                       (Description s +:+ newline +:+ newline +:+ hashMarker)
                       (Code s))
         suggestions.
Proof.
  induction suggestions as [|s rest IH]; intros comments.
  - cbn. now rewrite app_nil_r.
  - cbn [fold_left map]. rewrite IH. unfold suggestionStep.
    now rewrite <- app_assoc.
Qed.

Lemma resultSteps_spec results : forall comments,
  fold_left resultStep results comments
  = comments ++ flat_map commentsOf results.
Proof.
  induction results as [|r rest IH]; intros comments.
  - cbn. now rewrite app_nil_r.
  - cbn [fold_left flat_map]. rewrite IH. unfold resultStep, commentsOf.
    destruct (HasIssues r); cbn [negb].
    + now rewrite suggestionSteps_spec, <- app_assoc.
    + reflexivity.
Qed.

Lemma reviewComments_spec results :
  reviewComments results = flat_map commentsOf results.
Proof. unfold reviewComments. now rewrite resultSteps_spec. Qed.

Lemma In_reviewComments results c :
  In c (reviewComments results)
  <-> exists r s,
        In r results /\ HasIssues r = true /\ In s (Suggestions r)
        /\ c = mkReviewComment (FilePath (rrFunction r)) (sgLine s)
                 (Description s +:+ newline +:+ newline
                  +:+ FormatHashMarker (FunctionHash (rrFunction r)))
                 (Code s).
Proof.
  rewrite reviewComments_spec, in_flat_map. split.
  - intros (r & Hr & Hc). unfold commentsOf in Hc.
    destruct (HasIssues r) eqn:Hi; [| contradiction].
    apply in_map_iff in Hc as (s & <- & Hs). now exists r, s.
  - intros (r & s & Hr & Hi & Hs & ->). exists r. split; [exact Hr |].
    unfold commentsOf. rewrite Hi. apply in_map_iff. now exists s.
Qed.

Lemma ExtractHash_sent c desc h body :
  validHash h = true ->
  rvBody c = desc +:+ newline +:+ newline +:+ FormatHashMarker h ->
  sentAs c body ->
  ExtractHash body
  = if String.eqb (ExtractHash desc) "" then h else ExtractHash desc.
Proof.
  intros Hv Hc Hbody.
  assert (Hplain : ExtractHash (rvBody c)
                   = if String.eqb (ExtractHash desc) "" then h
                     else ExtractHash desc).
  { rewrite Hc, <- (append_nil_r (FormatHashMarker h)).
    now apply ExtractHash_marked. }
  destruct Hbody as [-> | ->];
    unfold GitHub.reviewBody, GitLab.reviewBody;
    (destruct (String.eqb (rvSuggestion c) ""); cbn [negb];
     [exact Hplain |]);
    rewrite Hc, ?append_assoc; now apply ExtractHash_marked.
Qed.

Lemma ExtractHash_comment r s body :
  sentAs (mkReviewComment (FilePath (rrFunction r)) (sgLine s)
            (Description s +:+ newline +:+ newline
             +:+ FormatHashMarker (FunctionHash (rrFunction r)))
            (Code s)) body ->
  ExtractHash body
  = if String.eqb (ExtractHash (Description s)) ""
    then FunctionHash (rrFunction r)
    else ExtractHash (Description s).
Proof.
  intros Hsent.
  eapply ExtractHash_sent; [apply validHash_FunctionHash | | exact Hsent].
  reflexivity.
Qed.

(** X8.  The body either provider sends for a comment of [runReview]
    carries the fingerprint of the function: [ExtractHash] reads it back
    from the body, whatever the suggested code holds, unless the
    description has a marker of its own, which then is the one read. *)
Theorem ExtractHash_of_sent_body r s body :
  sentAs (mkReviewComment (FilePath (rrFunction r)) (sgLine s)
            (Description s +:+ newline +:+ newline
             +:+ FormatHashMarker (FunctionHash (rrFunction r)))
            (Code s)) body ->
  ExtractHash body
  = if String.eqb (ExtractHash (Description s)) ""
    then FunctionHash (rrFunction r)
    else ExtractHash (Description s).
Proof.
  intros Hsent.
  apply (ExtractHash_sent _ (Description s) _ _
           (validHash_FunctionHash (rrFunction r))
           (eq_refl (rvBody (mkReviewComment (FilePath (rrFunction r))
                               (sgLine s)
                               (Description s +:+ newline +:+ newline
                                +:+ FormatHashMarker
                                      (FunctionHash (rrFunction r)))
                               (Code s))))).
  exact Hsent.
Qed.

Lemma ExtractHash_of_sent_body_witness :
  ExtractHash
    (GitHub.reviewBody
       (mkReviewComment
          (FilePath (rrFunction (mkReviewResult sample [] "" None)))
          (sgLine (mkSuggestion 4 "Add subtracts." "return a + b"))
          (Description (mkSuggestion 4 "Add subtracts." "return a + b")
           +:+ newline +:+ newline
           +:+ FormatHashMarker
                 (FunctionHash (rrFunction (mkReviewResult sample [] "" None))))
          (Code (mkSuggestion 4 "Add subtracts." "return a + b"))))
  = if String.eqb
         (ExtractHash
            (Description (mkSuggestion 4 "Add subtracts." "return a + b"))) ""
    then FunctionHash (rrFunction (mkReviewResult sample [] "" None))
    else ExtractHash
           (Description (mkSuggestion 4 "Add subtracts." "return a + b")).
Proof.
  apply (ExtractHash_of_sent_body
           (mkReviewResult sample [] "" None)
           (mkSuggestion 4 "Add subtracts." "return a + b")).
  left. reflexivity.
Defined.

(** X9.  What a run comments on, the next run passes over: when the host
    gives back the comments of a run, a function for which that run had a
    suggestion with a description free of markers is reviewed for the
    next tracker, and is not among the functions of the next run. *)
Theorem commented_function_is_skipped results existing functions r s :
  givesBack existing (reviewComments results) ->
  In r results -> HasIssues r = true ->
  In s (Suggestions r) -> unmarked (Description s) ->
  IsReviewed (Cmd.buildTracker existing) (rrFunction r) = true
  /\ ~ In (rrFunction r) (functionsToReview false (Ok existing) functions).
Proof.
  intros Hback Hr Hi Hs Hplain.
  assert (Hrev : IsReviewed (Cmd.buildTracker existing) (rrFunction r) = true).
  { apply IsReviewed_existing.
    destruct (Hback (mkReviewComment (FilePath (rrFunction r)) (sgLine s)
                       (Description s +:+ newline +:+ newline
                        +:+ FormatHashMarker (FunctionHash (rrFunction r)))
                       (Code s))) as (e & He & Hsent).
    { apply In_reviewComments. now exists r, s. }
    exists e. split; [exact He |].
    rewrite (ExtractHash_comment _ _ _ Hsent).
    unfold unmarked in Hplain. now rewrite Hplain. }
  split; [exact Hrev |].
  unfold functionsToReview. cbn [negb].
  rewrite FilterUnreviewed_filter, List.filter_In, Hrev. cbn [negb].
  intros [_ Hfalse]. discriminate.
Qed.

Lemma draftSteps_spec comments : forall drafts,
  fold_left GitHub.draftStep comments drafts
  = drafts
    ++ map (fun c => GitHub.mkDraftReviewComment (rvPath c) (rvLine c)
                       (GitHub.reviewBody c)) comments.
Proof.
  induction comments as [|c rest IH]; intros drafts.
  - cbn. now rewrite app_nil_r.
  - cbn [fold_left map]. rewrite IH. unfold GitHub.draftStep.
    now rewrite <- app_assoc.
Qed.

Lemma In_afterRun before results e :
  In e (afterRun before results)
  <-> In e before
      \/ exists c, In c (reviewComments results)
                   /\ e = mkExistingComment (rvPath c) (rvLine c)
                            (GitHub.reviewBody c).
Proof.
  unfold afterRun, GitHub.CreateReview. rewrite in_app_iff.
  destruct (reviewComments results) as [|c0 rest] eqn:Hcs.
  - cbn. split; [tauto |]. intros [Hb | (c & [] & _)]. now left.
  - cbn [length Nat.eqb]. rewrite draftSteps_spec. cbn [app].
    rewrite map_map, in_map_iff. cbn [GitHub.dPath GitHub.dLine GitHub.dBody].
    split.
    + intros [Hb | (c & <- & Hc)]; [now left | right]. now exists c.
    + intros [Hb | (c & Hc & ->)]; [now left | right]. now exists c.
Qed.

Lemma afterRun_givesBack before results :
  givesBack (afterRun before results) (reviewComments results).
Proof.
  intros c Hc. eexists. split.
  - apply In_afterRun. right. exists c. split; [exact Hc | reflexivity].
  - left. reflexivity.
Qed.

Lemma afterRun_givesOnly before results :
  Forall (fun e => unmarked (ecBody e)) before ->
  givesOnly (afterRun before results) (reviewComments results).
Proof.
  intros Hbefore e He. apply In_afterRun in He as [Hb | (c & Hc & ->)].
  - left. rewrite Forall_forall in Hbefore. apply Hbefore.
    now apply list_elem_of_In.
  - right. exists c. split; [exact Hc |]. left. reflexivity.
Qed.

Lemma commented_function_is_skipped_witness :
  IsReviewed (Cmd.buildTracker (afterRun [] sampleResults))
    (rrFunction (mkReviewResult sample
                   [mkSuggestion 4 "Add subtracts." "return a + b"] "" None))
  = true
  /\ ~ In (rrFunction (mkReviewResult sample
                         [mkSuggestion 4 "Add subtracts." "return a + b"]
                         "" None))
         (functionsToReview false (Ok (afterRun [] sampleResults))
            [sample; fine]).
Proof.
  apply (commented_function_is_skipped sampleResults
           (afterRun [] sampleResults) [sample; fine]
           (mkReviewResult sample
              [mkSuggestion 4 "Add subtracts." "return a + b"] "" None)
           (mkSuggestion 4 "Add subtracts." "return a + b")).
  - apply afterRun_givesBack.
  - left. reflexivity.
  - reflexivity.
  - left. reflexivity.
  - reflexivity.
Defined.

(** X10.  Only what a run comments on is remembered: when every comment
    the host gives has no marker or is a comment of the results, and no
    description holds a marker, a function whose fingerprint is not that
    of a result with issues is among the functions of the next run.  So a
    function found fine is reviewed again. *)
Theorem uncommented_function_is_reviewed_again results existing functions fn :
  givesOnly existing (reviewComments results) ->
  plain results ->
  (forall r, In r results -> HasIssues r = true ->
             FunctionHash (rrFunction r) <> FunctionHash fn) ->
  In fn functions ->
  IsReviewed (Cmd.buildTracker existing) fn = false
  /\ In fn (functionsToReview false (Ok existing) functions).
Proof.
  intros Honly Hplain Hother Hfn.
  assert (Hrev : IsReviewed (Cmd.buildTracker existing) fn = false).
  { apply not_true_is_false. intros Hrev.
    apply IsReviewed_existing in Hrev as (e & He & Hhash).
    destruct (Honly e He) as [Hnone | (c & Hc & Hsent)].
    - unfold unmarked in Hnone. rewrite Hnone in Hhash.
      symmetry in Hhash. revert Hhash.
      apply validHash_nonempty, validHash_FunctionHash.
    - apply In_reviewComments in Hc as (r & s & Hr & Hi & Hs & ->).
      rewrite (ExtractHash_comment _ _ _ Hsent) in Hhash.
      pose proof (Hplain r s Hr Hs) as Hd. unfold unmarked in Hd.
      rewrite Hd in Hhash. cbn [String.eqb] in Hhash.
      now apply (Hother r Hr Hi). }
  split; [exact Hrev |].
  unfold functionsToReview. cbn [negb].
  rewrite FilterUnreviewed_filter, List.filter_In, Hrev. now split.
Qed.

Lemma uncommented_function_is_reviewed_again_witness :
  IsReviewed (Cmd.buildTracker (afterRun [] sampleResults)) fine = false
  /\ In fine
       (functionsToReview false (Ok (afterRun [] sampleResults))
          [sample; fine]).
Proof.
  apply (uncommented_function_is_reviewed_again sampleResults
           (afterRun [] sampleResults) [sample; fine] fine).
  - apply afterRun_givesOnly. constructor.
  - intros r s [<- | [<- | []]] Hs.
    + destruct Hs as [<- | []]. reflexivity.
    + destruct Hs.
  - intros r [<- | [<- | []]] Hi.
    + vm_compute. discriminate.
    + discriminate Hi.
  - right. left. reflexivity.
Defined.

(** *** The tracker *)

Lemma IsReviewed_loaded_onto t comments fn :
  IsReviewed (LoadFromComments t comments) fn
  = member (FunctionHash fn) (hashesOf comments) || IsReviewed t fn.
Proof.
  unfold IsReviewed. rewrite LoadFromComments_lookup.
  now destruct (member (FunctionHash fn) (hashesOf comments)).
Qed.

Lemma hashesOf_app a b : hashesOf (a ++ b) = hashesOf a ++ hashesOf b.
Proof. unfold hashesOf. now rewrite map_app, List.filter_app. Qed.

Lemma member_app h a b : member h (a ++ b) = member h a || member h b.
Proof. apply existsb_app. Qed.

Lemma member_ext h a b :
  (forall k, In k a <-> In k b) -> member h a = member h b.
Proof.
  intros Hab. apply Bool.eq_iff_eq_true. rewrite !member_In. apply Hab.
Qed.

Lemma Tracker_eq t u : reviewed t = reviewed u -> t = u.
Proof. destruct t, u. cbn. now intros ->. Qed.

(** X11.  What [LoadFromComments] makes of a tracker depends on which
    non-empty hashes the comments carry, not on their order nor on how
    often a hash comes: two lists of comments with the same hashes give
    the same tracker. *)
Theorem LoadFromComments_same_hashes t a b :
  (forall k, In k (hashesOf a) <-> In k (hashesOf b)) ->
  LoadFromComments t a = LoadFromComments t b.
Proof.
  intros Hab. apply Tracker_eq, map_eq. intros k.
  rewrite !LoadFromComments_lookup. now rewrite (member_ext k _ _ Hab).
Qed.

Lemma LoadFromComments_same_hashes_witness :
  LoadFromComments NewTracker [otherComment; oddComment; otherComment]
  = LoadFromComments NewTracker [oddComment; otherComment].
Proof.
  apply LoadFromComments_same_hashes. intros k. cbn. tauto.
Defined.

(** X12.  More comments, fewer functions: the functions left by a tracker
    loaded with further comments are, in their order, among those left
    without them; so are the functions of a run when the host has further
    comments. *)
Theorem more_comments_fewer_functions :
  (forall t a b functions,
      sublist (FilterUnreviewed (LoadFromComments t (a ++ b)) functions)
        (FilterUnreviewed (LoadFromComments t a) functions))
  /\ (forall force older newer functions,
         sublist
           (functionsToReview force (Ok (older ++ newer)) functions)
           (functionsToReview force (Ok older) functions)).
Proof.
  assert (Hload : forall t a b functions,
             sublist (FilterUnreviewed (LoadFromComments t (a ++ b)) functions)
               (FilterUnreviewed (LoadFromComments t a) functions)).
  { intros t a b functions. rewrite !FilterUnreviewed_filter.
    apply filter_sublist_impl. intros fn.
    rewrite !IsReviewed_loaded_onto, hashesOf_app, member_app.
    destruct (member (FunctionHash fn) (hashesOf a)); [discriminate |].
    destruct (IsReviewed t fn); [rewrite orb_true_r; discriminate |].
    reflexivity. }
  split; [exact Hload |].
  intros force older newer functions. unfold functionsToReview.
  destruct force; cbn [negb]; [reflexivity |].
  unfold Cmd.buildTracker. rewrite !reviewedComments_map, map_app.
  apply Hload.
Qed.

End RunFacts.

(* ===================================================================== *)
(** ** Which functions the extractor takes *)
(* ===================================================================== *)

Module ExtractorMoreFacts.
Import GoStrings GoStringsFacts Diff DiffSpec DiffFacts DiffMore DiffMoreFacts
  Extractor ExtractorSpec ExtractorFacts ExtractorMore ListFacts.

Section WithCollaborators.
Context `{DiffLib} `{Provider} `{SourceParser}.
Variable config : option Config.

Lemma extractFunctions_spec file m language functions : forall result,
  fold_left (extractFunction file m language) functions result
  = result ++ map (extracted file language) (List.filter (touched m) functions).
Proof.
  induction functions as [|fn rest IH]; intros result.
  - cbn. now rewrite app_nil_r.
  - cbn [fold_left List.filter]. rewrite IH.
    unfold extractFunction, touched.
    destruct (HasModifiedLineInRange m (fnStartLine fn) (fnEndLine fn)).
    + cbn [map]. now rewrite <- app_assoc.
    + reflexivity.
Qed.

Lemma extractFromFile_spec file content m functions language :
  GetFileContent (Path file) = Ok content ->
  ParsePatch (Patch file) = Ok m ->
  Parse (Path file) content = Ok (functions, language) ->
  extractFromFile file
  = Ok (map (extracted file language) (List.filter (touched m) functions)).
Proof.
  intros Hc Hm Hf. unfold extractFromFile.
  now rewrite Hc, Hm, Hf, extractFunctions_spec.
Qed.

Lemma touched_hasAddedLine fds deleted fn :
  touched (mkModifiedLines (flat_map addedOf (allHunks fds)) deleted) fn
  = hasAddedLine fds fn.
Proof.
  unfold touched, hasAddedLine, HasModifiedLineInRange. cbn [Added].
  induction (flat_map addedOf (allHunks fds)) as [|n rest IH];
    [reflexivity |].
  cbn [existsb]. rewrite IH. unfold within. now rewrite Z.geb_leb.
Qed.

(** X13.  [extractFromFile] takes the functions with an added line: when
    the content is fetched and the patch and the source are parsed, it
    returns, in the order of the parser, one record for every function
    that has a [+] line of the patch in its range and for no other; the
    record has the name, lines and content of the parser, the diff of the
    range, the path of the file and the language. *)
Theorem extractFromFile_selects file fds content functions language :
  parsesTo (Patch file) fds ->
  GetFileContent (Path file) = Ok content ->
  Parse (Path file) content = Ok (functions, language) ->
  extractFromFile file
  = Ok (map (extracted file language)
          (List.filter (hasAddedLine fds) functions)).
Proof.
  intros Hp Hc Hf.
  rewrite (extractFromFile_spec _ _ _ _ _ Hc (ParsePatch_parsed _ _ Hp) Hf).
  do 2 f_equal. apply List.filter_ext. intros fn.
  apply touched_hasAddedLine.
Qed.

Lemma extractStep_In file fn :
  In fn (extractStep config [] file) ->
  exists m functions language pf,
    ParsePatch (Patch file) = Ok m
    /\ In pf functions /\ touched m pf = true
    /\ fn = extracted file language pf.
Proof.
  unfold extractStep.
  destruct (String.eqb (Status file) "deleted"); [intros [] |].
  destruct (match config with
            | Some cfg => @ShouldIgnore cfg (Path file)
            | None => false
            end); [intros [] |].
  destruct (negb (IsSupported (Path file))); [intros [] |].
  unfold extractFromFile.
  destruct (GetFileContent (Path file)) as [content | e]; [| intros []].
  destruct (ParsePatch (Patch file)) as [m | e]; [| intros []].
  destruct (Parse (Path file) content) as [[functions language] | e];
    [| intros []].
  rewrite extractFunctions_spec. cbn [app]. intros Hin.
  apply in_map_iff in Hin as (pf & <- & Hpf).
  apply List.filter_In in Hpf as [Hpf Ht].
  now exists m, functions, language, pf.
Qed.

Lemma untouched_nothing file :
  (forall m, ParsePatch (Patch file) = Ok m -> Added m = []) ->
  extractStep config [] file = [].
Proof.
  intros Hnone.
  destruct (extractStep config [] file) as [|fn rest] eqn:Hstep;
    [reflexivity |].
  destruct (extractStep_In file fn) as (m & fns & lang & pf & Hm & _ & Ht & _).
  { rewrite Hstep. now left. }
  unfold touched, HasModifiedLineInRange in Ht.
  rewrite (Hnone m Hm) in Ht. discriminate.
Qed.

(** X14.  No added line, no function: a file that comes without a patch
    gives no function, whatever its status, and so does a file whose
    patch has no [+] line, such as one that only removes lines. *)
Theorem no_added_line_no_function file :
  (Patch file = "" -> extractStep config [] file = [])
  /\ (forall fds,
         parsesTo (Patch file) fds -> tally isAdded fds = 0%nat ->
         extractStep config [] file = []).
Proof.
  split.
  - intros Hpatch. apply untouched_nothing. intros m.
    rewrite Hpatch. unfold ParsePatch. cbn [String.eqb].
    now intros [= <-].
  - intros fds Hp Hnone. apply untouched_nothing. intros m.
    rewrite (ParsePatch_parsed _ _ Hp). intros [= <-]. cbn [Added].
    apply length_zero_iff_nil.
    now rewrite (length_flat_map_tally addedOf isAdded _ length_addedOf).
Qed.

(** X15.  Every function the extractor takes has a diff: when the count
    every hunk declares covers its body, the [Diff] of an extracted
    function is not empty. *)
Theorem extracted_function_has_diff file fds fn :
  parsesTo (Patch file) fds ->
  Forall consistent (allHunks fds) ->
  GoInt.in_range (EndLine fn) ->
  In fn (extractStep config [] file) ->
  Diff fn <> "".
Proof.
  intros Hp Hcons He Hin.
  apply extractStep_In in Hin as (m & fns & lang & pf & Hm & _ & Ht & ->).
  cbn [extracted Diff EndLine] in *.
  rewrite (ParsePatch_parsed _ _ Hp) in Hm. injection Hm as <-.
  destruct (touched_scoped _ _ _ Hcons Ht) as (l & Hl & Hadded).
  rewrite (ExtractDiffForRange_parsed _ _ _ _ Hp He).
  now apply (added_line_written _ l).
Qed.

Lemma fileSteps_spec allDiffs : forall result,
  fold_left GitLab.fileStep allDiffs result
  = result ++ map GitLab.toModifiedFile allDiffs.
Proof.
  induction allDiffs as [|diff rest IH]; intros result.
  - cbn. now rewrite app_nil_r.
  - cbn [fold_left map]. rewrite IH. unfold GitLab.fileStep.
    now rewrite <- app_assoc.
Qed.

(** X30.  On GitLab the flags of a diff decide what is reviewed: a
    function that [ExtractModifiedFunctions] takes from the files of a
    merge request comes from a diff that is new or is not deleted, lies
    on the new path of that diff, and has the change type [added] when
    the diff is a new file and [modified] otherwise, renamed files
    included. *)
Theorem GitLab_flags_decide allDiffs functions fn :
  ExtractModifiedFunctions config (GitLab.modifiedFiles allDiffs)
  = Ok functions ->
  In fn functions ->
  exists diff,
    In diff allDiffs
    /\ (GitLab.NewFile diff = true \/ GitLab.DeletedFile diff = false)
    /\ FilePath fn = GitLab.mdNewPath diff
    /\ ChangeType fn
       = (if GitLab.NewFile diff then "added" else "modified").
Proof.
  unfold ExtractModifiedFunctions, GitLab.modifiedFiles.
  rewrite extractSteps_flat_map, fileSteps_spec. cbn [app].
  intros [= <-] Hin. apply in_flat_map in Hin as (file & Hfile & Hfn).
  apply in_map_iff in Hfile as (diff & <- & Hdiff).
  apply extractStep_ofFile in Hfn as (Hstatus & Hpath & Htype).
  exists diff. split; [exact Hdiff |].
  unfold GitLab.toModifiedFile in Hstatus, Hpath, Htype.
  cbn [Status Path] in Hstatus, Hpath, Htype.
  unfold changeTypeOf in Htype. cbn [Status] in Htype.
  destruct (GitLab.NewFile diff).
  - split; [now left |]. split; [exact Hpath | exact Htype].
  - destruct (GitLab.DeletedFile diff); [congruence |].
    split; [now right |]. split; [exact Hpath |].
    now destruct (GitLab.RenamedFile diff).
Qed.

End WithCollaborators.

Lemma extractFromFile_selects_witness :
  @extractFromFile PlainDiff.lib oneProvider oneParser newFile
  = Ok (map (@extracted PlainDiff.lib newFile "go")
          (List.filter (hasAddedLine [mkFileDiff [hunkA]])
             [mkFunction "whole" 1 5 newFileContent])).
Proof.
  apply (@extractFromFile_selects PlainDiff.lib oneProvider oneParser
           newFile [mkFileDiff [hunkA]] newFileContent).
  - split; [discriminate |]. split; [vm_compute; reflexivity |].
    repeat constructor; vm_compute; discriminate.
  - reflexivity.
  - reflexivity.
Defined.

Lemma no_added_line_no_function_witness :
  @extractStep PlainDiff.lib oneProvider oneParser None [] noPatchFile = []
  /\ @extractStep PlainDiff.lib oneProvider oneParser None [] removalFile = [].
Proof.
  split.
  - apply (proj1 (@no_added_line_no_function PlainDiff.lib oneProvider
                    oneParser None noPatchFile)).
    reflexivity.
  - apply (proj2 (@no_added_line_no_function PlainDiff.lib oneProvider
                    oneParser None removalFile) [mkFileDiff [hunkR]]).
    + split; [discriminate |]. split; [vm_compute; reflexivity |].
      repeat constructor; vm_compute; discriminate.
    + reflexivity.
Defined.

Lemma extracted_function_has_diff_witness :
  Diff wholeFunction <> ""
  /\ In wholeFunction
       (@extractStep PlainDiff.lib oneProvider oneParser None [] newFile).
Proof.
  assert (Hin : In wholeFunction
                  (@extractStep PlainDiff.lib oneProvider oneParser None []
                     newFile)) by (vm_compute; now left).
  split; [| exact Hin].
  apply (@extracted_function_has_diff PlainDiff.lib oneProvider oneParser
           None newFile [mkFileDiff [hunkA]] wholeFunction).
  - split; [discriminate |]. split; [vm_compute; reflexivity |].
    repeat constructor; vm_compute; discriminate.
  - repeat constructor. vm_compute. discriminate.
  - vm_compute. split; discriminate.
  - exact Hin.
Defined.

Lemma GitLab_flags_decide_witness :
  exists diff,
    In diff [newDiff]
    /\ (GitLab.NewFile diff = true \/ GitLab.DeletedFile diff = false)
    /\ FilePath wholeFunction = GitLab.mdNewPath diff
    /\ ChangeType wholeFunction
       = (if GitLab.NewFile diff then "added" else "modified").
Proof.
  apply (@GitLab_flags_decide PlainDiff.lib oneProvider oneParser None
           [newDiff] [wholeFunction] wholeFunction).
  - vm_compute. reflexivity.
  - now left.
Defined.

End ExtractorMoreFacts.

(* ===================================================================== *)
(** ** Ignored paths *)
(* ===================================================================== *)

Module ConfigFacts.
Import GoStrings GoStringsFacts GoStringsMore ConfigSpec.

Lemma ReplaceAll_append s t old new :
  ReplaceAll (s +:+ t) old new = ReplaceAll s old new +:+ ReplaceAll t old new.
Proof.
  induction s as [|c r IH]; [reflexivity |].
  rewrite append_cons. cbn [ReplaceAll]. now rewrite IH, append_cons.
Qed.

Lemma slashed_slashed s : slashed (slashed s) = slashed s.
Proof.
  unfold slashed. induction s as [|c r IH]; [reflexivity |].
  cbn [ReplaceAll]. rewrite IH. f_equal.
  destruct (Ascii.eqb c "\") eqn:Hc; [reflexivity | now rewrite Hc].
Qed.

Lemma slashed_plain s : hasChar "\" s = false -> slashed s = s.
Proof.
  unfold slashed. induction s as [|c r IH]; [reflexivity |].
  cbn [hasChar ReplaceAll]. intros Hs.
  apply orb_false_iff in Hs as [Hc Hr]. now rewrite Hc, IH.
Qed.

Lemma hasChar_slashed s : hasChar "\" (slashed s) = false.
Proof.
  unfold slashed. induction s as [|c r IH]; [reflexivity |].
  cbn [ReplaceAll hasChar]. rewrite IH, orb_false_r.
  destruct (Ascii.eqb c "\") eqn:Hc; [reflexivity | exact Hc].
Qed.

Lemma slashed_path dir rest :
  slashed (dir +:+ "/" +:+ rest) = slashed dir +:+ "/" +:+ slashed rest
  /\ slashed (dir +:+ "\" +:+ rest) = slashed dir +:+ "/" +:+ slashed rest.
Proof. unfold slashed. now rewrite !ReplaceAll_append. Qed.

Lemma sliceFrom_append a b : sliceFrom (a +:+ b) (String.length a) = b.
Proof.
  induction a as [|c r IH]; [now destruct b |].
  rewrite append_cons. cbn [String.length sliceFrom]. exact IH.
Qed.

Lemma substring_front_append a b : substring 0 (String.length a) (a +:+ b) = a.
Proof.
  induction a as [|c r IH]; [now destruct b |].
  rewrite append_cons. cbn [String.length substring]. now rewrite IH.
Qed.

Lemma length_minus_suffix a b :
  (String.length (a +:+ b) - String.length b)%nat = String.length a.
Proof. rewrite length_append. lia. Qed.

Lemma HasSuffix_append a b : HasSuffix (a +:+ b) b = true.
Proof.
  unfold HasSuffix. rewrite length_minus_suffix, sliceFrom_append.
  rewrite String.eqb_refl, andb_true_r, length_append.
  apply Nat.leb_le. lia.
Qed.

Lemma TrimSuffix_append a b : TrimSuffix (a +:+ b) b = a.
Proof.
  unfold TrimSuffix.
  now rewrite HasSuffix_append, length_minus_suffix, substring_front_append.
Qed.

Lemma prefix_append a b : String.prefix a (a +:+ b) = true.
Proof.
  induction a as [|c r IH]; [now destruct b |].
  rewrite append_cons. cbn [String.prefix].
  now destruct (ascii_dec c c).
Qed.

Lemma prefix_one x c r :
  String.prefix (String x "") (String c r) = Ascii.eqb c x.
Proof.
  cbn [String.prefix].
  destruct (ascii_dec x c) as [<- | Hne].
  - rewrite Ascii.eqb_refl. now destruct r.
  - symmetry. apply Ascii.eqb_neq. congruence.
Qed.

Lemma hasChar_append x a b : hasChar x (a +:+ b) = hasChar x a || hasChar x b.
Proof.
  induction a as [|c r IH]; [reflexivity |].
  rewrite append_cons. cbn [hasChar]. now rewrite IH, orb_assoc.
Qed.

Lemma lastIndexFrom_none x s : forall i found,
  hasChar x s = false -> lastIndexFrom i s (String x "") found = found.
Proof.
  induction s as [|c r IH]; intros i found Hs; [reflexivity |].
  cbn [hasChar] in Hs. apply orb_false_iff in Hs as [Hc Hr].
  cbn [lastIndexFrom]. rewrite prefix_one, Hc. now apply IH.
Qed.

Lemma lastIndexFrom_last x dir base : forall i found,
  hasChar x base = false ->
  lastIndexFrom i (dir +:+ String x base) (String x "") found
  = i + Z.of_nat (String.length dir).
Proof.
  induction dir as [|c r IH]; intros i found Hbase.
  - rewrite append_nil_l.
    cbn [lastIndexFrom]. rewrite prefix_one, Ascii.eqb_refl.
    rewrite lastIndexFrom_none by exact Hbase.
    cbn [String.length]. cbn. lia.
  - rewrite append_cons. cbn [lastIndexFrom]. rewrite IH by exact Hbase.
    cbn [String.length]. lia.
Qed.

Lemma indexFrom_first x pre rest : forall i,
  hasChar x pre = false ->
  indexFrom i (pre +:+ String x rest) (String x "")
  = i + Z.of_nat (String.length pre).
Proof.
  induction pre as [|c r IH]; intros i Hpre.
  - rewrite append_nil_l. cbn [indexFrom].
    rewrite prefix_one, Ascii.eqb_refl. cbn. lia.
  - cbn [hasChar] in Hpre. apply orb_false_iff in Hpre as [Hc Hr].
    rewrite append_cons. cbn [indexFrom]. rewrite prefix_one, Hc.
    rewrite IH by exact Hr. cbn [String.length]. lia.
Qed.

Lemma substring_skip a n s :
  substring (String.length a) n (a +:+ s) = substring 0 n s.
Proof.
  induction a as [|c r IH]; [reflexivity |].
  rewrite append_cons. cbn [String.length substring]. exact IH.
Qed.

Lemma basename_of dir base :
  hasChar "/" base = false ->
  sliceFrom (dir +:+ "/" +:+ base)
    (Z.to_nat (LastIndex (dir +:+ "/" +:+ base) "/" + 1))
  = base
  /\ LastIndex (dir +:+ "/" +:+ base) "/" >= 0.
Proof.
  intros Hbase. unfold LastIndex.
  pose proof (lastIndexFrom_last "/" dir base 0 (-1) Hbase) as Hlast.
  change (dir +:+ String "/" base) with (dir +:+ "/" +:+ base) in Hlast.
  rewrite Hlast. split; [| lia].
  replace (Z.to_nat (0 + Z.of_nat (String.length dir) + 1))
    with (String.length (dir +:+ "/")) by (rewrite length_append; cbn; lia).
  rewrite <- append_assoc. apply sliceFrom_append.
Qed.

Section WithDoublestar.
Context `{Doublestar}.

Lemma ignoreLoop_exists np patterns :
  ConfigFile.ignoreLoop np patterns = true
  <-> exists pattern, In pattern patterns
                      /\ ConfigFile.ignoreStep np pattern = true.
Proof.
  induction patterns as [|p rest IH].
  - cbn. split; [discriminate | now intros (p & [] & _)].
  - cbn [ConfigFile.ignoreLoop].
    destruct (ConfigFile.ignoreStep np p) eqn:Hp.
    + split; [| reflexivity]. intros _. exists p. split; [now left | exact Hp].
    + rewrite IH. split.
      * intros (q & Hq & Hstep). exists q. split; [now right | exact Hstep].
      * intros (q & [<- | Hq] & Hstep); [congruence |]. now exists q.
Qed.

Lemma ignoreStep_slashed np pattern :
  ConfigFile.ignoreStep np (slashed pattern) = ConfigFile.ignoreStep np pattern.
Proof.
  unfold ConfigFile.ignoreStep. fold (slashed (slashed pattern)).
  fold (slashed pattern). now rewrite slashed_slashed.
Qed.

(** X16.  A pattern that ends in a slash names a directory: the directory
    itself and every path below it are ignored, whatever the matcher
    says, and whether the path or the pattern is written with slashes or
    with backslashes. *)
Theorem directory_pattern_ignores c pattern dir :
  In pattern (ConfigFile.Paths (ConfigFile.Ignore c)) ->
  slashed pattern = slashed dir +:+ "/" ->
  ConfigFile.ShouldIgnore c dir = true
  /\ (forall rest, ConfigFile.ShouldIgnore c (dir +:+ "/" +:+ rest) = true)
  /\ (forall rest, ConfigFile.ShouldIgnore c (dir +:+ "\" +:+ rest) = true).
Proof.
  intros Hin Hpattern.
  assert (Hstep : forall np,
             String.prefix (slashed dir +:+ "/") np = true
             \/ np = slashed dir ->
             ConfigFile.ignoreStep np pattern = true).
  { intros np Hnp. unfold ConfigFile.ignoreStep. fold (slashed pattern).
    rewrite Hpattern, HasSuffix_append, TrimSuffix_append.
    unfold HasPrefix.
    destruct Hnp as [Hpre | ->]; [now rewrite Hpre |].
    now rewrite String.eqb_refl, orb_true_r. }
  unfold ConfigFile.ShouldIgnore. fold (slashed dir).
  repeat split.
  - apply ignoreLoop_exists. exists pattern. split; [exact Hin |].
    apply Hstep. now right.
  - intros rest. apply ignoreLoop_exists. exists pattern.
    split; [exact Hin |]. apply Hstep. left.
    fold (slashed (dir +:+ "/" +:+ rest)).
    rewrite (proj1 (slashed_path dir rest)), <- append_assoc.
    apply prefix_append.
  - intros rest. apply ignoreLoop_exists. exists pattern.
    split; [exact Hin |]. apply Hstep. left.
    fold (slashed (dir +:+ "\" +:+ rest)).
    rewrite (proj2 (slashed_path dir rest)), <- append_assoc.
    apply prefix_append.
Qed.

(** X17.  A pattern that does not end in a slash is tried on the last
    component of the path too: when it matches the file name, the file is
    ignored in whatever directory it lies. *)
Theorem basename_pattern_ignores c pattern dir base :
  In pattern (ConfigFile.Paths (ConfigFile.Ignore c)) ->
  HasSuffix (slashed pattern) "/" = false ->
  hasChar "/" base = false -> hasChar "\" base = false ->
  Match (slashed pattern) base = true ->
  ConfigFile.ShouldIgnore c base = true
  /\ ConfigFile.ShouldIgnore c (dir +:+ "/" +:+ base) = true.
Proof.
  intros Hin Hfile Hslash Hback Hmatch.
  unfold ConfigFile.ShouldIgnore. split.
  - apply ignoreLoop_exists. exists pattern. split; [exact Hin |].
    unfold ConfigFile.ignoreStep. fold (slashed pattern) (slashed base).
    rewrite Hfile, (slashed_plain base Hback), Hmatch. reflexivity.
  - apply ignoreLoop_exists. exists pattern. split; [exact Hin |].
    unfold ConfigFile.ignoreStep.
    fold (slashed pattern) (slashed (dir +:+ "/" +:+ base)).
    rewrite Hfile, (proj1 (slashed_path dir base)).
    rewrite (slashed_plain base Hback).
    destruct (Match (slashed pattern) (slashed dir +:+ "/" +:+ base));
      [reflexivity |].
    destruct (basename_of (slashed dir) base Hslash) as [Hbase Hidx].
    rewrite Hbase.
    replace (LastIndex (slashed dir +:+ "/" +:+ base) "/" >=? 0) with true
      by (symmetry; apply Z.geb_le; lia).
    now rewrite Hmatch.
Qed.

(** X18.  Separators make no difference: [ShouldIgnore] answers the same
    for a path written with backslashes and for the path written with
    slashes, and the same when the patterns are written with slashes. *)
Theorem ShouldIgnore_separators c path :
  ConfigFile.ShouldIgnore c (slashed path) = ConfigFile.ShouldIgnore c path
  /\ ConfigFile.ShouldIgnore
       (withPaths (map slashed (ConfigFile.Paths (ConfigFile.Ignore c)))) path
     = ConfigFile.ShouldIgnore c path.
Proof.
  unfold ConfigFile.ShouldIgnore. fold (slashed path) (slashed (slashed path)).
  rewrite slashed_slashed. split; [reflexivity |].
  cbn [withPaths ConfigFile.Ignore ConfigFile.Paths].
  induction (ConfigFile.Paths (ConfigFile.Ignore c)) as [|p rest IH];
    [reflexivity |].
  cbn [map ConfigFile.ignoreLoop]. now rewrite ignoreStep_slashed, IH.
Qed.

(** X19.  What is ignored depends on which patterns there are, not on
    their order: configurations with the same patterns ignore the same
    paths, a pattern more never brings a path back, and the empty
    configuration ignores nothing. *)
Theorem ShouldIgnore_by_patterns :
  (forall c c' path,
      (forall p, In p (ConfigFile.Paths (ConfigFile.Ignore c))
                 <-> In p (ConfigFile.Paths (ConfigFile.Ignore c'))) ->
      ConfigFile.ShouldIgnore c path = ConfigFile.ShouldIgnore c' path)
  /\ (forall ps qs path,
         ConfigFile.ShouldIgnore (withPaths (ps ++ qs)) path
         = ConfigFile.ShouldIgnore (withPaths ps) path
           || ConfigFile.ShouldIgnore (withPaths qs) path)
  /\ (forall path, ConfigFile.ShouldIgnore ConfigFile.emptyConfig path = false).
Proof.
  split; [| split].
  - intros c c' path Hsame. apply Bool.eq_iff_eq_true.
    unfold ConfigFile.ShouldIgnore. rewrite !ignoreLoop_exists.
    split; intros (p & Hp & Hstep); exists p; (split; [| exact Hstep]);
      now apply Hsame.
  - intros ps qs path. apply Bool.eq_iff_eq_true.
    unfold ConfigFile.ShouldIgnore.
    cbn [withPaths ConfigFile.Ignore ConfigFile.Paths].
    rewrite orb_true_iff, !ignoreLoop_exists. split.
    + intros (p & Hp & Hstep). apply in_app_iff in Hp as [Hp | Hp];
        [left | right]; now exists p.
    + intros [(p & Hp & Hstep) | (p & Hp & Hstep)]; exists p;
        (split; [apply in_app_iff; tauto | exact Hstep]).
  - reflexivity.
Qed.

Section WithCollaborators.
Context `{DiffLib} `{Provider} `{SourceParser}.

(** X20.  The extractor keeps away from ignored directories: a file
    below a directory that a pattern names gives no function; and the
    empty configuration changes nothing in what the extractor takes. *)
Theorem ignored_directory_not_extracted :
  (forall c pattern dir rest file,
      In pattern (ConfigFile.Paths (ConfigFile.Ignore c)) ->
      slashed pattern = slashed dir +:+ "/" ->
      Path file = dir +:+ "/" +:+ rest ->
      Extractor.extractStep (Some (fileConfig c)) [] file = [])
  /\ (forall files,
         Extractor.ExtractModifiedFunctions
           (Some (fileConfig ConfigFile.emptyConfig)) files
         = Extractor.ExtractModifiedFunctions None files).
Proof.
  split.
  - intros c pattern dir rest file Hin Hpattern Hpath.
    unfold Extractor.extractStep.
    destruct (String.eqb (Status file) "deleted"); [reflexivity |].
    cbn [fileConfig ShouldIgnore]. rewrite Hpath.
    assert (Hignored : ConfigFile.ShouldIgnore c (dir +:+ "/" +:+ rest) = true).
    { unfold ConfigFile.ShouldIgnore. apply ignoreLoop_exists.
      exists pattern. split; [exact Hin |].
      unfold ConfigFile.ignoreStep. fold (slashed pattern).
      fold (slashed (dir +:+ "/" +:+ rest)).
      rewrite Hpattern, HasSuffix_append, TrimSuffix_append.
      rewrite (proj1 (slashed_path dir rest)), <- append_assoc.
      unfold HasPrefix. now rewrite prefix_append. }
    now rewrite Hignored.
  - intros files. reflexivity.
Qed.

End WithCollaborators.
End WithDoublestar.

Lemma ShouldIgnore_by_patterns_witness :
  @ConfigFile.ShouldIgnore literal (withPaths ["README.md"; "vendor/"])
    "vendor/pkg/errors.go"
  = @ConfigFile.ShouldIgnore literal
      (withPaths ["vendor/"; "README.md"; "vendor/"]) "vendor/pkg/errors.go".
Proof.
  apply (proj1 (@ShouldIgnore_by_patterns literal)).
  intros p. cbn. tauto.
Defined.

Lemma directory_pattern_ignores_witness :
  @ConfigFile.ShouldIgnore literal vendorConfig "vendor" = true
  /\ (forall rest,
         @ConfigFile.ShouldIgnore literal vendorConfig
           ("vendor" +:+ "/" +:+ rest) = true)
  /\ (forall rest,
         @ConfigFile.ShouldIgnore literal vendorConfig
           ("vendor" +:+ "\" +:+ rest) = true).
Proof.
  apply (@directory_pattern_ignores literal vendorConfig "vendor/" "vendor").
  - left. reflexivity.
  - reflexivity.
Defined.

Lemma basename_pattern_ignores_witness :
  @ConfigFile.ShouldIgnore literal vendorConfig "README.md" = true
  /\ @ConfigFile.ShouldIgnore literal vendorConfig
       ("docs/api" +:+ "/" +:+ "README.md") = true.
Proof.
  apply (@basename_pattern_ignores literal vendorConfig "README.md").
  - right. left. reflexivity.
  - reflexivity.
  - reflexivity.
  - reflexivity.
  - reflexivity.
Defined.

Lemma ignored_directory_not_extracted_witness :
  @Extractor.extractStep PlainDiff.lib ExtractorSpec.oneProvider
    ExtractorSpec.oneParser (Some (@fileConfig literal vendorConfig)) []
    vendoredFile = [].
Proof.
  apply (proj1 (@ignored_directory_not_extracted literal PlainDiff.lib
                  ExtractorSpec.oneProvider ExtractorSpec.oneParser)
           vendorConfig "vendor/" "vendor" "pkg/errors.go").
  - left. reflexivity.
  - reflexivity.
  - reflexivity.
Defined.

End ConfigFacts.

(* ===================================================================== *)
(** ** The CI environment *)
(* ===================================================================== *)

Module CIFacts.
Import GoStrings GoStringsFacts GoConv CI CISpec ConfigSpec CacheSpec
  CacheFacts.

Lemma Cut_spec sep s : forall before after,
  Cut s sep = Some (before, after) ->
  s = before +:+ String sep after /\ hasChar sep before = false.
Proof.
  induction s as [|c r IH]; intros before after; [discriminate |].
  cbn [Cut]. destruct (Ascii.eqb_spec c sep) as [-> | Hne].
  - intros [= <- <-]. now split.
  - destruct (Cut r sep) as [[b a] |]; [| discriminate].
    intros [= <- <-]. destruct (IH b a eq_refl) as [-> Hb]. split.
    + now rewrite append_cons.
    + cbn [hasChar]. rewrite Hb, orb_false_r. now apply Ascii.eqb_neq.
Qed.

Lemma SplitN_two s sep :
  length (SplitN s sep 2) = 2%nat ->
  s = nth 0 (SplitN s sep 2) "" +:+ String sep (nth 1 (SplitN s sep 2) "")
  /\ hasChar sep (nth 0 (SplitN s sep 2) "") = false.
Proof.
  cbn [SplitN]. destruct (Cut s sep) as [[before after] |] eqn:Hcut;
    [| discriminate].
  intros _. cbn [nth]. now apply Cut_spec.
Qed.

Lemma digitsValue_from ds : forall acc,
  allDigits ds = true ->
  digitsValue acc ds
  = Some (fold_left (fun acc c => acc * 10 + (code c - 48))
            (list_ascii_of_string ds) acc).
Proof.
  unfold allDigits.
  induction ds as [|c r IH]; intros acc Hds; [reflexivity |].
  cbn [allChars] in Hds. apply andb_true_iff in Hds as [Hc Hr].
  cbn [digitsValue list_ascii_of_string fold_left]. rewrite Hc.
  now apply IH.
Qed.

Lemma fold_digits_nonneg ds : forall acc,
  allDigits ds = true -> 0 <= acc ->
  0 <= fold_left (fun acc c => acc * 10 + (code c - 48))
         (list_ascii_of_string ds) acc.
Proof.
  unfold allDigits.
  induction ds as [|c r IH]; intros acc Hds Hacc; [exact Hacc |].
  cbn [allChars] in Hds. apply andb_true_iff in Hds as [Hc Hr].
  cbn [list_ascii_of_string fold_left]. apply IH; [exact Hr |].
  unfold isDigit in Hc. apply andb_true_iff in Hc as [Hlo Hhi].
  apply Z.leb_le in Hlo, Hhi. lia.
Qed.

Lemma valueOf_nonneg ds : allDigits ds = true -> 0 <= valueOf ds.
Proof. intros Hds. now apply fold_digits_nonneg. Qed.

Lemma digit_not_sign c :
  isDigit c = true -> Ascii.eqb c "-" = false /\ Ascii.eqb c "+" = false.
Proof.
  intros Hc.
  split; apply Ascii.eqb_neq; intros ->; vm_compute in Hc; discriminate Hc.
Qed.

Lemma Atoi_digits Quote ds :
  allDigits ds = true -> ds <> "" ->
  Atoi Quote ds
  = if valueOf ds <=? GoInt.max_int then Ok (valueOf ds)
    else Err (NumError Quote ds "value out of range").
Proof.
  intros Hds Hne. pose proof (valueOf_nonneg ds Hds) as Hpos.
  destruct ds as [|c r]; [congruence |].
  pose proof Hds as Hall. unfold allDigits in Hds. cbn [allChars] in Hds.
  apply andb_true_iff in Hds as [Hc _].
  destruct (digit_not_sign c Hc) as [Hminus Hplus].
  unfold Atoi. rewrite Hminus, Hplus.
  rewrite (digitsValue_from _ 0 Hall). fold (valueOf (String c r)).
  replace (GoInt.min_int <=? valueOf (String c r)) with true; [reflexivity |].
  symmetry. apply Z.leb_le. unfold GoInt.min_int. lia.
Qed.

Lemma digitsOf_spec s :
  s = fst (digitsOf s) +:+ snd (digitsOf s)
  /\ allDigits (fst (digitsOf s)) = true.
Proof.
  unfold allDigits. induction s as [|c r IH]; [now split |].
  cbn [digitsOf]. destruct (isDigit c) eqn:Hc; [| now split].
  destruct (digitsOf r) as [ds rest]. cbn [fst snd] in *.
  destruct IH as [Hr Hds]. split.
  - rewrite append_cons. now f_equal.
  - cbn [allChars]. now rewrite Hc.
Qed.

Lemma digitsOf_run ds c rest :
  allDigits ds = true -> isDigit c = false ->
  digitsOf (ds +:+ String c rest) = (ds, String c rest).
Proof.
  unfold allDigits. intros Hds Hc.
  induction ds as [|d r IH].
  - rewrite append_nil_l. cbn [digitsOf]. now rewrite Hc.
  - cbn [allChars] in Hds. apply andb_true_iff in Hds as [Hd Hr].
    rewrite append_cons. cbn [digitsOf]. now rewrite Hd, (IH Hr).
Qed.

Lemma matchPull_digits s ds :
  matchPull s = Some ds -> allDigits ds = true /\ ds <> "".
Proof.
  unfold matchPull.
  destruct (Cache.matchLiteral "refs/pull/" s) as [s1 |]; [| discriminate].
  pose proof (digitsOf_spec s1) as [_ Hds].
  destruct (digitsOf s1) as [run rest]. cbn [fst] in Hds.
  destruct run as [|d run]; [discriminate |].
  destruct rest as [|c rest]; [discriminate |].
  destruct (Ascii.eqb c "/"); [| discriminate].
  intros [= <-]. split; [exact Hds | discriminate].
Qed.

Lemma FindPull_digits s ms :
  FindPull s = Some ms ->
  length ms = 2%nat /\ allDigits (nth 1 ms "") = true /\ nth 1 ms "" <> "".
Proof.
  induction s as [|c r IH]; cbn [FindPull].
  - destruct (matchPull "") as [ds |] eqn:Hm; [| discriminate].
    intros [= <-]. split; [reflexivity |]. now apply (matchPull_digits "").
  - destruct (matchPull (String c r)) as [ds |] eqn:Hm; [| exact IH].
    intros [= <-]. split; [reflexivity |].
    now apply (matchPull_digits (String c r)).
Qed.

Lemma matchPull_ref ds rest :
  allDigits ds = true -> ds <> "" ->
  matchPull ("refs/pull/" +:+ ds +:+ "/" +:+ rest) = Some ds.
Proof.
  intros Hds Hne. unfold matchPull. rewrite matchLiteral_append.
  rewrite append_cons, append_nil_l.
  rewrite (digitsOf_run ds "/" rest Hds eq_refl).
  destruct ds as [|d r]; [congruence | reflexivity].
Qed.

Section WithSystem.
Variable env : gmap string string.
Variable readEvent : string -> option Event.
Variable Quote : string -> string.

Lemma fromEventFile_Ok n :
  fromEventFile env readEvent = Ok n ->
  exists event,
    readEvent (Getenv env "GITHUB_EVENT_PATH") = Some event
    /\ (n = PullRequestNumber event \/ n = Number event) /\ 0 < n.
Proof.
  unfold fromEventFile.
  destruct (negb (String.eqb (Getenv env "GITHUB_EVENT_PATH") ""));
    [| discriminate].
  destruct (readEvent (Getenv env "GITHUB_EVENT_PATH")) as [event |];
    [| discriminate].
  destruct (PullRequestNumber event >? 0) eqn:Hpr.
  - intros [= <-]. exists event. split; [reflexivity |].
    split; [now left | lia].
  - destruct (Number event >? 0) eqn:Hn; [| discriminate].
    intros [= <-]. exists event. split; [reflexivity |].
    split; [now right | lia].
Qed.

Lemma getGitHubPRNumber_nonneg n :
  getGitHubPRNumber env readEvent Quote = Ok n -> 0 <= n.
Proof.
  unfold getGitHubPRNumber.
  assert (Hevent : fromEventFile env readEvent = Ok n -> 0 <= n).
  { intros He. apply fromEventFile_Ok in He as (_ & _ & _ & Hn). lia. }
  destruct (HasPrefix (Getenv env "GITHUB_REF") "refs/pull/");
    [| exact Hevent].
  destruct (FindPull (Getenv env "GITHUB_REF")) as [ms |] eqn:Hfind;
    [| exact Hevent].
  apply FindPull_digits in Hfind as (Hlen & Hds & Hne).
  rewrite Hlen. cbn [Nat.eqb]. rewrite (Atoi_digits _ _ Hds Hne).
  destruct (valueOf (nth 1 ms "") <=? GoInt.max_int); [| discriminate].
  intros [= <-]. now apply valueOf_nonneg.
Qed.

(** X21.  The number of a pull request comes from [GITHUB_REF] when that
    reads [refs/pull/<digits>/...]: it is the number the digits write, no
    event file is read, and digits that write no [int] are an error, not
    a reason to read the event file. *)
Theorem PRNumber_from_ref ds rest :
  Getenv env "GITHUB_REF" = "refs/pull/" +:+ ds +:+ "/" +:+ rest ->
  allDigits ds = true -> ds <> "" ->
  getGitHubPRNumber env readEvent Quote
  = if valueOf ds <=? GoInt.max_int then Ok (valueOf ds)
    else Err (NumError Quote ds "value out of range").
Proof.
  intros Href Hds Hne. unfold getGitHubPRNumber. rewrite Href.
  unfold HasPrefix. rewrite ConfigFacts.prefix_append.
  pose proof (matchPull_ref ds rest Hds Hne) as Hm.
  assert (Hfind : FindPull ("refs/pull/" +:+ ds +:+ "/" +:+ rest)
                  = Some ["refs/pull/" +:+ ds +:+ "/"; ds]).
  { destruct ("refs/pull/" +:+ ds +:+ "/" +:+ rest) as [|c r] eqn:Hs;
      cbn [FindPull]; now rewrite Hm. }
  rewrite Hfind. cbn [length Nat.eqb nth]. now apply Atoi_digits.
Qed.

Lemma SplitN_parts s :
  (length (SplitN s "/" 2) =? 2)%nat = true ->
  hasChar "/" (nth 0 (SplitN s "/" 2) "") = false
  /\ nth 0 (SplitN s "/" 2) "" +:+ "/" +:+ nth 1 (SplitN s "/" 2) "" = s.
Proof.
  intros Hlen. apply Nat.eqb_eq in Hlen.
  destruct (SplitN_two _ _ Hlen) as [Hparts Hslash].
  split; [exact Hslash | symmetry; exact Hparts].
Qed.

(** What [detectGitHub] returns when it succeeds. *)
Lemma detectGitHub_Ok e :
  detectGitHub env readEvent Quote = Ok e ->
  Provider e = "github" /\ ServerHost e = "github.com"
  /\ Token e = Getenv env "GITHUB_TOKEN" /\ Token e <> ""
  /\ 0 <= PRNumber e
  /\ hasChar "/" (Owner e) = false
  /\ Owner e +:+ "/" +:+ Repo e = Getenv env "GITHUB_REPOSITORY".
Proof.
  unfold detectGitHub.
  destruct (String.eqb (Getenv env "GITHUB_REPOSITORY") "");
    [discriminate |].
  destruct (length (SplitN (Getenv env "GITHUB_REPOSITORY") "/" 2) =? 2)%nat
    eqn:Hlen; cbn [negb]; [| discriminate].
  destruct (getGitHubPRNumber env readEvent Quote) as [n | err] eqn:Hn;
    [| discriminate].
  destruct (String.eqb_spec (Getenv env "GITHUB_TOKEN") "") as [Ht | Ht];
    [discriminate |].
  intros [= <-]. cbn [Token ServerHost PRNumber Provider Owner Repo].
  destruct (SplitN_parts _ Hlen) as [Hslash Hparts].
  pose proof (getGitHubPRNumber_nonneg n Hn) as Hpos.
  repeat split; assumption.
Qed.

(** What [detectGitLab] returns when it succeeds. *)
Lemma detectGitLab_Ok e :
  detectGitLab env Quote = Ok e ->
  Provider e = "gitlab"
  /\ ServerHost e = (if String.eqb (Getenv env "CI_SERVER_HOST") ""
                     then "gitlab.com" else Getenv env "CI_SERVER_HOST")
  /\ Token e = (if String.eqb (Getenv env "GITLAB_TOKEN") ""
                then Getenv env "CI_JOB_TOKEN"
                else Getenv env "GITLAB_TOKEN")
  /\ Token e <> ""
  /\ Atoi Quote (Getenv env "CI_MERGE_REQUEST_IID") = Ok (PRNumber e)
  /\ hasChar "/" (Owner e) = false
  /\ Owner e +:+ "/" +:+ Repo e = Getenv env "CI_PROJECT_PATH".
Proof.
  unfold detectGitLab.
  destruct (String.eqb (Getenv env "CI_PROJECT_PATH") ""); [discriminate |].
  destruct (length (SplitN (Getenv env "CI_PROJECT_PATH") "/" 2) =? 2)%nat
    eqn:Hlen; cbn [negb]; [| discriminate].
  destruct (String.eqb (Getenv env "CI_MERGE_REQUEST_IID") "");
    [discriminate |].
  destruct (Atoi Quote (Getenv env "CI_MERGE_REQUEST_IID")) as [n | err]
    eqn:Hn; [| discriminate].
  destruct (String.eqb_spec
              (if String.eqb (Getenv env "GITLAB_TOKEN") ""
               then Getenv env "CI_JOB_TOKEN"
               else Getenv env "GITLAB_TOKEN") "") as [Ht | Ht];
    [discriminate |].
  intros [= <-]. cbn [Token ServerHost PRNumber Provider Owner Repo].
  destruct (SplitN_parts _ Hlen) as [Hslash Hparts].
  repeat split; assumption.
Qed.

(** X22.  What [Detect] returns when it succeeds: a token and a server
    host that are not empty; the provider [github], with the host
    [github.com] and a number that is not negative, exactly when
    [GITHUB_ACTIONS] is [true], whatever [GITLAB_CI] says; and the
    provider [gitlab] otherwise. *)
Theorem Detect_environment e :
  Detect env readEvent Quote = Ok e ->
  Token e <> "" /\ ServerHost e <> ""
  /\ ((Getenv env "GITHUB_ACTIONS" = "true"
       /\ Provider e = "github" /\ ServerHost e = "github.com"
       /\ Token e = Getenv env "GITHUB_TOKEN" /\ 0 <= PRNumber e)
      \/ (Getenv env "GITHUB_ACTIONS" <> "true"
          /\ Getenv env "GITLAB_CI" = "true"
          /\ Provider e = "gitlab"
          /\ Atoi Quote (Getenv env "CI_MERGE_REQUEST_IID") = Ok (PRNumber e)
          /\ Token e = (if String.eqb (Getenv env "GITLAB_TOKEN") ""
                        then Getenv env "CI_JOB_TOKEN"
                        else Getenv env "GITLAB_TOKEN")
          /\ ServerHost e
             = (if String.eqb (Getenv env "CI_SERVER_HOST") ""
                then "gitlab.com" else Getenv env "CI_SERVER_HOST"))).
Proof.
  unfold Detect.
  destruct (String.eqb_spec (Getenv env "GITHUB_ACTIONS") "true")
    as [Hgh | Hgh].
  - intros He.
    destruct (detectGitHub_Ok e He) as (Hp & Hs & Ht & Hne & Hn & _).
    split; [exact Hne |]. split; [rewrite Hs; discriminate |].
    left. repeat split; assumption.
  - destruct (String.eqb_spec (Getenv env "GITLAB_CI") "true") as [Hgl | Hgl];
      [| discriminate].
    intros He.
    destruct (detectGitLab_Ok e He) as (Hp & Hs & Ht & Hne & Hn & _).
    split; [exact Hne |]. split.
    { rewrite Hs.
      destruct (String.eqb_spec (Getenv env "CI_SERVER_HOST") "");
        [discriminate | assumption]. }
    right. repeat split; assumption.
Qed.

(** X23.  Owner and repository are the two sides of the first slash of
    [GITHUB_REPOSITORY] or [CI_PROJECT_PATH]: the owner holds no slash,
    and owner, slash and repository give the variable back, so that the
    groups below the first one of a GitLab path stay in the repository. *)
Theorem Detect_repository e :
  Detect env readEvent Quote = Ok e ->
  hasChar "/" (Owner e) = false
  /\ Owner e +:+ "/" +:+ Repo e
     = (if String.eqb (Getenv env "GITHUB_ACTIONS") "true"
        then Getenv env "GITHUB_REPOSITORY"
        else Getenv env "CI_PROJECT_PATH").
Proof.
  unfold Detect.
  destruct (String.eqb (Getenv env "GITHUB_ACTIONS") "true").
  - intros He.
    destruct (detectGitHub_Ok e He) as (_ & _ & _ & _ & _ & Hslash & Hparts).
    now split.
  - destruct (String.eqb (Getenv env "GITLAB_CI") "true"); [| discriminate].
    intros He.
    destruct (detectGitLab_Ok e He) as (_ & _ & _ & _ & _ & Hslash & Hparts).
    now split.
Qed.

(** X29.  [runReview] talks to the host the environment names: for an
    environment that [Detect] returns, the provider is the one of GitHub
    when [GITHUB_ACTIONS] is [true], made of the two sides of
    [GITHUB_REPOSITORY] and of [GITHUB_TOKEN]; otherwise it is the one of
    GitLab, its project is [CI_PROJECT_PATH] as a whole, groups below the
    first one included, and its client [https://<host>/api/v4]. *)
Theorem provider_of_environment e :
  Detect env readEvent Quote = Ok e ->
  (Getenv env "GITHUB_ACTIONS" = "true"
   /\ Run.providerFor e
      = Run.OnGitHub (Owner e) (Repo e) (Getenv env "GITHUB_TOKEN")
   /\ Owner e +:+ "/" +:+ Repo e = Getenv env "GITHUB_REPOSITORY")
  \/ (Getenv env "GITHUB_ACTIONS" <> "true"
      /\ Run.providerFor e
         = Run.OnGitLab
             (GitLab.mkGitLabProvider
                ("https://"
                 +:+ (if String.eqb (Getenv env "CI_SERVER_HOST") ""
                      then "gitlab.com" else Getenv env "CI_SERVER_HOST")
                 +:+ "/api/v4")
                (Getenv env "CI_PROJECT_PATH"))).
Proof.
  unfold Detect, Run.providerFor.
  destruct (String.eqb_spec (Getenv env "GITHUB_ACTIONS") "true")
    as [Hgh | Hgh].
  - intros He.
    destruct (detectGitHub_Ok e He) as (Hp & _ & Ht & _ & _ & _ & Hparts).
    left. rewrite Hp, Ht. cbn [String.eqb Ascii.eqb Bool.eqb]. now repeat split.
  - destruct (String.eqb (Getenv env "GITLAB_CI") "true"); [| discriminate].
    intros He.
    destruct (detectGitLab_Ok e He) as (Hp & Hs & _ & _ & _ & _ & Hparts).
    right. split; [exact Hgh |]. rewrite Hp. cbn [String.eqb Ascii.eqb Bool.eqb].
    unfold GitLab.NewGitLabProvider. now rewrite Hs, Hparts.
Qed.

End WithSystem.

Lemma PRNumber_from_ref_witness :
  getGitHubPRNumber githubEnv noEvent plainQuote
  = if valueOf "42" <=? GoInt.max_int then Ok (valueOf "42")
    else Err (NumError plainQuote "42" "value out of range").
Proof.
  apply (PRNumber_from_ref githubEnv noEvent plainQuote "42" "merge").
  - vm_compute. reflexivity.
  - reflexivity.
  - discriminate.
Defined.

Lemma Detect_environment_witness :
  Token githubDetected <> "" /\ ServerHost githubDetected <> ""
  /\ ((Getenv githubEnv "GITHUB_ACTIONS" = "true"
       /\ Provider githubDetected = "github"
       /\ ServerHost githubDetected = "github.com"
       /\ Token githubDetected = Getenv githubEnv "GITHUB_TOKEN"
       /\ 0 <= PRNumber githubDetected)
      \/ (Getenv githubEnv "GITHUB_ACTIONS" <> "true"
          /\ Getenv githubEnv "GITLAB_CI" = "true"
          /\ Provider githubDetected = "gitlab"
          /\ Atoi plainQuote (Getenv githubEnv "CI_MERGE_REQUEST_IID")
             = Ok (PRNumber githubDetected)
          /\ Token githubDetected
             = (if String.eqb (Getenv githubEnv "GITLAB_TOKEN") ""
                then Getenv githubEnv "CI_JOB_TOKEN"
                else Getenv githubEnv "GITLAB_TOKEN")
          /\ ServerHost githubDetected
             = (if String.eqb (Getenv githubEnv "CI_SERVER_HOST") ""
                then "gitlab.com" else Getenv githubEnv "CI_SERVER_HOST"))).
Proof.
  apply (Detect_environment githubEnv noEvent plainQuote githubDetected).
  vm_compute. reflexivity.
Defined.

Lemma Detect_repository_witness :
  hasChar "/" (Owner gitlabDetected) = false
  /\ Owner gitlabDetected +:+ "/" +:+ Repo gitlabDetected
     = (if String.eqb (Getenv gitlabEnv "GITHUB_ACTIONS") "true"
        then Getenv gitlabEnv "GITHUB_REPOSITORY"
        else Getenv gitlabEnv "CI_PROJECT_PATH").
Proof.
  apply (Detect_repository gitlabEnv noEvent plainQuote gitlabDetected).
  vm_compute. reflexivity.
Defined.

Lemma provider_of_environment_witness :
  (Getenv gitlabEnv "GITHUB_ACTIONS" = "true"
   /\ Run.providerFor gitlabDetected
      = Run.OnGitHub (Owner gitlabDetected) (Repo gitlabDetected)
          (Getenv gitlabEnv "GITHUB_TOKEN")
   /\ Owner gitlabDetected +:+ "/" +:+ Repo gitlabDetected
      = Getenv gitlabEnv "GITHUB_REPOSITORY")
  \/ (Getenv gitlabEnv "GITHUB_ACTIONS" <> "true"
      /\ Run.providerFor gitlabDetected
         = Run.OnGitLab
             (GitLab.mkGitLabProvider
                ("https://"
                 +:+ (if String.eqb (Getenv gitlabEnv "CI_SERVER_HOST") ""
                      then "gitlab.com"
                      else Getenv gitlabEnv "CI_SERVER_HOST")
                 +:+ "/api/v4")
                (Getenv gitlabEnv "CI_PROJECT_PATH"))).
Proof.
  apply (provider_of_environment gitlabEnv noEvent plainQuote gitlabDetected).
  vm_compute. reflexivity.
Defined.

(** Runs of [Detect], after the tests of the repository. *)
Example Detect_GitHubPrecedence :
  Detect githubEnv noEvent plainQuote = Ok githubDetected.
Proof. vm_compute. reflexivity. Qed.

Example Detect_GitLab_FallbackToJobToken :
  Detect gitlabEnv noEvent plainQuote = Ok gitlabDetected.
Proof. vm_compute. reflexivity. Qed.

Example Detect_NoCIEnvironment :
  Detect ∅ noEvent plainQuote
  = Err "not running in a supported CI environment (GitHub Actions or GitLab CI)".
Proof. vm_compute. reflexivity. Qed.

Example DetectGitLab_InvalidMRIID :
  detectGitLab (<["CI_MERGE_REQUEST_IID" := "not-a-number"]> gitlabEnv)
    plainQuote
  = Err "invalid CI_MERGE_REQUEST_IID: not-a-number".
Proof. vm_compute. reflexivity. Qed.

Example DetectGitHub_PRNumberFromEventFile :
  getGitHubPRNumber
    (<["GITHUB_REF" := "refs/heads/main"]>
       (<["GITHUB_EVENT_PATH" := "/tmp/event.json"]> githubEnv))
    (fun _ => Some (mkEvent 456 0)) plainQuote
  = Ok 456.
Proof. vm_compute. reflexivity. Qed.

End CIFacts.

(* ===================================================================== *)
(** ** The functions of a syntax tree *)
(* ===================================================================== *)

Module ParserFacts.
Import GoStrings GoStringsFacts Parser ParserSpec ConfigSpec.

Lemma pretty_N_go_no_colon x : forall s,
  hasChar ":" s = false -> hasChar ":" (pretty_N_go x s) = false.
Proof.
  induction (N.lt_wf_0 x) as [x _ IH]; intros s Hs.
  assert (Hx : (x = 0 \/ 0 < x)%N) by lia. destruct Hx as [-> | Hx].
  - now rewrite pretty_N_go_0.
  - rewrite pretty_N_go_step by exact Hx. apply IH.
    + now apply N.div_lt.
    + cbn [hasChar]. rewrite Hs, orb_false_r.
      unfold pretty_N_char. repeat case_match; reflexivity.
Qed.

Lemma pretty_N_no_colon (x : N) : hasChar ":" (pretty x) = false.
Proof.
  unfold pretty, pretty_N. destruct (decide (x = 0%N)); [reflexivity |].
  now apply pretty_N_go_no_colon.
Qed.

Lemma pretty_Z_no_colon (z : Z) : hasChar ":" (pretty z) = false.
Proof.
  unfold pretty, pretty_Z. destruct z as [|p|p]; [reflexivity | |].
  - apply pretty_N_no_colon.
  - rewrite append_cons, append_nil_l. cbn [hasChar].
    apply (pretty_N_no_colon (Npos p)).
Qed.

Lemma split_at_colon a : forall c b d,
  hasChar ":" a = false -> hasChar ":" c = false ->
  a +:+ ":" +:+ b = c +:+ ":" +:+ d -> a = c /\ b = d.
Proof.
  induction a as [|x a IH]; intros c b d Ha Hc Heq.
  - destruct c as [|y c].
    + rewrite !append_nil_l in Heq. now injection Heq.
    + rewrite append_nil_l, !append_cons in Heq. injection Heq as <- _.
      cbn [hasChar] in Hc. discriminate.
  - destruct c as [|y c].
    + rewrite append_nil_l, !append_cons in Heq. injection Heq as -> _.
      cbn [hasChar] in Ha. discriminate.
    + rewrite !append_cons in Heq. injection Heq as <- Heq.
      cbn [hasChar] in Ha, Hc.
      apply orb_false_iff in Ha as [_ Ha]. apply orb_false_iff in Hc as [_ Hc].
      destruct (IH c b d Ha Hc Heq) as [-> ->]. now split.
Qed.

Lemma rangeKey_inj s e s' e' :
  rangeKey s e = rangeKey s' e' -> s = s' /\ e = e'.
Proof.
  unfold rangeKey. intros Heq.
  apply split_at_colon in Heq as [Hs He]; try apply pretty_Z_no_colon.
  split; now apply (inj pretty).
Qed.

Section WithQuery.
Variable names : list string.

(** What a turn of the loop over the matches does. *)
Lemma matchStep_spec functions seen m :
  matchStep names (functions, seen) m
  = match rangeOfMatch names m with
    | None => (functions, seen)
    | Some (startLine, endLine) =>
        if seenAt seen (rangeKey startLine endLine) then (functions, seen)
        else
          (functions
             ++ [mkFunction
                   (if String.eqb (snd (captured names m)) ""
                    then "<anonymous>" else snd (captured names m))
                   startLine endLine
                   (match fst (captured names m) with
                    | Some node => TrimSpace (Utf8Text node)
                    | None => ""
                    end)],
           <[rangeKey startLine endLine := true]> seen)
    end.
Proof.
  unfold matchStep, rangeOfMatch, captured, seenAt.
  destruct (fold_left (captureStep names) (Captures m) (None, ""))
    as [[node |] nameStr]; cbn [fst snd]; [| reflexivity].
  now destruct (seen !! rangeKey _ _) as [[|] |].
Qed.

Lemma seenAt_insert seen key k :
  seenAt (<[key := true]> seen) k = String.eqb key k || seenAt seen k.
Proof.
  unfold seenAt. destruct (String.eqb_spec key k) as [-> | Hne].
  - now rewrite lookup_insert_eq.
  - now rewrite lookup_insert_ne.
Qed.

Lemma In_keysOf functions s e :
  In (rangeKey s e) (keysOf functions) <-> In (s, e) (map rangeOf functions).
Proof.
  unfold keysOf. rewrite !in_map_iff. split.
  - intros (fn & Hk & Hfn). exists fn. split; [| exact Hfn].
    apply rangeKey_inj in Hk as [<- <-]. reflexivity.
  - intros (fn & Hr & Hfn). exists fn. split; [| exact Hfn].
    unfold rangeOf in Hr. now injection Hr as -> ->.
Qed.

Lemma matchStep_tidy st m : tidy st -> tidy (matchStep names st m).
Proof.
  destruct st as [functions seen]. intros Hst.
  pose proof Hst as (Hseen & Hnodup & Hnamed).
  rewrite matchStep_spec. cbn [fst snd] in Hseen, Hnodup, Hnamed.
  destruct (rangeOfMatch names m) as [[s e] |]; [| exact Hst].
  destruct (seenAt seen (rangeKey s e)) eqn:Hk; [exact Hst |].
  assert (Hnew : ~ In (s, e) (map rangeOf functions)).
  { rewrite <- In_keysOf, <- Hseen, Hk. discriminate. }
  split; [| split]; cbn [fst snd].
  - intros k. rewrite seenAt_insert, orb_true_iff, Hseen. unfold keysOf.
    rewrite map_app, in_app_iff. cbn [map In fnStartLine fnEndLine].
    rewrite String.eqb_eq. tauto.
  - rewrite map_app. cbn [map rangeOf fnStartLine fnEndLine].
    apply NoDup_app. split; [exact Hnodup |]. split.
    + intros r Hr Hin. apply list_elem_of_In in Hr.
      apply list_elem_of_In in Hin. destruct Hin as [<- | []].
      contradiction.
    + apply NoDup_singleton.
  - apply Forall_app. split; [exact Hnamed |].
    constructor; [| constructor]. cbn [fnName].
    destruct (String.eqb_spec (snd (captured names m)) "");
      [discriminate | assumption].
Qed.

Lemma matchSteps_tidy ms : forall st,
  tidy st -> tidy (fold_left (matchStep names) ms st).
Proof.
  induction ms as [|m rest IH]; intros st Hst; [exact Hst |].
  cbn [fold_left]. now apply IH, matchStep_tidy.
Qed.

Lemma tidy_start : tidy ([], ∅).
Proof.
  split; [| split]; cbn [fst snd keysOf map].
  - intros k. unfold seenAt. rewrite lookup_empty. cbn [In].
    split; [discriminate | intros []].
  - apply NoDup_nil_2.
  - constructor.
Qed.

(** X24.  [Parse] returns no two functions on the same lines and no
    function without a name: of the matches for one node, only the first
    is taken, and a match without a name is called [<anonymous>]. *)
Theorem collect_distinct matches :
  NoDup (map rangeOf (collect names matches))
  /\ Forall (fun fn => fnName fn <> "") (collect names matches).
Proof.
  pose proof (matchSteps_tidy matches _ tidy_start) as (_ & Hnodup & Hnamed).
  split; [exact Hnodup | exact Hnamed].
Qed.

Lemma matchStep_grows st m :
  exists more,
    fst (matchStep names st m) = fst st ++ more
    /\ forall fn, In fn more -> rangeOfMatch names m = Some (rangeOf fn).
Proof.
  destruct st as [functions seen]. rewrite matchStep_spec. cbn [fst].
  destruct (rangeOfMatch names m) as [[s e] |].
  - destruct (seenAt seen (rangeKey s e)).
    + exists []. split; [now rewrite app_nil_r | intros fn []].
    + eexists. split; [reflexivity |]. intros fn [<- | []]. reflexivity.
  - exists []. split; [now rewrite app_nil_r | intros fn []].
Qed.

Lemma matchSteps_grow ms : forall st,
  exists more,
    fst (fold_left (matchStep names) ms st) = fst st ++ more
    /\ forall fn, In fn more ->
         exists m, In m ms /\ rangeOfMatch names m = Some (rangeOf fn).
Proof.
  induction ms as [|m rest IH]; intros st.
  - exists []. split; [now rewrite app_nil_r | intros fn []].
  - cbn [fold_left].
    destruct (IH (matchStep names st m)) as (more2 & Heq2 & Hfrom2).
    destruct (matchStep_grows st m) as (more1 & Heq1 & Hfrom1).
    exists (more1 ++ more2). split.
    + now rewrite Heq2, Heq1, <- app_assoc.
    + intros fn Hin. apply in_app_iff in Hin as [Hin | Hin].
      * exists m. split; [now left | now apply Hfrom1].
      * destruct (Hfrom2 fn Hin) as (m' & Hm' & Hr). exists m'.
        split; [now right | exact Hr].
Qed.

Lemma matchStep_keeps st m r :
  tidy st -> rangeOfMatch names m = Some r ->
  In r (map rangeOf (fst (matchStep names st m))).
Proof.
  destruct st as [functions seen]. intros (Hseen & _ & _) Hr.
  rewrite matchStep_spec, Hr. destruct r as [s e]. cbn [fst snd] in *.
  destruct (seenAt seen (rangeKey s e)) eqn:Hk; cbn [fst].
  - apply In_keysOf, Hseen, Hk.
  - rewrite map_app, in_app_iff. right. now left.
Qed.

Lemma matchSteps_keep ms : forall st m r,
  tidy st -> In m ms -> rangeOfMatch names m = Some r ->
  In r (map rangeOf (fst (fold_left (matchStep names) ms st))).
Proof.
  induction ms as [|m0 rest IH]; intros st m r Hst Hin Hr; [destruct Hin |].
  cbn [fold_left]. destruct Hin as [-> | Hin].
  - destruct (matchSteps_grow rest (matchStep names st m)) as (more & -> & _).
    rewrite map_app, in_app_iff. left. now apply matchStep_keeps.
  - apply (IH _ m r); [now apply matchStep_tidy | exact Hin | exact Hr].
Qed.

Lemma matchStep_functionOf functions seen m :
  matchStep names (functions, seen) m
  = match rangeOfMatch names m with
    | None => (functions, seen)
    | Some r =>
        if seenAt seen (rangeKey (fst r) (snd r)) then (functions, seen)
        else (functions ++ [functionOf names m],
              <[rangeKey (fst r) (snd r) := true]> seen)
    end.
Proof.
  rewrite matchStep_spec. unfold functionOf.
  destruct (rangeOfMatch names m) as [[s e] |]; reflexivity.
Qed.

Lemma collect_snoc matches m :
  exists seen,
    (forall r, seenAt seen (rangeKey (fst r) (snd r)) = true
               <-> In r (map rangeOf (collect names matches)))
    /\ collect names (matches ++ [m])
       = fst (matchStep names (collect names matches, seen) m).
Proof.
  unfold collect. rewrite fold_left_app. cbn [fold_left].
  pose proof (matchSteps_tidy matches _ tidy_start) as (Hseen & _ & _).
  destruct (fold_left (matchStep names) matches ([], ∅)) as [functions seen].
  cbn [fst snd] in *. exists seen. split; [| reflexivity].
  intros [s e]. cbn [fst snd]. now rewrite Hseen, In_keysOf.
Qed.

(** X25.  [Parse] keeps one function for each range of lines, the
    first: the line ranges of the functions it returns are exactly the
    ranges of the function nodes of the matches; a match on lines not
    seen before adds its function at the end; a match on lines seen
    before is dropped, also when it is another function, as the second
    of two functions written on one line; a match without a function
    node adds nothing; and matches that come later leave the functions
    found before as they are. *)
Theorem collect_one_per_range matches :
  (forall r,
      In r (map rangeOf (collect names matches))
      <-> exists m, In m matches /\ rangeOfMatch names m = Some r)
  /\ (forall m r,
         rangeOfMatch names m = Some r ->
         In r (map rangeOf (collect names matches)) ->
         collect names (matches ++ [m]) = collect names matches)
  /\ (forall m r,
         rangeOfMatch names m = Some r ->
         ~ In r (map rangeOf (collect names matches)) ->
         collect names (matches ++ [m])
         = collect names matches ++ [functionOf names m])
  /\ (forall m,
         rangeOfMatch names m = None ->
         collect names (matches ++ [m]) = collect names matches)
  /\ (forall later,
         exists more,
           collect names (matches ++ later) = collect names matches ++ more).
Proof.
  split; [| split; [| split; [| split]]].
  - intros r. unfold collect. split.
    + intros Hin. apply in_map_iff in Hin as (fn & <- & Hfn).
      destruct (matchSteps_grow matches ([], ∅)) as (more & Heq & Hfrom).
      rewrite Heq in Hfn. cbn [fst app] in Hfn. now apply Hfrom.
    + intros (m & Hm & Hr).
      now apply (matchSteps_keep matches _ m r tidy_start).
  - intros m r Hr Hin.
    destruct (collect_snoc matches m) as (seen & Hseen & ->).
    rewrite matchStep_functionOf, Hr. apply Hseen in Hin. now rewrite Hin.
  - intros m r Hr Hnew.
    destruct (collect_snoc matches m) as (seen & Hseen & ->).
    rewrite matchStep_functionOf, Hr.
    destruct (seenAt seen (rangeKey (fst r) (snd r))) eqn:Hk; [| reflexivity].
    now apply Hseen in Hk.
  - intros m Hnone. destruct (collect_snoc matches m) as (seen & _ & ->).
    now rewrite matchStep_functionOf, Hnone.
  - intros later. unfold collect. rewrite fold_left_app.
    destruct (matchSteps_grow later
                (fold_left (matchStep names) matches ([], ∅)))
      as (more & Heq & _).
    now exists more.
Qed.

End WithQuery.

(** Two matches for one method give one function. *)
Example collect_once :
  collect goNames [firstMatch; secondMatch]
  = [mkFunction "Run" 3 5 ("func (s *S) Run() {" +:+ newline +:+ "}")].
Proof. vm_compute. reflexivity. Qed.

Example collect_anonymous :
  collect goNames [secondMatch]
  = [mkFunction "<anonymous>" 3 5
       ("func (s *S) Run() {" +:+ newline +:+ "}")].
Proof. vm_compute. reflexivity. Qed.

(** Of two functions on one line the second is lost. *)
Example collect_same_line :
  collect goNames [leftMatch; rightMatch]
  = [mkFunction "a" 1 1 "function a() {}"].
Proof. vm_compute. reflexivity. Qed.

Lemma collect_one_per_range_witness :
  collect goNames ([leftMatch] ++ [rightMatch]) = collect goNames [leftMatch].
Proof.
  apply (proj1 (proj2 (collect_one_per_range goNames [leftMatch]))
           rightMatch (1, 1)).
  - vm_compute. reflexivity.
  - vm_compute. now left.
Defined.

End ParserFacts.

(* ===================================================================== *)
(** ** The answers of the model *)
(* ===================================================================== *)

Module LLMFacts.
Import GoStrings GoStringsFacts GoStringsMore Extractor Cache CacheSpec LLM
  Run RunSpec RunFacts ConfigSpec ConfigFacts ListFacts.

Lemma slice_middle pre body post :
  slice (pre +:+ body +:+ post) (Z.of_nat (String.length pre))
    (Z.of_nat (String.length pre) + Z.of_nat (String.length body))
  = body.
Proof.
  unfold slice.
  replace (Z.to_nat (Z.of_nat (String.length pre) + Z.of_nat (String.length body)
                     - Z.of_nat (String.length pre)))
    with (String.length body) by lia.
  rewrite Nat2Z.id, substring_skip. apply substring_front_append.
Qed.

Section WithModel.
Context `{Client} `{Json}.
Variable systemPrompt : string.

(** X26.  An answer that wraps its JSON in other text is read all the
    same: when the trimmed answer is not JSON as a whole, the text from
    its first opening brace to its last closing brace is read, and its
    issues are the suggestions; an answer that is [LGTM] apart from white
    space gives no suggestion, whatever the reader of JSON would say. *)
Theorem parseReviewResponse_embedded response :
  (forall pre mid post,
      TrimSpace response = pre +:+ "{" +:+ mid +:+ "}" +:+ post ->
      hasChar "{" pre = false -> hasChar "}" post = false ->
      Unmarshal (TrimSpace response) = None ->
      parseReviewResponse response
      = match Unmarshal ("{" +:+ mid +:+ "}") with
        | Some issues => issues
        | None => []
        end)
  /\ (TrimSpace response = "LGTM" -> parseReviewResponse response = []).
Proof.
  split.
  - intros pre mid post Htrim Hpre Hpost Hwhole. unfold parseReviewResponse.
    rewrite Hwhole.
    assert (Hnot : String.eqb (TrimSpace response) LGTMMarker = false).
    { apply String.eqb_neq. intros Heq. rewrite Heq in Htrim.
      assert (Hbrace : hasChar "{" LGTMMarker = true).
      { rewrite Htrim, !hasChar_append. cbn. now rewrite orb_true_r. }
      discriminate. }
    rewrite Hnot, Htrim.
    assert (Hstart : Index (pre +:+ "{" +:+ mid +:+ "}" +:+ post) "{"
                     = Z.of_nat (String.length pre)).
    { unfold Index.
      change (pre +:+ "{" +:+ mid +:+ "}" +:+ post)
        with (pre +:+ String "{" (mid +:+ "}" +:+ post)).
      now rewrite indexFrom_first. }
    assert (Hend : LastIndex (pre +:+ "{" +:+ mid +:+ "}" +:+ post) "}"
                   = Z.of_nat (String.length (pre +:+ "{" +:+ mid))).
    { unfold LastIndex.
      replace (pre +:+ "{" +:+ mid +:+ "}" +:+ post)
        with ((pre +:+ "{" +:+ mid) +:+ String "}" post)
        by now rewrite !append_assoc.
      now rewrite lastIndexFrom_last. }
    rewrite Hstart, Hend, !length_append.
    replace (Z.of_nat (String.length pre) >=? 0) with true
      by (symmetry; apply Z.geb_le; lia).
    replace (Z.of_nat (String.length pre
                       + (String.length "{" + String.length mid))
             >? Z.of_nat (String.length pre)) with true
      by (symmetry; apply Z.gtb_lt; cbn [String.length]; lia).
    cbn [andb].
    replace (Z.of_nat (String.length pre
                       + (String.length "{" + String.length mid)) + 1)
      with (Z.of_nat (String.length pre)
            + Z.of_nat (String.length ("{" +:+ mid +:+ "}")))
      by (rewrite !length_append; cbn [String.length]; lia).
    replace (pre +:+ "{" +:+ mid +:+ "}" +:+ post)
      with (pre +:+ ("{" +:+ mid +:+ "}") +:+ post)
      by now rewrite !append_assoc.
    now rewrite slice_middle.
  - intros Hlgtm. unfold parseReviewResponse. now rewrite Hlgtm.
Qed.

Lemma reviewSteps_spec functions : forall results,
  fold_left (reviewStep systemPrompt) functions results
  = results ++ map (resultOf systemPrompt) functions.
Proof.
  induction functions as [|fn rest IH]; intros results.
  - cbn. now rewrite app_nil_r.
  - cbn [fold_left map]. rewrite IH. unfold reviewStep, resultOf.
    destruct (Complete (messagesFor systemPrompt fn));
      now rewrite <- app_assoc.
Qed.

Lemma ReviewFunctions_spec functions :
  ReviewFunctions systemPrompt functions
  = map (resultOf systemPrompt) functions.
Proof. unfold ReviewFunctions. now rewrite reviewSteps_spec. Qed.

Lemma rrFunction_resultOf fn : rrFunction (resultOf systemPrompt fn) = fn.
Proof.
  unfold resultOf. now destruct (Complete (messagesFor systemPrompt fn)).
Qed.

Lemma HasIssues_resultOf fn :
  HasIssues (resultOf systemPrompt fn) = true
  <-> exists review,
        Complete (messagesFor systemPrompt fn) = Ok review
        /\ parseReviewResponse review <> [].
Proof.
  unfold resultOf, HasIssues.
  destruct (Complete (messagesFor systemPrompt fn)) as [review | err];
    cbn [Error Suggestions].
  - split.
    + intros Hn. exists review. split; [reflexivity |].
      intros Hnil. rewrite Hnil in Hn. discriminate.
    + intros (review' & [= <-] & Hne).
      destruct (parseReviewResponse review); [congruence | reflexivity].
  - split; [discriminate | now intros (review & [=] & _)].
Qed.

(** X27.  [ReviewFunctions] gives one result for each function, in the
    order of the functions, whether the model answers or fails; and a
    result has issues exactly when the model answered and its answer
    holds a suggestion, so that a failure is taken for no issue. *)
Theorem ReviewFunctions_one_for_each functions :
  map rrFunction (ReviewFunctions systemPrompt functions) = functions
  /\ Forall2
       (fun fn r =>
          rrFunction r = fn
          /\ (HasIssues r = true
              <-> exists review,
                    Complete (messagesFor systemPrompt fn) = Ok review
                    /\ parseReviewResponse review <> []))
       functions (ReviewFunctions systemPrompt functions).
Proof.
  rewrite ReviewFunctions_spec. split.
  - rewrite map_map. induction functions as [|fn rest IH]; [reflexivity |].
    cbn [map]. now rewrite rrFunction_resultOf, IH.
  - induction functions as [|fn rest IH]; [constructor |].
    cbn [map]. constructor; [| exact IH].
    split; [apply rrFunction_resultOf | apply HasIssues_resultOf].
Qed.

(** X28.  The comments of a run are the suggestions of the model: a
    comment is handed to [CreateReview] exactly when the model answered
    for one of the functions and the answer holds the suggestion; it lies
    on the path of that function and on the line of the suggestion, and
    its body is the description followed by the marker of the function.
    A function for which the model fails or finds nothing gets no
    comment. *)
Theorem comments_are_suggestions functions c :
  In c (reviewComments (ReviewFunctions systemPrompt functions))
  <-> exists fn review s,
        In fn functions
        /\ Complete (messagesFor systemPrompt fn) = Ok review
        /\ In s (parseReviewResponse review)
        /\ c = mkReviewComment (FilePath fn) (sgLine s)
                 (Description s +:+ newline +:+ newline
                  +:+ FormatHashMarker (FunctionHash fn))
                 (Code s).
Proof.
  rewrite In_reviewComments, ReviewFunctions_spec. split.
  - intros (r & s & Hr & Hi & Hs & ->).
    apply in_map_iff in Hr as (fn & <- & Hfn).
    apply HasIssues_resultOf in Hi as (review & Hreview & _).
    exists fn, review, s. rewrite rrFunction_resultOf.
    split; [exact Hfn |]. split; [exact Hreview |]. split; [| reflexivity].
    unfold resultOf in Hs. now rewrite Hreview in Hs.
  - intros (fn & review & s & Hfn & Hreview & Hs & ->).
    exists (resultOf systemPrompt fn), s.
    split; [apply in_map_iff; now exists fn |].
    split.
    { apply HasIssues_resultOf. exists review. split; [exact Hreview |].
      intros Hnil. rewrite Hnil in Hs. destruct Hs. }
    split.
    { unfold resultOf. now rewrite Hreview. }
    now rewrite rrFunction_resultOf.
Qed.

End WithModel.

Lemma parseReviewResponse_embedded_witness :
  @parseReviewResponse oneJson "  Here you are: {issues} Bye.  "
  = match @Unmarshal oneJson ("{" +:+ "issues" +:+ "}") with
    | Some issues => issues
    | None => []
    end.
Proof.
  apply (proj1 (@parseReviewResponse_embedded oneJson
                  "  Here you are: {issues} Bye.  ")
           "Here you are: " "issues" " Bye.").
  - vm_compute. reflexivity.
  - reflexivity.
  - reflexivity.
  - vm_compute. reflexivity.
Defined.

(** A run with the stand-ins: the answer is read and becomes a comment. *)
Example ReviewFunctions_chatty :
  @ReviewFunctions chatty oneJson "You are an expert code reviewer." [sample]
  = [mkReviewResult sample oneIssue "Here you are: {issues} Bye." None].
Proof. vm_compute. reflexivity. Qed.

End LLMFacts.
